(** * x402 Autopay: challenge resolution and autopay policy engine

    A shallow embedding of the extension's TypeScript sources
    ([src/shared/types.ts], [src/shared/storage.ts], [src/shared/x402.ts],
    [src/background.ts]) and the properties of the design document that
    are checked against it.

    Conventions of the embedding.
    - A JavaScript [number] is an IEEE 754 binary64 value: Rocq's primitive
      [float].  USD amounts, chain ids and lock durations are [float]s.
    - Epoch times ([Date.now()], [timestamp], [createdAt], [lockedUntil])
      are integers far below 2^53, where [number] arithmetic is exact: they
      are [Z].
    - A string is a sequence of UTF-16 code units ([string], defined
      below).  A header value of the Fetch API is a string whose units are
      all below 256; the text of a JSON string can hold any unit.
    - [Record<string, T>] objects used as dictionaries are [gmap string T],
      the members the object has itself; an assignment
      [object[key] = value] is [assign], which creates no member under the
      key ["__proto__"].
    - Asynchronous functions over [chrome.storage.local] and the two
      module-level variables of [storage.ts] are functions in a state and
      exception monad over an explicit [World]. *)

From Stdlib Require Import ZArith List Bool Lia Floats.
From Stdlib Require Import Ascii.
From Stdlib Require String DecimalString.
From stdpp Require Import gmap.

(** ** Strings

    A code unit is a number (below 65536 in every string the modelled
    functions build from their inputs). *)
Inductive string :=
| EmptyString
| String (c : N) (s : string).

Declare Scope str_scope.
Delimit Scope str_scope with str.
Bind Scope str_scope with string.
Declare Scope unit_scope.
Delimit Scope unit_scope with u.

(** String literals: each byte of the literal is one code unit. *)
Fixpoint of_bytes (l : list Byte.byte) : string :=
  match l with
  | [] => EmptyString
  | b :: rest => String (Byte.to_N b) (of_bytes rest)
  end.

Fixpoint to_bytes (s : string) : option (list Byte.byte) :=
  match s with
  | EmptyString => Some []
  | String c rest =>
      match Byte.of_N c, to_bytes rest with
      | Some b, Some l => Some (b :: l)
      | _, _ => None
      end
  end.

String Notation string of_bytes to_bytes : str_scope.

(** Code unit literals: a literal of one byte. *)
Definition unit_of_bytes (l : list Byte.byte) : option N :=
  match l with
  | [b] => Some (Byte.to_N b)
  | _ => None
  end.

Definition bytes_of_unit (c : N) : option (list Byte.byte) :=
  match Byte.of_N c with
  | Some b => Some [b]
  | None => None
  end.

String Notation N unit_of_bytes bytes_of_unit : unit_scope.

Arguments String c%_u s%_str.

Module Str.

Fixpoint units (s : string) : list N :=
  match s with
  | EmptyString => []
  | String c rest => c :: units rest
  end.

Fixpoint of_units (l : list N) : string :=
  match l with
  | [] => EmptyString
  | c :: rest => String c (of_units rest)
  end.

(** The string of the standard library read as code units. *)
Fixpoint of_latin1 (s : String.string) : string :=
  match s with
  | String.EmptyString => EmptyString
  | String.String c rest => String (N_of_ascii c) (of_latin1 rest)
  end.

Fixpoint eqb (a b : string) : bool :=
  match a, b with
  | EmptyString, EmptyString => true
  | String c a', String d b' => (c =? d)%N && eqb a' b'
  | _, _ => false
  end.

Fixpoint length (s : string) : nat :=
  match s with
  | EmptyString => O
  | String _ rest => S (length rest)
  end.

Fixpoint append (a b : string) : string :=
  match a with
  | EmptyString => b
  | String c a' => String c (append a' b)
  end.

(** The [n] units of [s] from position [start] on (fewer at the end). *)
Fixpoint substring (start n : nat) (s : string) : string :=
  match start, n, s with
  | O, O, _ => EmptyString
  | O, S n', String c rest => String c (substring O n' rest)
  | O, S _, EmptyString => EmptyString
  | S start', _, String _ rest => substring start' n rest
  | S _, _, EmptyString => EmptyString
  end.

Fixpoint prefix (p s : string) : bool :=
  match p, s with
  | EmptyString, _ => true
  | String c p', String d s' => (c =? d)%N && prefix p' s'
  | String _ _, EmptyString => false
  end.

Fixpoint concat (sep : string) (parts : list string) : string :=
  match parts with
  | [] => EmptyString
  | [part] => part
  | part :: rest => append part (append sep (concat sep rest))
  end.

End Str.

Infix "++" := Str.append : str_scope.

#[export] Instance string_eq_dec : EqDecision string.
Proof. solve_decision. Defined.

#[export] Instance string_countable : Countable string.
Proof.
  apply (inj_countable' Str.units Str.of_units).
  intros s. induction s as [|c s IH]; [reflexivity|]. cbn. now rewrite IH.
Defined.

Local Open Scope str_scope.
Local Open Scope Z_scope.

(** The double quote character (code 34). *)
Abbreviation dquote := 34%N.

(** ** The JavaScript operations the sources call

    A model of the ECMAScript and Web-platform built-ins the modelled
    functions use.  The case mappings of Unicode ([toLowerCase],
    [toUpperCase]) are tables of the platform: they are taken as a
    parameter ([Unicode.t], further down). *)

Module JS.

(** [a > b] on numbers (false as soon as one side is NaN). *)
Definition gt (a b : float) : bool := PrimFloat.ltb b a.

(** [a <= b] on numbers. *)
Definition le (a b : float) : bool := PrimFloat.leb a b.

Definition add (a b : float) : float := PrimFloat.add a b.

Definition in_range (lo hi : N) (c : N) : bool :=
  (lo <=? c)%N && (c <=? hi)%N.

Definition is_digit (c : N) : bool := in_range 48 57 c.
Definition is_upper (c : N) : bool := in_range 65 90 c.
Definition is_lower (c : N) : bool := in_range 97 122 c.
Definition is_alpha (c : N) : bool := is_upper c || is_lower c.

(** What [.] does not match: the line terminators LF, CR, U+2028 and
    U+2029. *)
Definition is_line_terminator (c : N) : bool :=
  (c =? 10)%N || (c =? 13)%N || (c =? 8232)%N || (c =? 8233)%N.

(** [\s] and the characters [trim] strips: the white space TAB, VT, FF,
    space, NBSP, U+FEFF and the space separators of Unicode (U+1680,
    U+2000 to U+200A, U+202F, U+205F, U+3000), and the line terminators. *)
Definition is_space (c : N) : bool :=
  (c =? 9)%N || (c =? 11)%N || (c =? 12)%N || (c =? 32)%N || (c =? 160)%N
  || (c =? 65279)%N || (c =? 5760)%N || in_range 8192 8202 c || (c =? 8239)%N
  || (c =? 8287)%N || (c =? 12288)%N || is_line_terminator c.

Fixpoint map_string (f : N -> N) (s : string) : string :=
  match s with
  | EmptyString => EmptyString
  | String c rest => String (f c) (map_string f rest)
  end.

(** Byte-lowercasing, as the Fetch API applies it to header names: the
    letters A to Z only. *)
Definition byte_lowercase : string -> string :=
  map_string (fun c => if is_upper c then (c + 32)%N else c).

Fixpoint trimStart (s : string) : string :=
  match s with
  | String c rest => if is_space c then trimStart rest else s
  | EmptyString => EmptyString
  end.

(** [trimEnd] keeps a character when it is no space or when something
    that is kept follows it. *)
Fixpoint trimEnd (s : string) : string :=
  match s with
  | EmptyString => EmptyString
  | String c rest =>
      match trimEnd rest with
      | EmptyString => if is_space c then EmptyString else String c EmptyString
      | kept => String c kept
      end
  end.

Definition trim (s : string) : string := trimEnd (trimStart s).

Fixpoint forallb_string (p : N -> bool) (s : string) : bool :=
  match s with
  | EmptyString => true
  | String c rest => p c && forallb_string p rest
  end.

(** [s.includes(":")] *)
Fixpoint includes_char (c : N) (s : string) : bool :=
  match s with
  | EmptyString => false
  | String d rest => (c =? d)%N || includes_char c rest
  end.
Arguments includes_char c%_u s%_str.

Definition is_empty (s : string) : bool :=
  match s with EmptyString => true | _ => false end.

(** *** Numbers and their decimal notation *)

Definition digits_of_N (n : N) : string :=
  Str.of_latin1 (DecimalString.NilZero.string_of_uint (N.to_uint n)).

Definition digits_of_Z (z : Z) : string :=
  match z with
  | Zneg p => "-" ++ digits_of_N (Npos p)
  | _ => digits_of_N (Z.to_N z)
  end.

Definition digit_count (z : Z) : Z := Z.of_nat (Str.length (digits_of_N (Z.to_N z))).

(** The number an exact decimal [mant * 10^e10] (with [0 <= mant]) denotes:
    the nearest binary64 value, ties to even.  Decimals beyond 10^310 or
    below 10^-330 are infinite or zero whatever their digits. *)
Definition round_decimal (neg : bool) (mant e10 : Z) : spec_float :=
  match mant with
  | Zpos m =>
      let magnitude := digit_count mant + e10 in
      if 310 <? magnitude then S754_infinity neg
      else if magnitude <? -330 then S754_zero neg
      else if 0 <=? e10 then
        binary_round prec emax neg (Z.to_pos (mant * 10 ^ e10)) 0
      else
        let '(q, e, l) := SFdiv_core_binary prec emax mant 0 (10 ^ (- e10)) 0 in
        binary_round_aux prec emax neg q e l
  | _ => S754_zero neg
  end.

Definition number_of_decimal (neg : bool) (mant e10 : Z) : float :=
  SF2Prim (round_decimal neg mant e10).

Definition number_of_Z (z : Z) : float :=
  number_of_decimal (z <? 0) (Z.abs z) 0.

Definition NaN : float := PrimFloat.nan.

(** [Number.isFinite(x)] for a number [x]. *)
Definition isFinite (x : float) : bool :=
  match Prim2SF x with
  | S754_nan | S754_infinity _ => false
  | _ => true
  end.

(** Truthiness of a number: neither zero nor NaN. *)
Definition truthy_number (x : float) : bool :=
  match Prim2SF x with
  | S754_nan | S754_zero _ => false
  | _ => true
  end.

(** [Math.floor(x)] of a finite number, as the integer it is. *)
Definition floor (x : float) : option Z :=
  match Prim2SF x with
  | S754_zero _ => Some 0
  | S754_finite s m e =>
      let v := if s then Zneg m else Zpos m in
      Some (if 0 <=? e then v * 2 ^ e else v / 2 ^ (- e))
  | _ => None
  end.

(** The positive value [m * 2^e] divided by [10^p], as a fraction. *)
Definition scaled (m e p : Z) : Z * Z :=
  (m * 2 ^ (Z.max e 0) * 10 ^ (Z.max (- p) 0),
   2 ^ (Z.max (- e) 0) * 10 ^ (Z.max p 0)).

(** The [n] with [10^(n-1) <= m * 2^e < 10^n]. *)
Definition decimal_exponent (m e : Z) : Z :=
  let '(num, den) := scaled m e 0 in
  if den <=? num then digit_count (num / den)
  else 1 - digit_count ((den - 1) / num).

(** Whether the [k]-digit decimal [s * 10^p] reads back as [m * 2^e]. *)
Definition reads_back (m : positive) (e s p : Z) : bool :=
  match round_decimal false s p with
  | S754_finite false m' e' => Pos.eqb m m' && (e =? e')
  | _ => false
  end.

(** The best decimal of [k] significant digits for [m * 2^e], if one
    reads back: its digits [s] and its exponent [n] (value [s * 10^(n-k)]). *)
Definition shortest_at (m : positive) (e n k : Z) : option (Z * Z) :=
  let p := n - k in
  let '(num, den) := scaled (Zpos m) e p in
  let lo := num / den in
  let r := num mod den in
  let hi := lo + 1 in
  let normal (s : Z) := if s =? 10 ^ k then (10 ^ (k - 1), n + 1) else (s, n) in
  let ok_lo := reads_back m e lo p in
  let ok_hi := reads_back m e hi p in
  let prefer_lo :=
    match 2 * r ?= den with
    | Lt => true
    | Gt => false
    | Eq => Z.even lo
    end in
  if r =? 0 then (if ok_lo then Some (lo, n) else None)
  else if ok_lo && (prefer_lo || negb ok_hi) then Some (lo, n)
  else if ok_hi then Some (normal hi)
  else None.

Fixpoint shortest_from (fuel : nat) (m : positive) (e n k : Z) : Z * Z * Z :=
  match fuel with
  | O => (fst (scaled (Zpos m) e (n - k)) / snd (scaled (Zpos m) e (n - k)), n, k)
  | S fuel' =>
      match shortest_at m e n k with
      | Some (s, n') => (s, n', k)
      | None => shortest_from fuel' m e n (k + 1)
      end
  end.

Fixpoint zeros (n : nat) : string :=
  match n with O => "" | S n' => String "0" (zeros n') end.

(** [Number::toString] of the positive finite value [m * 2^e]. *)
Definition positive_toString (m : positive) (e : Z) : string :=
  let '(s, n, k) := shortest_from 17 m e (decimal_exponent (Zpos m) e) 1 in
  let digits := digits_of_Z s in
  if (k <=? n) && (n <=? 21) then digits ++ zeros (Z.to_nat (n - k))
  else if (0 <? n) && (n <=? 21) then
    Str.substring 0 (Z.to_nat n) digits ++ "." ++ Str.substring (Z.to_nat n) (Z.to_nat (k - n)) digits
  else if (-6 <? n) && (n <=? 0) then "0." ++ zeros (Z.to_nat (- n)) ++ digits
  else
    let exponent := (if n - 1 <? 0 then "-" else "+") ++ digits_of_Z (Z.abs (n - 1)) in
    if k =? 1 then digits ++ "e" ++ exponent
    else Str.substring 0 1 digits ++ "." ++ Str.substring 1 (Z.to_nat (k - 1)) digits ++ "e" ++ exponent.

(** [String(x)] of a number [x]. *)
Definition Number_toString (x : float) : string :=
  match Prim2SF x with
  | S754_nan => "NaN"
  | S754_zero _ => "0"
  | S754_infinity s => if s then "-Infinity" else "Infinity"
  | S754_finite s m e => (if s then "-" else "") ++ positive_toString m e
  end.

End JS.

#[local] Set Warnings "-register-all,-inexact-float".

(** A value read from JSON text ([unknown] in the sources).  The members
    of an object are kept in the order of their first insertion (a
    JavaScript object puts the members named by array indices first; only
    objects built with fixed names are turned into text here). *)
Inductive json :=
| JNull
| JBool (b : bool)
| JNumber (n : float)
| JString (s : string)
| JArray (items : list json)
| JObject (members : list (string * json)).

(** *** Base64: [btoa] and [atob] *)

Module Base64.

Definition encode_sextet (n : N) : N :=
  if (n <? 26)%N then (65 + n)%N
  else if (n <? 52)%N then (97 + (n - 26))%N
  else if (n <? 62)%N then (48 + (n - 52))%N
  else if (n =? 62)%N then "+"%u
  else "/"%u.

Definition decode_sextet (c : N) : option N :=
  if JS.is_upper c then Some (c - 65)%N
  else if JS.is_lower c then Some (c - 97 + 26)%N
  else if JS.is_digit c then Some (c - 48 + 52)%N
  else if (c =? "+"%u)%N then Some 62%N
  else if (c =? "/"%u)%N then Some 63%N
  else None.

(** The base64 text of a string of bytes. *)
Fixpoint encode (s : string) : string :=
  match s with
  | EmptyString => EmptyString
  | String x EmptyString =>
      String (encode_sextet (x / 4)) (String (encode_sextet (x mod 4 * 16)) "==")
  | String x (String y EmptyString) =>
      String (encode_sextet (x / 4))
        (String (encode_sextet (x mod 4 * 16 + y / 16))
           (String (encode_sextet (y mod 16 * 4)) "="))
  | String x (String y (String z rest)) =>
      String (encode_sextet (x / 4))
        (String (encode_sextet (x mod 4 * 16 + y / 16))
           (String (encode_sextet (y mod 16 * 4 + z / 64))
              (String (encode_sextet (z mod 64)) (encode rest))))
  end%N.

(** [btoa(s)]; [None] when it throws an [InvalidCharacterError]: a code
    unit of [s] is above 255. *)
Definition btoa (s : string) : option string :=
  if JS.forallb_string (fun c => (c <=? 255)%N) s then Some (encode s) else None.

Definition is_ascii_whitespace (x : N) : bool :=
  ((x =? 9) || (x =? 10) || (x =? 12) || (x =? 13) || (x =? 32))%N.

Fixpoint remove_whitespace (s : string) : string :=
  match s with
  | EmptyString => EmptyString
  | String c rest =>
      if is_ascii_whitespace c then remove_whitespace rest
      else String c (remove_whitespace rest)
  end.

Fixpoint sextets (s : string) : option (list N) :=
  match s with
  | EmptyString => Some []
  | String c rest =>
      match decode_sextet c, sextets rest with
      | Some n, Some l => Some (n :: l)
      | _, _ => None
      end
  end.

Fixpoint decode_groups (l : list N) : string :=
  match l with
  | a :: b :: c :: d :: rest =>
      String (a * 4 + b / 16)
        (String (b mod 16 * 16 + c / 4)
           (String (c mod 4 * 64 + d) (decode_groups rest)))
  | [a; b; c] =>
      String (a * 4 + b / 16)
        (String (b mod 16 * 16 + c / 4) EmptyString)
  | [a; b] => String (a * 4 + b / 16) EmptyString
  | _ => EmptyString
  end%N.

(** Drops one or two trailing [=] of a string whose length is a multiple
    of four. *)
Definition strip_padding (s : string) : string :=
  let n := Str.length s in
  if (n mod 4 =? 0)%nat then
    if Str.eqb (Str.substring (n - 2) 2 s) "==" then Str.substring 0 (n - 2) s
    else if Str.eqb (Str.substring (n - 1) 1 s) "=" then Str.substring 0 (n - 1) s
    else s
  else s.

(** [atob(data)], the forgiving base64 decoding; [None] when it throws. *)
Definition atob (data : string) : option string :=
  let s := strip_padding (remove_whitespace data) in
  if (Str.length s mod 4 =? 1)%nat then None
  else
    match sextets s with
    | Some l => Some (decode_groups l)
    | None => None
    end.

End Base64.

(** *** JSON text *)

Module JSON.

Definition hex_digit (n : N) : N :=
  if (n <? 10)%N then (48 + n)%N else (97 + (n - 10))%N.

Definition hex_value (c : N) : option N :=
  if JS.is_digit c then Some (c - 48)%N
  else if JS.in_range 97 102 c then Some (c - 97 + 10)%N
  else if JS.in_range 65 70 c then Some (c - 65 + 10)%N
  else None.

(** The escape [\uXXXX] of a code unit. *)
Definition unicode_escape (x : N) : string :=
  "\u" ++ String (hex_digit (x / 4096 mod 16))
            (String (hex_digit (x / 256 mod 16))
               (String (hex_digit (x / 16 mod 16))
                  (String (hex_digit (x mod 16)) EmptyString))).

(** [QuoteJSONString]'s escapes of a code unit that is no surrogate. *)
Definition escape_char (x : N) : string :=
  if (x =? 34)%N then String "\" (String dquote EmptyString)
  else if (x =? 92)%N then "\\"
  else if (x =? 8)%N then "\b"
  else if (x =? 9)%N then "\t"
  else if (x =? 10)%N then "\n"
  else if (x =? 12)%N then "\f"
  else if (x =? 13)%N then "\r"
  else if (x <? 32)%N then unicode_escape x
  else String x EmptyString.

Definition is_leading_surrogate (x : N) : bool := JS.in_range 55296 56319 x.
Definition is_trailing_surrogate (x : N) : bool := JS.in_range 56320 57343 x.

(** A surrogate pair is copied; a surrogate outside a pair is escaped. *)
Fixpoint escape (s : string) : string :=
  match s with
  | EmptyString => EmptyString
  | String c rest =>
      if is_leading_surrogate c then
        match rest with
        | String d rest' =>
            if is_trailing_surrogate d then String c (String d (escape rest'))
            else unicode_escape c ++ escape rest
        | EmptyString => unicode_escape c
        end
      else if is_trailing_surrogate c then unicode_escape c ++ escape rest
      else escape_char c ++ escape rest
  end.

Definition quote (s : string) : string :=
  String dquote (escape s ++ String dquote EmptyString).

Definition join (sep : string) (parts : list string) : string :=
  match parts with
  | [] => ""
  | first :: rest => fold_left (fun acc part => acc ++ sep ++ part) rest first
  end.

(** [JSON.stringify(value)] without indentation. *)
Fixpoint stringify (value : json) : string :=
  match value with
  | JNull => "null"
  | JBool b => if b then "true" else "false"
  | JNumber n => if JS.isFinite n then JS.Number_toString n else "null"
  | JString s => quote s
  | JArray items => "[" ++ join "," (map stringify items) ++ "]"
  | JObject members =>
      "{" ++ join "," (map (fun member => quote (fst member) ++ ":" ++ stringify (snd member))
                         members) ++ "}"
  end.

(** [object[key]]: the member named [key], [None] for [undefined]. *)
Fixpoint lookup (key : string) (members : list (string * json)) : option json :=
  match members with
  | [] => None
  | (k, v) :: rest => if Str.eqb k key then Some v else lookup key rest
  end.

(** [object[key] = value]: replaces the member in place or appends it. *)
Fixpoint set (key : string) (value : json) (members : list (string * json))
    : list (string * json) :=
  match members with
  | [] => [(key, value)]
  | (k, v) :: rest =>
      if Str.eqb k key then (k, value) :: rest else (k, v) :: set key value rest
  end.

(** A member of a parsed value; arrays and primitives have none of the
    names the sources read. *)
Definition member (key : string) (value : json) : option json :=
  match value with
  | JObject members => lookup key members
  | _ => None
  end.

Fixpoint skip_ws (s : string) : string :=
  match s with
  | String c rest =>
      if ((c =? 32) || (c =? 9) || (c =? 10) || (c =? 13))%N then skip_ws rest else s
  | EmptyString => EmptyString
  end.

(** Leading decimal digits: their value, how many, and the rest. *)
Fixpoint digits (acc : Z) (count : Z) (s : string) : Z * Z * string :=
  match s with
  | String c rest =>
      if JS.is_digit c then digits (acc * 10 + Z.of_N (c - 48)) (count + 1) rest
      else (acc, count, s)
  | EmptyString => (acc, count, s)
  end.

(** [e] or [E], an optional sign and at least one digit. *)
Definition exponent_part (s : string) : option (Z * string) :=
  match s with
  | String c rest =>
      if (c =? "e"%u)%N || (c =? "E"%u)%N then
        let '(neg, rest') :=
          match rest with
          | String "-" r => (true, r)
          | String "+" r => (false, r)
          | _ => (false, rest)
          end in
        let '(v, n, r) := digits 0 0 rest' in
        if n =? 0 then None else Some (if neg : bool then - v else v, r)
      else None
  | EmptyString => None
  end.

(** A JSON number: [-? int frac? exp?].  An [e] that no exponent follows
    is left in the rest, where no JSON text can continue with it. *)
Definition parse_number (s : string) : option (float * string) :=
  let '(neg, s1) := match s with String "-" r => (true, r) | _ => (false, s) end in
  let '(int, n, s2) := digits 0 0 s1 in
  let leading_zero := match s1 with String "0" _ => true | _ => false end in
  if (n =? 0) || (leading_zero && negb (n =? 1)) then None
  else
    let frac :=
      match s2 with
      | String "." r =>
          let '(mant, k, r') := digits int 0 r in
          if k =? 0 then None else Some (mant, k, r')
      | _ => Some (int, 0, s2)
      end in
    match frac with
    | None => None
    | Some (mant, k, s3) =>
        let '(e, s4) :=
          match exponent_part s3 with
          | Some (e, r) => (e, r)
          | None => (0, s3)
          end in
        Some (JS.number_of_decimal neg mant (e - k), s4)
    end.

(** The body of a string after its opening quote.  An escape [\uXXXX]
    is the code unit of its four hexadecimal digits. *)
Fixpoint parse_string (s : string) : option (string * string) :=
  match s with
  | EmptyString => None
  | String c rest =>
      if (c =? dquote)%N then Some (EmptyString, rest)
      else if (c <? 32)%N then None
      else if (c =? "\"%u)%N then
        match rest with
        | String e rest' =>
            let simple (d : N) :=
              match parse_string rest' with
              | Some (body, r) => Some (String d body, r)
              | None => None
              end in
            if (e =? dquote)%N then simple dquote
            else if (e =? "\"%u)%N then simple "\"%u
            else if (e =? "/"%u)%N then simple "/"%u
            else if (e =? "b"%u)%N then simple 8%N
            else if (e =? "f"%u)%N then simple 12%N
            else if (e =? "n"%u)%N then simple 10%N
            else if (e =? "r"%u)%N then simple 13%N
            else if (e =? "t"%u)%N then simple 9%N
            else if (e =? "u"%u)%N then
              match rest' with
              | String h1 (String h2 (String h3 (String h4 rest''))) =>
                  match hex_value h1, hex_value h2, hex_value h3, hex_value h4 with
                  | Some a, Some b, Some c', Some d =>
                      match parse_string rest'' with
                      | Some (body, r) =>
                          Some (String (a * 4096 + b * 256 + c' * 16 + d)%N body, r)
                      | None => None
                      end
                  | _, _, _, _ => None
                  end
              | _ => None
              end
            else None
        | EmptyString => None
        end
      else
        match parse_string rest with
        | Some (body, r) => Some (String c body, r)
        | None => None
        end
  end.

Definition strip_prefix (prefix s : string) : option string :=
  if Str.prefix prefix s
  then Some (Str.substring (Str.length prefix) (Str.length s - Str.length prefix) s)
  else None.

(** One value, then (for [parse_items] and [parse_members]) the rest of an
    array or object whose earlier entries are in [acc]. *)
Fixpoint parse_value (fuel : nat) (s : string) {struct fuel} : option (json * string) :=
  match fuel with
  | O => None
  | S fuel' =>
      match skip_ws s with
      | String "{" rest =>
          match skip_ws rest with
          | String "}" r => Some (JObject [], r)
          | r => parse_members fuel' [] r
          end
      | String "[" rest =>
          match skip_ws rest with
          | String "]" r => Some (JArray [], r)
          | r => parse_items fuel' [] r
          end
      | String dquote rest =>
          match parse_string rest with
          | Some (body, r) => Some (JString body, r)
          | None => None
          end
      | s' =>
          match strip_prefix "true" s', strip_prefix "false" s', strip_prefix "null" s' with
          | Some r, _, _ => Some (JBool true, r)
          | _, Some r, _ => Some (JBool false, r)
          | _, _, Some r => Some (JNull, r)
          | _, _, _ =>
              match parse_number s' with
              | Some (n, r) => Some (JNumber n, r)
              | None => None
              end
          end
      end
  end
with parse_items (fuel : nat) (acc : list json) (s : string) {struct fuel}
    : option (json * string) :=
  match fuel with
  | O => None
  | S fuel' =>
      match parse_value fuel' s with
      | Some (v, r) =>
          match skip_ws r with
          | String "," r' => parse_items fuel' (acc ++ [v]) r'
          | String "]" r' => Some (JArray (acc ++ [v]), r')
          | _ => None
          end
      | None => None
      end
  end
with parse_members (fuel : nat) (acc : list (string * json)) (s : string) {struct fuel}
    : option (json * string) :=
  match fuel with
  | O => None
  | S fuel' =>
      match skip_ws s with
      | String dquote rest =>
          match parse_string rest with
          | Some (key, r) =>
              match skip_ws r with
              | String ":" r' =>
                  match parse_value fuel' r' with
                  | Some (v, r'') =>
                      match skip_ws r'' with
                      | String "," r3 => parse_members fuel' (set key v acc) r3
                      | String "}" r3 => Some (JObject (set key v acc), r3)
                      | _ => None
                      end
                  | None => None
                  end
              | _ => None
              end
          | None => None
          end
      | _ => None
      end
  end.

(** [JSON.parse(text)]; [None] when it throws a [SyntaxError].  Every
    nested call follows at least one consumed character every second step,
    so twice the length of the text is fuel enough. *)
Definition parse (text : string) : option json :=
  match parse_value (2 * Str.length text + 2) text with
  | Some (v, r) => if JS.is_empty (skip_ws r) then Some v else None
  | None => None
  end.

End JSON.

(** *** Conversions of values *)

Module Convert.

(** Leading digits of a radix (2, 8 or 16): their value and the rest. *)
Fixpoint radix_digits (radix : N) (acc : Z) (s : string) : Z * string :=
  match s with
  | String c rest =>
      match JSON.hex_value c with
      | Some d =>
          if (d <? radix)%N then radix_digits radix (acc * Z.of_N radix + Z.of_N d) rest
          else (acc, s)
      | None => (acc, s)
      end
  | EmptyString => (acc, s)
  end.

Definition radix_literal (radix : N) (body : string) : float :=
  match body with
  | EmptyString => JS.NaN
  | _ =>
      match radix_digits radix 0 body with
      | (v, EmptyString) => JS.number_of_Z v
      | _ => JS.NaN
      end
  end.

(** [StrDecimalLiteral] after its sign: [Infinity], or digits with an
    optional fraction and exponent, at least one digit before the exponent. *)
Definition decimal_literal (neg : bool) (u : string) : float :=
  if Str.eqb u "Infinity" then (if neg then PrimFloat.neg_infinity else PrimFloat.infinity)
  else
    let '(int, n, r1) := JSON.digits 0 0 u in
    let '(mant, k, r2) :=
      match r1 with
      | String "." r => JSON.digits int 0 r
      | _ => (int, 0, r1)
      end in
    if n + k =? 0 then JS.NaN
    else
      match r2 with
      | EmptyString => JS.number_of_decimal neg mant (- k)
      | _ =>
          match JSON.exponent_part r2 with
          | Some (e, EmptyString) => JS.number_of_decimal neg mant (e - k)
          | _ => JS.NaN
          end
      end.

(** [Number(s)] of a string. *)
Definition StringToNumber (s : string) : float :=
  match JS.trim s with
  | EmptyString => 0%float
  | String "0" (String "x" body) | String "0" (String "X" body) => radix_literal 16 body
  | String "0" (String "o" body) | String "0" (String "O" body) => radix_literal 8 body
  | String "0" (String "b" body) | String "0" (String "B" body) => radix_literal 2 body
  | String "-" u => decimal_literal true u
  | String "+" u => decimal_literal false u
  | u => decimal_literal false u
  end.

(** [String(value)]; [None] when it throws a [TypeError].  An object
    read from JSON text converts through the [toString] it inherits,
    unless it has a member of that name: a member is no function, and the
    inherited [valueOf] returns the object itself, so that no primitive
    value is found.  An array converts by [join], which converts its
    elements in turn. *)
Fixpoint toString (value : json) : option string :=
  match value with
  | JNull => Some "null"
  | JBool b => Some (if b then "true" else "false")
  | JNumber n => Some (JS.Number_toString n)
  | JString s => Some s
  | JArray items =>
      let elements :=
        (fix elements (items : list json) : option (list string) :=
           match items with
           | [] => Some []
           | item :: rest =>
               match match item with JNull => Some "" | _ => toString item end with
               | Some s =>
                   match elements rest with
                   | Some l => Some (s :: l)
                   | None => None
                   end
               | None => None
               end
           end) items in
      match elements with
      | Some parts => Some (JSON.join "," parts)
      | None => None
      end
  | JObject members =>
      match JSON.lookup "toString" members with
      | Some _ => None
      | None => Some "[object Object]"
      end
  end.

(** [Number(value)]; [None] when it throws a [TypeError].  Objects and
    arrays convert through the same string as [String(value)] (a member
    named [valueOf] is no function either). *)
Definition toNumber (value : json) : option float :=
  match value with
  | JNull => Some 0%float
  | JBool b => Some (if b then 1%float else 0%float)
  | JNumber n => Some n
  | JString s => Some (StringToNumber s)
  | JArray _ | JObject _ =>
      match toString value with
      | Some s => Some (StringToNumber s)
      | None => None
      end
  end.

(** Truthiness of a value ([None] is [undefined]). *)
Definition truthy (value : option json) : bool :=
  match value with
  | None | Some JNull => false
  | Some (JBool b) => b
  | Some (JNumber n) => JS.truthy_number n
  | Some (JString s) => negb (JS.is_empty s)
  | Some (JArray _) | Some (JObject _) => true
  end.

End Convert.

(** *** Case mappings

    [toLowerCase] and [toUpperCase] follow the case tables of Unicode
    (with its special casings: one unit can become several, and the lower
    case of a capital sigma depends on what surrounds it).  The tables
    belong to the platform, not to the sources: the functions are a
    parameter of the model. *)
Module Unicode.
Record t := mk {
  toLowerCase : string -> string;
  toUpperCase : string -> string
}.
End Unicode.

(** ** Data model ([src/shared/types.ts]) *)

Inductive ChainId := polygonAmoy | polygon.

Inductive ExtensionStatus := idle | paying | verified.

Module ExtensionSettings.
Record t := mk {
  thresholdUsd : float;
  dailyAutoCapUsd : float;
  preferredToken : string;
  chain : ChainId;
  promptRequired : bool
}.
End ExtensionSettings.

Inductive PolicyMode := ask | deny.

Module SitePolicy.
Record t := mk {
  origin : string;
  allowUnderThreshold : bool;
  mode : PolicyMode;
  capUsd : option float;      (* number | null *)
  lifetimeUsd : float;
  dailyUsd : float;
  lastResetISO : string
}.
End SitePolicy.

Inductive PaymentStatus := pending | success | denied | error.

Module PaymentRecord.
Record t := mk {
  id : string;
  origin : string;
  endpoint : string;
  amountUsd : float;
  tokenSymbol : string;
  timestamp : Z;
  status : PaymentStatus;
  autoApproved : bool;
  txHash : option string;
  note : option string
}.
End PaymentRecord.

Module WalletData.
Record t := mk {
  address : string;
  encryptedPrivateKey : option string;
  encryptionSalt : option string;
  encryptionIv : option string;
  encryptionTag : option string;
  privateKey : option string;
  lockDurationMinutes : option float;
  lockedUntil : option Z;
  label : option string
}.
End WalletData.

Module BalanceCache.
Record t := mk {
  tokenBalance : string;
  rawBalance : string;
  usd : float;
  usdRate : float;
  lastFetched : Z;
  tokenSymbol : string;
  decimals : option float;
  tokenAddress : option string
}.
End BalanceCache.

Module JwtCacheEntry.
Record t := mk {
  paymentId : string;
  jwt : string;
  expiresAt : Z
}.
End JwtCacheEntry.

(** [tokenAddress] is typed as a string in the sources but is filled by
    an unchecked cast of a JSON member in [fromJsonChallenge]: it is kept
    as the JSON value it is at run time. *)
Module ChallengeDetails.
Record t := mk {
  amountUsd : float;
  tokenSymbol : string;
  challengeId : string;
  endpoint : string;
  origin : string;
  rawHeaders : gmap string string;
  method : string;
  chainId : float;
  network : option string;
  tokenAddress : json;
  seller : string;
  amountAtomic : string;
  tokenName : option string;
  tokenVersion : option string;
  tokenDecimals : option float;
  x402Version : option float;
  rawChallenge : option json
}.
End ChallengeDetails.

Module PendingChallenge.
Record t := mk {
  challenge : ChallengeDetails.t;
  tabId : option Z;
  createdAt : Z;
  windowId : option Z
}.
End PendingChallenge.

Module ExtensionState.
Record t := mk {
  settings : ExtensionSettings.t;
  wallet : option WalletData.t;
  balance : BalanceCache.t;
  balances : ChainId -> BalanceCache.t;
  policies : gmap string SitePolicy.t;
  history : list PaymentRecord.t;
  jwtCache : gmap string JwtCacheEntry.t;
  pendingChallenges : gmap string PendingChallenge.t;
  extensionStatus : ExtensionStatus
}.
End ExtensionState.

Inductive ChallengeResolutionAction := retry | deny_action | error_action | pending_action.

Module ChallengeResolution.
Record t := mk {
  action : ChallengeResolutionAction;
  message : option string;
  retryHeaders : option (list (string * string));
  challengeId : option string
}.
End ChallengeResolution.

(** ** Policy engine ([src/background.ts]) *)

Definition PaymentStatus_eqb (a b : PaymentStatus) : bool :=
  match a, b with
  | pending, pending | success, success | denied, denied | error, error => true
  | _, _ => false
  end.

(** [spentInLast24h(state)], with the value of [Date.now()] made explicit. *)
Definition spentInLast24h (state : ExtensionState.t) (now : Z) : float :=
  let cutoff := now - 24 * 60 * 60 * 1000 in
  fold_left
    (fun sum record => JS.add sum (PaymentRecord.amountUsd record))
    (List.filter
       (fun record =>
          PaymentStatus_eqb (PaymentRecord.status record) success
          && PaymentRecord.autoApproved record
          && (cutoff <=? PaymentRecord.timestamp record))
       (ExtensionState.history state))
    0%float.

(** [shouldAutoApprove(state, challenge)]: each early [return false] of the
    source is one branch. *)
Definition shouldAutoApprove (state : ExtensionState.t) (challenge : ChallengeDetails.t)
    (now : Z) : bool :=
  let policy := ExtensionState.policies state !! ChallengeDetails.origin challenge in
  if match policy with Some p => match SitePolicy.mode p with deny => true | ask => false end
                     | None => false end
  then false
  else
    let threshold := ExtensionSettings.thresholdUsd (ExtensionState.settings state) in
    if JS.gt (ChallengeDetails.amountUsd challenge) threshold then false
    else if ExtensionSettings.promptRequired (ExtensionState.settings state) then false
    else if match policy with
            | Some p => negb (SitePolicy.allowUnderThreshold p)
            | None => false
            end
    then false
    else if match policy with
            | Some p =>
                match SitePolicy.capUsd p with
                | Some cap =>
                    JS.gt cap 0%float
                    && JS.gt (JS.add (SitePolicy.lifetimeUsd p) (ChallengeDetails.amountUsd challenge)) cap
                | None => false
                end
            | None => false
            end
    then false
    else
      let cap := ExtensionSettings.dailyAutoCapUsd (ExtensionState.settings state) in
      if JS.gt cap 0%float
         && JS.gt (JS.add (spentInLast24h state now) (ChallengeDetails.amountUsd challenge)) cap
      then false
      else true.

(** ** The decision rule as the design document words it (section 4.3)

    [decide(settings, policy?, spendHistory, challenge)], one definition per
    numbered rule, tried in the order of the document. *)

Module PolicySpec.

Inductive decision := approve | defer.

Definition approves (d : decision) : bool :=
  match d with approve => true | defer => false end.

(** Rule 1: the matched site policy's mode is "deny". *)
Definition site_denies (policy : option SitePolicy.t) : bool :=
  match policy with
  | Some p => match SitePolicy.mode p with deny => true | ask => false end
  | None => false
  end.

(** Rule 2: [challenge.amountUsd > settings.thresholdUsd]. *)
Definition over_threshold (settings : ExtensionSettings.t) (challenge : ChallengeDetails.t) : bool :=
  JS.gt (ChallengeDetails.amountUsd challenge) (ExtensionSettings.thresholdUsd settings).

(** Rule 3: [settings.promptRequired] is set. *)
Definition prompt_required (settings : ExtensionSettings.t) : bool :=
  ExtensionSettings.promptRequired settings.

(** Rule 4: a site policy exists and its [allowUnderThreshold] is false. *)
Definition under_threshold_disallowed (policy : option SitePolicy.t) : bool :=
  match policy with
  | Some p => negb (SitePolicy.allowUnderThreshold p)
  | None => false
  end.

(** Rule 5: the policy's [capUsd] is non-null and positive and
    [lifetimeUsd + amountUsd] would exceed it. *)
Definition lifetime_cap_exceeded (policy : option SitePolicy.t) (challenge : ChallengeDetails.t) : bool :=
  match policy with
  | Some p =>
      match SitePolicy.capUsd p with
      | Some cap =>
          JS.gt cap 0%float
          && JS.gt (JS.add (SitePolicy.lifetimeUsd p) (ChallengeDetails.amountUsd challenge)) cap
      | None => false
      end
  | None => false
  end.

(** A record counts towards the daily cap when its status is "success",
    it was auto-approved, and its timestamp lies in the trailing 24 hours. *)
Definition counts_towards_daily_cap (now : Z) (record : PaymentRecord.t) : bool :=
  match PaymentRecord.status record with
  | success =>
      PaymentRecord.autoApproved record && (now - 86400000 <=? PaymentRecord.timestamp record)
  | _ => false
  end.

(** The sum of [amountUsd] over the records that count, accumulated from 0
    in history order. *)
Fixpoint sum_counted (now : Z) (acc : float) (spendHistory : list PaymentRecord.t) : float :=
  match spendHistory with
  | [] => acc
  | record :: rest =>
      sum_counted now
        (if counts_towards_daily_cap now record
         then JS.add acc (PaymentRecord.amountUsd record) else acc)
        rest
  end.

(** Rule 6: [settings.dailyAutoCapUsd > 0] and that sum plus this
    challenge's amount would exceed it. *)
Definition daily_cap_exceeded (settings : ExtensionSettings.t)
    (spendHistory : list PaymentRecord.t) (now : Z) (challenge : ChallengeDetails.t) : bool :=
  JS.gt (ExtensionSettings.dailyAutoCapUsd settings) 0%float
  && JS.gt (JS.add (sum_counted now 0%float spendHistory) (ChallengeDetails.amountUsd challenge))
           (ExtensionSettings.dailyAutoCapUsd settings).

Definition decide (settings : ExtensionSettings.t) (policy : option SitePolicy.t)
    (spendHistory : list PaymentRecord.t) (now : Z) (challenge : ChallengeDetails.t) : decision :=
  if site_denies policy then defer
  else if over_threshold settings challenge then defer
  else if prompt_required settings then defer
  else if under_threshold_disallowed policy then defer
  else if lifetime_cap_exceeded policy challenge then defer
  else if daily_cap_exceeded settings spendHistory now challenge then defer
  else approve.

End PolicySpec.

(** ** Initial state ([src/shared/storage.ts]) *)

Definition defaultSettings : ExtensionSettings.t :=
  ExtensionSettings.mk 0.05%float 1%float "USDC" polygonAmoy false.

Definition defaultBalanceTemplate : BalanceCache.t :=
  BalanceCache.mk "0" "0" 0%float 1%float 0 "USDC" (Some 6%float) None.

Definition INITIAL_STATE : ExtensionState.t :=
  ExtensionState.mk defaultSettings None defaultBalanceTemplate
    (fun _ => defaultBalanceTemplate) ∅ [] ∅ ∅ idle.

(** ** The world of the service worker

    [stored] is the document under the key "state" of
    [chrome.storage.local] (absent until first written);
    [runtimePrivateKey] and [runtimeLockedUntil] are the two module-level
    variables of [storage.ts]; [clock] is what [Date.now()] returns;
    [written] logs every document handed to [chrome.storage.local.set],
    latest first (a ghost member: no function reads it); [entropy] is the
    supply of random bytes; [promptWindow] is what the next
    [chrome.windows.create] does: it throws ([None]) or resolves to a
    window with or without an id.
    Storage reads return a fresh copy each time, so no object is shared
    between the store and a caller.  The storage API itself is taken not to
    fail, and the clock does not advance inside one handler. *)

Module World.
Record t := mk {
  stored : option ExtensionState.t;
  runtimePrivateKey : option string;
  runtimeLockedUntil : Z;
  clock : Z;
  written : list ExtensionState.t;
  entropy : nat -> Byte.byte;
  promptWindow : option (option Z)
}.
End World.

Inductive Err :=
| WalletLockedError
| OtherError (msg : string).

Inductive Outcome (A : Type) :=
| Returned (a : A)
| Thrown (e : Err).
Arguments Returned {A} a.
Arguments Thrown {A} e.

(** An asynchronous function: it reads and updates the world and either
    returns or throws. *)
Definition M (A : Type) : Type := World.t -> Outcome A * World.t.

Definition ret {A} (a : A) : M A := fun w => (Returned a, w).

Definition throw {A} (e : Err) : M A := fun w => (Thrown e, w).

Definition bind {A B} (c : M A) (k : A -> M B) : M B :=
  fun w =>
    match c w with
    | (Returned a, w') => k a w'
    | (Thrown e, w') => (Thrown e, w')
    end.

(** [try { c } catch (error) { handler(error) }] *)
Definition try_catch {A} (c : M A) (handler : Err -> M A) : M A :=
  fun w =>
    match c w with
    | (Returned a, w') => (Returned a, w')
    | (Thrown e, w') => handler e w'
    end.

#[export] Instance M_ret : MRet M := @ret.
#[export] Instance M_bind : MBind M := fun A B k c => bind c k.

Definition Date_now : M Z := fun w => (Returned (World.clock w), w).

Definition storage_get : M (option ExtensionState.t) :=
  fun w => (Returned (World.stored w), w).

(** The world after [chrome.storage.local.set({ state })]. *)
Definition with_stored (w : World.t) (state : ExtensionState.t) : World.t :=
  World.mk (Some state) (World.runtimePrivateKey w) (World.runtimeLockedUntil w)
    (World.clock w) (state :: World.written w) (World.entropy w) (World.promptWindow w).

(** The world after an assignment to the two module-level variables. *)
Definition with_runtime (w : World.t) (privateKey : option string) (lockedUntil : Z)
    : World.t :=
  World.mk (World.stored w) privateKey lockedUntil (World.clock w) (World.written w)
    (World.entropy w) (World.promptWindow w).

Definition storage_set (state : ExtensionState.t) : M unit :=
  fun w => (Returned tt, with_stored w state).

Definition read_runtime : M (option string * Z) :=
  fun w => (Returned (World.runtimePrivateKey w, World.runtimeLockedUntil w), w).

Definition write_runtime (privateKey : option string) (lockedUntil : Z) : M unit :=
  fun w => (Returned tt, with_runtime w privateKey lockedUntil).

(** Truthiness of an optional string: present and not empty. *)
Definition truthy_string (s : option string) : bool :=
  match s with
  | Some EmptyString | None => false
  | Some _ => true
  end.

(** Truthiness of an optional epoch time: present and not 0. *)
Definition truthy_time (t : option Z) : bool :=
  match t with
  | Some 0 | None => false
  | Some _ => true
  end.

(** ** State store ([src/shared/storage.ts]) *)

(** [cloneBalance(overrides)]: the template's members, overridden by the
    members that [overrides] has.  Of a full [BalanceCache] only the two
    optional members can be missing. *)
Definition cloneBalance (overrides : BalanceCache.t) : BalanceCache.t :=
  BalanceCache.mk
    (BalanceCache.tokenBalance overrides) (BalanceCache.rawBalance overrides)
    (BalanceCache.usd overrides) (BalanceCache.usdRate overrides)
    (BalanceCache.lastFetched overrides) (BalanceCache.tokenSymbol overrides)
    (match BalanceCache.decimals overrides with
     | Some d => Some d
     | None => BalanceCache.decimals defaultBalanceTemplate
     end)
    (match BalanceCache.tokenAddress overrides with
     | Some a => Some a
     | None => BalanceCache.tokenAddress defaultBalanceTemplate
     end).

(** [{ ...current, ...update }] on two balances. *)
Definition spreadBalance (current update : BalanceCache.t) : BalanceCache.t :=
  BalanceCache.mk
    (BalanceCache.tokenBalance update) (BalanceCache.rawBalance update)
    (BalanceCache.usd update) (BalanceCache.usdRate update)
    (BalanceCache.lastFetched update) (BalanceCache.tokenSymbol update)
    (match BalanceCache.decimals update with
     | Some d => Some d
     | None => BalanceCache.decimals current
     end)
    (match BalanceCache.tokenAddress update with
     | Some a => Some a
     | None => BalanceCache.tokenAddress current
     end).

(** [const { privateKey, ...rest } = wallet], then [{ ...rest, lockedUntil }]. *)
Definition without_privateKey (wallet : WalletData.t) (lockedUntil : option Z) : WalletData.t :=
  WalletData.mk
    (WalletData.address wallet) (WalletData.encryptedPrivateKey wallet)
    (WalletData.encryptionSalt wallet) (WalletData.encryptionIv wallet)
    (WalletData.encryptionTag wallet) None
    (WalletData.lockDurationMinutes wallet) lockedUntil (WalletData.label wallet).

(** [{ ...wallet, privateKey, lockedUntil }] *)
Definition with_privateKey (wallet : WalletData.t) (privateKey : option string)
    (lockedUntil : option Z) : WalletData.t :=
  WalletData.mk
    (WalletData.address wallet) (WalletData.encryptedPrivateKey wallet)
    (WalletData.encryptionSalt wallet) (WalletData.encryptionIv wallet)
    (WalletData.encryptionTag wallet) privateKey
    (WalletData.lockDurationMinutes wallet) lockedUntil (WalletData.label wallet).

Definition captureRuntimeWallet (wallet : option WalletData.t) : M unit :=
  write_runtime
    (match wallet with Some w => WalletData.privateKey w | None => None end)
    (match wallet with
     | Some w => match WalletData.lockedUntil w with Some t => t | None => 0 end
     | None => 0
     end).

Definition sanitizeWalletForPersist (wallet : option WalletData.t) : option WalletData.t :=
  match wallet with
  | None => None
  | Some w => Some (without_privateKey w (WalletData.lockedUntil w))
  end.

Definition set_wallet (state : ExtensionState.t) (wallet : option WalletData.t) : ExtensionState.t :=
  ExtensionState.mk
    (ExtensionState.settings state) wallet (ExtensionState.balance state)
    (ExtensionState.balances state) (ExtensionState.policies state)
    (ExtensionState.history state) (ExtensionState.jwtCache state)
    (ExtensionState.pendingChallenges state) (ExtensionState.extensionStatus state).

Definition applyRuntimeWallet (state : ExtensionState.t) (includePrivateKey : bool)
    : M ExtensionState.t :=
  match ExtensionState.wallet state with
  | None => ret state
  | Some wallet =>
      now ← Date_now;
      rt ← read_runtime;
      let '(runtimePrivateKey, runtimeLockedUntil) := rt in
      let unlocked := truthy_string runtimePrivateKey && (now <? runtimeLockedUntil) in
      if negb unlocked then
        write_runtime None 0;;
        ret (set_wallet state (Some (without_privateKey wallet (Some 0))))
      else if includePrivateKey then
        ret (set_wallet state
               (Some (with_privateKey wallet runtimePrivateKey (Some runtimeLockedUntil))))
      else
        ret (set_wallet state (Some (without_privateKey wallet (Some runtimeLockedUntil))))
  end.

(** The merge of a stored document with [INITIAL_STATE] and
    [defaultSettings] in [getState].  The stored document is a full
    [ExtensionState], so only the balance templates show. *)
Definition mergeStored (state : ExtensionState.t) : ExtensionState.t :=
  ExtensionState.mk
    (ExtensionState.settings state) (ExtensionState.wallet state)
    (cloneBalance (ExtensionState.balance state))
    (fun chain =>
       match chain with
       | polygonAmoy => cloneBalance (ExtensionState.balances state polygonAmoy)
       | polygon => cloneBalance (ExtensionState.balances state polygon)
       end)
    (ExtensionState.policies state) (ExtensionState.history state)
    (ExtensionState.jwtCache state) (ExtensionState.pendingChallenges state)
    (ExtensionState.extensionStatus state).

(** [getState(options)] *)
Definition getState (includePrivateKey : bool) : M ExtensionState.t :=
  stored ← storage_get;
  match stored with
  | Some state =>
      let merged := mergeStored state in
      match ExtensionState.wallet merged with
      | Some wallet =>
          if truthy_string (WalletData.privateKey wallet) then
            let persisted := without_privateKey wallet (Some 0) in
            let merged' := set_wallet merged (Some persisted) in
            write_runtime None 0;;
            storage_set merged';;
            applyRuntimeWallet merged' includePrivateKey
          else applyRuntimeWallet merged includePrivateKey
      | None => applyRuntimeWallet merged includePrivateKey
      end
  | None =>
      storage_set INITIAL_STATE;;
      ret INITIAL_STATE
  end.

(** [Partial<ExtensionState>]: each member present or not.  [wallet] can be
    an own property whose value is [undefined] ([Some None]). *)
Module StateUpdate.
Record t := mk {
  settings : option ExtensionSettings.t;
  wallet : option (option WalletData.t);
  balance : option BalanceCache.t;
  balances : option (ChainId -> BalanceCache.t);
  policies : option (gmap string SitePolicy.t);
  history : option (list PaymentRecord.t);
  jwtCache : option (gmap string JwtCacheEntry.t);
  pendingChallenges : option (gmap string PendingChallenge.t);
  extensionStatus : option ExtensionStatus
}.
Definition none : t := mk None None None None None None None None None.
End StateUpdate.

Definition or_else {A} (update : option A) (current : A) : A :=
  match update with Some a => a | None => current end.

(** The [next] state of [setState]: [current] overridden by the members
    that [update] has. *)
Definition apply_update (update : StateUpdate.t) (current : ExtensionState.t)
    : ExtensionState.t :=
  ExtensionState.mk
    (or_else (StateUpdate.settings update) (ExtensionState.settings current))
    (or_else (StateUpdate.wallet update) (ExtensionState.wallet current))
    (match StateUpdate.balance update with
     | Some b => spreadBalance (ExtensionState.balance current) b
     | None => ExtensionState.balance current
     end)
    (or_else (StateUpdate.balances update) (ExtensionState.balances current))
    (or_else (StateUpdate.policies update) (ExtensionState.policies current))
    (or_else (StateUpdate.history update) (ExtensionState.history current))
    (or_else (StateUpdate.jwtCache update) (ExtensionState.jwtCache current))
    (or_else (StateUpdate.pendingChallenges update) (ExtensionState.pendingChallenges current))
    (or_else (StateUpdate.extensionStatus update) (ExtensionState.extensionStatus current)).

Definition setState (update : StateUpdate.t) : M ExtensionState.t :=
  current ← getState false;
  let didUpdateWallet :=
    match StateUpdate.wallet update with Some _ => true | None => false end in
  let next := apply_update update current in
  (if didUpdateWallet then captureRuntimeWallet (ExtensionState.wallet next) else ret tt);;
  let persisted := set_wallet next (sanitizeWalletForPersist (ExtensionState.wallet next)) in
  storage_set persisted;;
  ret next.

(** [Partial<ExtensionSettings>] *)
Module SettingsPatch.
Record t := mk {
  thresholdUsd : option float;
  dailyAutoCapUsd : option float;
  preferredToken : option string;
  chain : option ChainId;
  promptRequired : option bool
}.
Definition only_chain (chain : ChainId) : t := mk None None None (Some chain) None.
End SettingsPatch.

(** [{ ...settings, ...patch }] *)
Definition spreadSettings (settings : ExtensionSettings.t) (patch : SettingsPatch.t)
    : ExtensionSettings.t :=
  ExtensionSettings.mk
    (or_else (SettingsPatch.thresholdUsd patch) (ExtensionSettings.thresholdUsd settings))
    (or_else (SettingsPatch.dailyAutoCapUsd patch) (ExtensionSettings.dailyAutoCapUsd settings))
    (or_else (SettingsPatch.preferredToken patch) (ExtensionSettings.preferredToken settings))
    (or_else (SettingsPatch.chain patch) (ExtensionSettings.chain settings))
    (or_else (SettingsPatch.promptRequired patch) (ExtensionSettings.promptRequired settings)).

Definition update_settings (settings : ExtensionSettings.t) : StateUpdate.t :=
  StateUpdate.mk (Some settings) None None None None None None None None.

Definition update_wallet (wallet : option WalletData.t) : StateUpdate.t :=
  StateUpdate.mk None (Some wallet) None None None None None None None.

Definition update_policies (policies : gmap string SitePolicy.t) : StateUpdate.t :=
  StateUpdate.mk None None None None (Some policies) None None None None.

Definition update_history (history : list PaymentRecord.t) : StateUpdate.t :=
  StateUpdate.mk None None None None None (Some history) None None None.

Definition update_jwtCache (jwtCache : gmap string JwtCacheEntry.t) : StateUpdate.t :=
  StateUpdate.mk None None None None None None (Some jwtCache) None None.

Definition update_pendingChallenges (pending : gmap string PendingChallenge.t) : StateUpdate.t :=
  StateUpdate.mk None None None None None None None (Some pending) None.

Definition update_extensionStatus (status : ExtensionStatus) : StateUpdate.t :=
  StateUpdate.mk None None None None None None None None (Some status).

Definition updateSettings (settings : SettingsPatch.t) : M ExtensionState.t :=
  state ← getState false;
  setState (update_settings (spreadSettings (ExtensionState.settings state) settings)).

Definition updateWallet (wallet : option WalletData.t) : M ExtensionState.t :=
  setState (update_wallet wallet).

(** [[record, ...state.history].slice(0, 2000)] *)
Definition addHistory (record : PaymentRecord.t) : M ExtensionState.t :=
  state ← getState false;
  setState (update_history (firstn 2000 (record :: ExtensionState.history state))).

(** The entries that have not expired are assigned one by one to a new
    object: one under the key ["__proto__"] is lost. *)
Definition pruneJwtCache : M ExtensionState.t :=
  now ← Date_now;
  state ← getState false;
  setState
    (update_jwtCache
       (delete "__proto__"
          (filter (fun entry => now < JwtCacheEntry.expiresAt (snd entry))
             (ExtensionState.jwtCache state)))).

(** ** Service worker ([src/background.ts]) *)

Definition CHAIN_ID_BY_SETTING (chain : ChainId) : float :=
  match chain with
  | polygon => 137%float
  | polygonAmoy => 80002%float
  end.

Definition PENDING_CHALLENGE_TTL_MS : Z := 10 * 60 * 1000.

Definition mapChainId (chainId : float) : option ChainId :=
  if PrimFloat.eqb chainId 137 then Some polygon
  else if PrimFloat.eqb chainId 80002 then Some polygonAmoy
  else None.

Definition MIN_LOCK_MINUTES : Z := 1.
Definition MAX_LOCK_MINUTES : Z := 1440.
Definition DEFAULT_LOCK_MINUTES : Z := 15.

(** [normalizeLockDuration(minutes)]: a missing, infinite or NaN duration
    gives the default; the floor of a finite number is an integer, and
    clamping it is exact. *)
Definition normalizeLockDuration (minutes : option float) : Z :=
  match minutes with
  | Some m =>
      match JS.floor m with
      | Some coerced => Z.min (Z.max coerced MIN_LOCK_MINUTES) MAX_LOCK_MINUTES
      | None => DEFAULT_LOCK_MINUTES
      end
  | None => DEFAULT_LOCK_MINUTES
  end.

Definition computeUnlockExpiry (minutes : option float) : M Z :=
  let duration := normalizeLockDuration minutes in
  now ← Date_now;
  ret (now + duration * 60 * 1000).

(** The test of the pruning loop: [entry.createdAt] is truthy and the
    entry is older than the TTL. *)
Definition expired (now : Z) (entry : PendingChallenge.t) : bool :=
  negb (PendingChallenge.createdAt entry =? 0)
  && (PENDING_CHALLENGE_TTL_MS <? now - PendingChallenge.createdAt entry).

(** The loop of [pruneExpiredChallenges] over [Object.entries(source)]:
    the [changed] flag and the [pruned] object.  The ids are those of
    stored entries, and [ensureChallengeStored] stores none under
    ["__proto__"], the one key that [pruned[id] = entry] would lose. *)
Definition prune_loop (now : Z) (source : gmap string PendingChallenge.t)
    : bool * gmap string PendingChallenge.t :=
  map_fold
    (fun id entry acc =>
       if expired now entry then (true, snd acc)
       else (fst acc, <[id := entry]> (snd acc)))
    (false, ∅) source.

Definition pruneExpiredChallenges : M unit :=
  state ← getState false;
  let source := ExtensionState.pendingChallenges state in
  now ← Date_now;
  let '(changed, pruned) := prune_loop now source in
  if changed : bool then setState (update_pendingChallenges pruned);; ret tt
  else ret tt.

Definition getPendingChallenges : M (gmap string PendingChallenge.t) :=
  pruneExpiredChallenges;;
  state ← getState false;
  ret (ExtensionState.pendingChallenges state).

Definition savePendingChallenges (pending : gmap string PendingChallenge.t) : M unit :=
  setState (update_pendingChallenges pending);; ret tt.

(** [object[key] = value] on a plain object used as a dictionary: an
    assignment to ["__proto__"] creates no property (it sets the
    prototype when the value is an object and does nothing otherwise). *)
Definition assign {T} (key : string) (value : T) (object : gmap string T) : gmap string T :=
  if Str.eqb key "__proto__" then object else <[key := value]> object.

Definition ensureChallengeStored (challenge : ChallengeDetails.t) (tabId windowId : option Z)
    : M unit :=
  pending ← getPendingChallenges;
  now ← Date_now;
  savePendingChallenges
    (assign (ChallengeDetails.challengeId challenge)
       (PendingChallenge.mk challenge tabId now windowId) pending).

Definition clearChallenge (challengeId : string) : M unit :=
  pending ← getPendingChallenges;
  savePendingChallenges (delete challengeId pending).

(** The handler of the message "x402:getPendingChallenge": the [get] of
    the pending-challenge store. *)
Definition getPendingChallenge (challengeId : string) : M (option PendingChallenge.t) :=
  pending ← getPendingChallenges;
  ret (pending !! challengeId).

Definition setExtensionStatus (status : ExtensionStatus) : M unit :=
  setState (update_extensionStatus status);; ret tt.

Definition ExtensionStatus_eqb (a b : ExtensionStatus) : bool :=
  match a, b with
  | idle, idle | paying, paying | verified, verified => true
  | _, _ => false
  end.

Definition withExtensionStatus {T} (status : ExtensionStatus) (fn : M T) : M T :=
  setExtensionStatus status;;
  try_catch
    (result ← fn;
     current ← getState false;
     (if ExtensionStatus_eqb (ExtensionState.extensionStatus current) status
      then setExtensionStatus idle else ret tt);;
     ret result)
    (fun error =>
       current ← getState false;
       (if ExtensionStatus_eqb (ExtensionState.extensionStatus current) status
        then setExtensionStatus idle else ret tt);;
       throw error).

(** [new Date(ms).toISOString().slice(0, 10)]: the UTC civil date of an
    epoch time, by the usual era/day-of-era computation. *)
Definition pad (width : nat) (digits : string) : string :=
  JS.zeros (width - Str.length digits) ++ digits.

Definition isoDate (ms : Z) : string :=
  let z := ms / 86400000 + 719468 in
  let era := z / 146097 in
  let doe := z - era * 146097 in
  let yoe := (doe - doe / 1460 + doe / 36524 - doe / 146096) / 365 in
  let doy := doe - (365 * yoe + yoe / 4 - yoe / 100) in
  let mp := (5 * doy + 2) / 153 in
  let d := doy - (153 * mp + 2) / 5 + 1 in
  let m := if mp <? 10 then mp + 3 else mp - 9 in
  let y := yoe + era * 400 + (if m <=? 2 then 1 else 0) in
  let year :=
    if (0 <=? y) && (y <=? 9999) then pad 4 (JS.digits_of_Z y)
    else (if y <? 0 then "-" else "+") ++ pad 6 (JS.digits_of_Z (Z.abs y)) in
  Str.substring 0 10 (year ++ "-" ++ pad 2 (JS.digits_of_Z m) ++ "-" ++ pad 2 (JS.digits_of_Z d)).

Definition createDefaultPolicy (origin : string) : M SitePolicy.t :=
  now ← Date_now;
  let today := isoDate now in
  ret (SitePolicy.mk origin false ask None 0%float 0%float today).

Definition incrementPolicySpend (origin : string) (amountUsd : float) : M unit :=
  state ← getState false;
  policy ← match ExtensionState.policies state !! origin with
            | Some p => ret p
            | None => createDefaultPolicy origin
            end;
  now ← Date_now;
  let today := isoDate now in
  let reset := negb (Str.eqb (SitePolicy.lastResetISO policy) today) in
  let dailyUsd := if reset then 0%float else SitePolicy.dailyUsd policy in
  let lastResetISO := if reset then today else SitePolicy.lastResetISO policy in
  let policy' :=
    SitePolicy.mk (SitePolicy.origin policy) (SitePolicy.allowUnderThreshold policy)
      (SitePolicy.mode policy) (SitePolicy.capUsd policy)
      (JS.add (SitePolicy.lifetimeUsd policy) amountUsd)
      (JS.add dailyUsd amountUsd) lastResetISO in
  setState (update_policies (<[origin := policy']> (ExtensionState.policies state)));;
  ret tt.

Definition canonicalNetworkForChain (chainId : option float) : option string :=
  match chainId with
  | Some c =>
      if negb (JS.isFinite c) then None
      else if PrimFloat.eqb c 137 then Some "polygon"
      else if PrimFloat.eqb c 80002 then Some "polygon-amoy"
      else None
  | None => None
  end.

(** A member that is a non-blank string, trimmed. *)
Definition trimmed_string_member (key : string) (value : option json) : option string :=
  match value with
  | Some v =>
      match JSON.member key v with
      | Some (JString s) => if JS.is_empty (JS.trim s) then None else Some (JS.trim s)
      | _ => None
      end
  | None => None
  end.

(** A member that is a number. *)
Definition number_member (key : string) (value : option json) : option float :=
  match value with
  | Some v =>
      match JSON.member key v with
      | Some (JNumber n) => Some n
      | _ => None
      end
  | None => None
  end.

(** [accepts.find(entry => entry && typeof entry === "object" &&
    entry.scheme === "exact")] *)
Definition is_exact_entry (entry : json) : bool :=
  match JSON.member "scheme" entry with
  | Some (JString scheme) => Str.eqb scheme "exact"
  | _ => false
  end.

Definition first_or {A} (a b : option A) : option A :=
  match a with Some _ => a | None => b end.

Definition normalizeNetworkDescriptor (challenge : ChallengeDetails.t)
    (settings : ExtensionSettings.t) : string * Z :=
  let raw := ChallengeDetails.rawChallenge challenge in
  let accepts :=
    match raw with
    | Some v => match JSON.member "accepts" v with Some (JArray items) => items | _ => [] end
    | None => []
    end in
  let firstAccept := List.find is_exact_entry accepts in
  let fromChallengeField :=
    match ChallengeDetails.network challenge with
    | Some n => if JS.is_empty (JS.trim n) then None else Some (JS.trim n)
    | None => None
    end in
  let fromAccepts := trimmed_string_member "network" firstAccept in
  let fromRaw := trimmed_string_member "network" raw in
  let chainId := ChallengeDetails.chainId challenge in
  let descriptor :=
    match
      first_or fromChallengeField
        (first_or fromAccepts
           (first_or fromRaw
              (if JS.isFinite chainId && JS.gt chainId 0%float
               then Some ("eip155:" ++ JS.Number_toString chainId)
               else canonicalNetworkForChain
                      (Some (CHAIN_ID_BY_SETTING (ExtensionSettings.chain settings))))))
    with
    | Some d => d
    | None => "eip155:" ++ JS.Number_toString chainId
    end in
  let hintedVersionRaw :=
    first_or (ChallengeDetails.x402Version challenge)
      (first_or (number_member "x402Version" raw)
         (first_or (number_member "x402Version" firstAccept)
            (number_member "version" raw))) in
  let hintedVersion :=
    match hintedVersionRaw with
    | Some v =>
        if PrimFloat.eqb v 2 then Some 2
        else if PrimFloat.eqb v 1 then Some 1
        else None
    | None => None
    end in
  let derivedVersion := if JS.includes_char ":" descriptor then 2 else 1 in
  let version := match hintedVersion with Some v => v | None => derivedVersion end in
  (descriptor, if version =? 2 then 2 else 1).

(** The EIP-712 domain and message handed to the signer. *)
Module TypedDomain.
Record t := mk {
  name : string;
  version : string;
  chainId : float;
  verifyingContract : json
}.
End TypedDomain.

Module Authorization.
Record t := mk {
  from : string;
  to : string;
  value : string;
  validAfter : string;
  validBefore : string;
  nonce : string
}.
End Authorization.

(** The part of the [ethers] library the service worker calls.
    [walletAddress key] is [new ethers.Wallet(key).address];
    [signTypedData key domain message] is [signTypedData] of that wallet
    with the [TransferWithAuthorization] types.  Either may throw. *)
Module Ethers.
Record t := mk {
  walletAddress : string -> Outcome string;
  signTypedData : string -> TypedDomain.t -> Authorization.t -> Outcome string
}.
End Ethers.

Definition lift {A} (o : Outcome A) : M A := fun w => (o, w).

(** [ethers.hexlify(bytes)] *)
Definition hexlify (bytes : list Byte.byte) : string :=
  "0x" ++ Str.concat ""
            (map (fun b =>
                    let n := Byte.to_N b in
                    String (JSON.hex_digit (n / 16)%N)
                      (String (JSON.hex_digit (n mod 16)%N) EmptyString))
               bytes).

(** [ethers.randomBytes(n)]: the next [n] bytes of the supply. *)
Definition randomBytes (n : nat) : M (list Byte.byte) :=
  fun w =>
    (Returned (map (World.entropy w) (seq 0 n)),
     World.mk (World.stored w) (World.runtimePrivateKey w) (World.runtimeLockedUntil w)
       (World.clock w) (World.written w) (fun i => World.entropy w (n + i)%nat)
       (World.promptWindow w)).

(** The object whose JSON text is the retry header. *)
Definition xPaymentHeaderObj (x402Version : Z) (network : string)
    (authorization : Authorization.t) (signature : string) : json :=
  JObject
    [("x402Version", JNumber (JS.number_of_Z x402Version));
     ("scheme", JString "exact");
     ("network", JString network);
     ("payload",
      JObject
        [("authorization",
          JObject
            [("from", JString (Authorization.from authorization));
             ("to", JString (Authorization.to authorization));
             ("value", JString (Authorization.value authorization));
             ("validAfter", JString (Authorization.validAfter authorization));
             ("validBefore", JString (Authorization.validBefore authorization));
             ("nonce", JString (Authorization.nonce authorization))]);
         ("signature", JString signature)])].

(** The [InvalidCharacterError] that [btoa] throws, with the message
    Chrome gives it in a service worker. *)
Definition InvalidCharacterError : Err :=
  OtherError
    "Failed to execute 'btoa' on 'WorkerGlobalScope': The string to be encoded contains characters outside of the Latin1 range.".

(** [encodeBase64(value)]: [btoa] is a function in the extension's
    service worker, so the first branch is the one taken. *)
Definition encodeBase64 (value : string) : Outcome string :=
  match Base64.btoa value with
  | Some encoded => Returned encoded
  | None => Thrown InvalidCharacterError
  end.

(** The passphrase encryption of [src/shared/crypto.ts] (PBKDF2 and
    AES-GCM of the Web Crypto API), whose cryptography is not modelled:
    [encryptSecret] resolves to a payload, [decryptSecret] to the plain
    text or throws. *)
Module EncryptedPayload.
Record t := mk {
  cipherText : string;
  salt : string;
  iv : string
}.
End EncryptedPayload.

Module WalletUpdatePayload.
Record t := mk {
  privateKey : option string;
  passphrase : option string;
  lockDurationMinutes : option float;
  label : option string
}.
End WalletUpdatePayload.

(** What a wallet handler passes to [sendResponse]. *)
Inductive WalletResponse :=
| WalletReply (wallet : option WalletData.t) (locked : option bool)
| WalletFailure (message : string).

Section ServiceWorker.

Variable ethers : Ethers.t.
Variable encryptSecret : string -> string -> M EncryptedPayload.t.
Variable decryptSecret : EncryptedPayload.t -> string -> M string.
Variable unicode : Unicode.t.

Definition createAuthorization (wallet : WalletData.t) (settings : ExtensionSettings.t)
    (challenge : ChallengeDetails.t) : M (string * string) :=
  let privateKey :=
    match WalletData.privateKey wallet with
    | Some k => JS.trim k
    | None => ""
    end in
  if JS.is_empty privateKey then throw (OtherError "Wallet missing private key")
  else
    lift (Ethers.walletAddress ethers privateKey);;
    ms ← Date_now;
    let now := ms / 1000 in
    let validAfter := now - 5 in
    let validBefore := now + 120 in
    bytes ← randomBytes 32;
    let nonce := hexlify bytes in
    let domain :=
      TypedDomain.mk
        (match ChallengeDetails.tokenName challenge with Some n => n | None => "USD Coin" end)
        (match ChallengeDetails.tokenVersion challenge with Some v => v | None => "2" end)
        (ChallengeDetails.chainId challenge)
        (ChallengeDetails.tokenAddress challenge) in
    let authorization :=
      Authorization.mk
        (WalletData.address wallet)
        (ChallengeDetails.seller challenge)
        (ChallengeDetails.amountAtomic challenge)
        (JS.digits_of_Z validAfter)
        (JS.digits_of_Z validBefore)
        nonce in
    signature ← lift (Ethers.signTypedData ethers privateKey domain authorization);
    let '(networkDescriptor, x402Version) := normalizeNetworkDescriptor challenge settings in
    let headerJson :=
      JSON.stringify (xPaymentHeaderObj x402Version networkDescriptor authorization signature) in
    headerValue ← lift (encodeBase64 headerJson);
    ret (ChallengeDetails.challengeId challenge, headerValue).

Definition recordPayment (record : PaymentRecord.t) : M unit :=
  addHistory record;;
  pruneJwtCache;;
  ret tt.

Definition error_message (e : Err) : string :=
  match e with
  | WalletLockedError => "Wallet locked"
  | OtherError msg => msg
  end.

Definition processPayment (challenge : ChallengeDetails.t) (autoApproved : bool)
    : M ChallengeResolution.t :=
  state ← getState true;
  match ExtensionState.wallet state with
  | None =>
      ret (ChallengeResolution.mk error_action (Some "Wallet not configured") None None)
  | Some wallet =>
      now ← Date_now;
      if negb (truthy_string (WalletData.privateKey wallet))
         || negb (truthy_time (WalletData.lockedUntil wallet))
         || (match WalletData.lockedUntil wallet with Some t => t <=? now | None => false end)
      then
        setState (update_wallet (Some (with_privateKey wallet None (Some 0))));;
        throw WalletLockedError
      else
        try_catch
          (created ← createAuthorization wallet (ExtensionState.settings state) challenge;
           let '(paymentId, xPaymentHeader) := created in
           timestamp ← Date_now;
           let record :=
             PaymentRecord.mk paymentId (ChallengeDetails.origin challenge)
               (ChallengeDetails.endpoint challenge) (ChallengeDetails.amountUsd challenge)
               (ChallengeDetails.tokenSymbol challenge) timestamp pending autoApproved
               None None in
           recordPayment record;;
           incrementPolicySpend (ChallengeDetails.origin challenge)
             (ChallengeDetails.amountUsd challenge);;
           renewedUntil ← computeUnlockExpiry (WalletData.lockDurationMinutes wallet);
           setState
             (update_wallet
                (Some (with_privateKey wallet (WalletData.privateKey wallet)
                         (Some renewedUntil))));;
           ret (ChallengeResolution.mk retry None
                  (Some [("X-PAYMENT", xPaymentHeader); ("X-PAYMENT-ID", paymentId)])
                  None))
          (fun thrown =>
             timestamp ← Date_now;
             let record :=
               PaymentRecord.mk (ChallengeDetails.challengeId challenge)
                 (ChallengeDetails.origin challenge) (ChallengeDetails.endpoint challenge)
                 (ChallengeDetails.amountUsd challenge)
                 (ChallengeDetails.tokenSymbol challenge) timestamp error autoApproved
                 None (Some (error_message thrown)) in
             recordPayment record;;
             renewedUntil ← computeUnlockExpiry (WalletData.lockDurationMinutes wallet);
             setState
               (update_wallet
                  (Some (with_privateKey wallet (WalletData.privateKey wallet)
                           (Some renewedUntil))));;
             ret (ChallengeResolution.mk error_action (Some "Auto payment failed") None None))
  end.

(** [chrome.windows.create(...)]: throws, or resolves to a window whose
    id may be missing. *)
Definition windows_create : M (option Z) :=
  fun w =>
    match World.promptWindow w with
    | Some window => (Returned window, w)
    | None => (Thrown (OtherError "Failed to open prompt"), w)
    end.

Definition ChainId_eqb (a b : ChainId) : bool :=
  match a, b with
  | polygonAmoy, polygonAmoy | polygon, polygon => true
  | _, _ => false
  end.

Definition set_settings (state : ExtensionState.t) (settings : ExtensionSettings.t)
    : ExtensionState.t :=
  ExtensionState.mk
    settings (ExtensionState.wallet state) (ExtensionState.balance state)
    (ExtensionState.balances state) (ExtensionState.policies state)
    (ExtensionState.history state) (ExtensionState.jwtCache state)
    (ExtensionState.pendingChallenges state) (ExtensionState.extensionStatus state).

(** [handleChallenge(challenge, sender)], with [sender.tab?.id] as
    [tabId].  The detached [refreshBalance(...).catch(...)] runs outside
    the handler and touches the balance caches only; it is left out. *)
Definition handleChallenge (challenge : ChallengeDetails.t) (tabId : option Z)
    : M ChallengeResolution.t :=
  state0 ← getState false;
  let mappedChain := mapChainId (ChallengeDetails.chainId challenge) in
  state ←
    match mappedChain with
    | Some chain =>
        if negb (ChainId_eqb chain (ExtensionSettings.chain (ExtensionState.settings state0)))
        then
          updateSettings (SettingsPatch.only_chain chain);;
          ret (set_settings state0
                 (spreadSettings (ExtensionState.settings state0)
                    (SettingsPatch.only_chain chain)))
        else ret state0
    | None => ret state0
    end;
  ensureChallengeStored challenge tabId None;;
  now ← Date_now;
  let prompt : M ChallengeResolution.t :=
    try_catch
      (promptWindow ← windows_create;
       ensureChallengeStored challenge tabId promptWindow)
      (fun _ => ret tt);;
    ret (ChallengeResolution.mk pending_action None None
           (Some (ChallengeDetails.challengeId challenge))) in
  if shouldAutoApprove state challenge now then
    try_catch
      (withExtensionStatus paying (processPayment challenge true))
      (fun thrown =>
         match thrown with
         | WalletLockedError => prompt
         | _ => throw thrown
         end)
  else prompt.

Definition strip_privateKey (wallet : option WalletData.t) : option WalletData.t :=
  match wallet with
  | Some w => Some (without_privateKey w (WalletData.lockedUntil w))
  | None => None
  end.

(** The handler of "x402:updateWallet": remove or configure the wallet. *)
Definition onUpdateWallet (payload : option WalletUpdatePayload.t) : M WalletResponse :=
  match payload with
  | None =>
      updated ← updateWallet None;
      ret (WalletReply (ExtensionState.wallet updated) None)
  | Some payload =>
      match WalletUpdatePayload.privateKey payload with
      | None => ret (WalletFailure "Private key required")
      | Some privateKey =>
          if JS.is_empty (JS.trim privateKey) then ret (WalletFailure "Private key required")
          else
            match WalletUpdatePayload.passphrase payload with
            | None => ret (WalletFailure "Passphrase must be at least 8 characters")
            | Some passphrase =>
                if (Str.length passphrase <? 8)%nat
                then ret (WalletFailure "Passphrase must be at least 8 characters")
                else
                  try_catch
                    (let trimmedKey := JS.trim privateKey in
                     address ← lift (Ethers.walletAddress ethers trimmedKey);
                     let lockDuration :=
                       normalizeLockDuration (WalletUpdatePayload.lockDurationMinutes payload) in
                     encrypted ← encryptSecret trimmedKey passphrase;
                     lockedUntil ← computeUnlockExpiry (Some (JS.number_of_Z lockDuration));
                     let stored :=
                       WalletData.mk address
                         (Some (EncryptedPayload.cipherText encrypted))
                         (Some (EncryptedPayload.salt encrypted))
                         (Some (EncryptedPayload.iv encrypted))
                         None (Some trimmedKey)
                         (Some (JS.number_of_Z lockDuration)) (Some lockedUntil)
                         (WalletUpdatePayload.label payload) in
                     updated ← updateWallet (Some stored);
                     ret (WalletReply (strip_privateKey (ExtensionState.wallet updated))
                            (Some false)))
                    (fun thrown => ret (WalletFailure (error_message thrown)))
            end
      end
  end.

(** The stored cipher text of a configured wallet, when all three parts
    are present and not empty. *)
Definition encrypted_parts (wallet : option WalletData.t) : option EncryptedPayload.t :=
  match wallet with
  | Some w =>
      match WalletData.encryptedPrivateKey w, WalletData.encryptionIv w,
            WalletData.encryptionSalt w with
      | Some cipher, Some iv, Some salt =>
          if JS.is_empty cipher || JS.is_empty iv || JS.is_empty salt then None
          else Some (EncryptedPayload.mk cipher salt iv)
      | _, _, _ => None
      end
  | None => None
  end.

(** The handler of "x402:unlockWallet". *)
Definition onUnlockWallet (passphrase : option string) (lockDurationMinutes : option float)
    : M WalletResponse :=
  match passphrase with
  | None => ret (WalletFailure "Passphrase required")
  | Some passphrase =>
      if JS.is_empty passphrase then ret (WalletFailure "Passphrase required")
      else
        state ← getState false;
        match ExtensionState.wallet state, encrypted_parts (ExtensionState.wallet state) with
        | Some wallet, Some payload =>
            try_catch
              (decrypted ← decryptSecret payload passphrase;
               let trimmedKey := JS.trim decrypted in
               address ← lift (Ethers.walletAddress ethers trimmedKey);
               if negb (Str.eqb (Unicode.toLowerCase unicode address)
                          (Unicode.toLowerCase unicode (WalletData.address wallet)))
               then throw (OtherError "Passphrase does not match wallet")
               else
                 let duration :=
                   normalizeLockDuration
                     (first_or lockDurationMinutes (WalletData.lockDurationMinutes wallet)) in
                 lockedUntil ← computeUnlockExpiry (Some (JS.number_of_Z duration));
                 let updatedWallet :=
                   WalletData.mk
                     (WalletData.address wallet) (WalletData.encryptedPrivateKey wallet)
                     (WalletData.encryptionSalt wallet) (WalletData.encryptionIv wallet)
                     (WalletData.encryptionTag wallet) (Some trimmedKey)
                     (Some (JS.number_of_Z duration)) (Some lockedUntil)
                     (WalletData.label wallet) in
                 updated ← setState (update_wallet (Some updatedWallet));
                 match ExtensionState.wallet updated with
                 | Some _ =>
                     ret (WalletReply (strip_privateKey (ExtensionState.wallet updated))
                            (Some false))
                 | None => ret (WalletReply None (Some true))
                 end)
              (fun _ => ret (WalletFailure "Incorrect passphrase"))
        | _, _ => ret (WalletFailure "Wallet not configured")
        end
  end.

(** The handler of "x402:lockWallet". *)
Definition onLockWallet : M WalletResponse :=
  state ← getState false;
  match ExtensionState.wallet state with
  | None => ret (WalletReply None (Some true))
  | Some wallet =>
      updated ← setState (update_wallet (Some (with_privateKey wallet None (Some 0))));
      ret (WalletReply (ExtensionState.wallet updated) (Some true))
  end.

End ServiceWorker.

(** ** Challenge parser ([src/shared/x402.ts]) *)

Definition HEADER_CHALLENGE_JSON : string := "x-payment-challenge".
Definition HEADER_ID : string := "x-402-id".

(** The [HeaderSource] interface: [get], and the [(key, value)] pairs that
    [forEach] visits, in its order. *)
Module HeaderSource.
Record t := mk {
  get : string -> option string;
  entries : list (string * string)
}.
End HeaderSource.

Module RequestInfo.
Record t := mk {
  origin : string;
  endpoint : string;
  method : string
}.
End RequestInfo.

(** [baseDetails]: the lower-cased copy of the headers and the challenge
    id, [uuid] being what [crypto.randomUUID()] would return. *)
Definition baseDetails (unicode : Unicode.t) (headers : HeaderSource.t)
    (requestInfo : RequestInfo.t) (uuid : string) : gmap string string * string :=
  let rawHeaders :=
    fold_left
      (fun raw entry => assign (Unicode.toLowerCase unicode (fst entry)) (snd entry) raw)
      (HeaderSource.entries headers) ∅ in
  let challengeId :=
    match first_or (HeaderSource.get headers HEADER_ID) (rawHeaders !! HEADER_ID) with
    | Some id => id
    | None => uuid
    end in
  (rawHeaders, challengeId).

Definition string_member (key : string) (value : json) : option string :=
  match JSON.member key value with
  | Some (JString s) => Some s
  | _ => None
  end.

(** [value ?? fallback] on a member: [null] and [undefined] are nullish. *)
Definition nullish (value : option json) : bool :=
  match value with
  | None | Some JNull => true
  | _ => false
  end.

(** [fromJsonChallenge]: [None] is [undefined], returned also when
    [JSON.parse] or one of the conversions throws. *)
Definition fromJsonChallenge (unicode : Unicode.t) (challengeJson : string)
    (requestInfo : RequestInfo.t) (rawHeaders : gmap string string) (fallbackId : string)
    : option ChallengeDetails.t :=
  match JSON.parse challengeJson with
  | Some parsed =>
      match parsed with
      | JObject _ | JArray _ =>
          let amount := JSON.member "amount" parsed in
          let amountUsd := JSON.member "amountUsd" parsed in
          let chainId := JSON.member "chainId" parsed in
          let seller := JSON.member "seller" parsed in
          let tokenAddress := JSON.member "tokenAddress" parsed in
          let atomic :=
            match amount with
            | Some (JString s) => Some s
            | Some v => if nullish amount then Some "0" else Convert.toString v
            | None => Some "0"
            end in
          let requestAmountUsd :=
            match amountUsd with
            | Some (JNumber n) => Some n
            | Some v => if nullish amountUsd then Some 0%float else Convert.toNumber v
            | None => Some 0%float
            end in
          let tokenSymbol :=
            match string_member "token" parsed with
            | Some token => Unicode.toUpperCase unicode token
            | None => "USDC"
            end in
          let chain :=
            match chainId with
            | Some (JNumber n) => Some n
            | Some v => if nullish chainId then Some 0%float else Convert.toNumber v
            | None => Some 0%float
            end in
          match atomic, requestAmountUsd, chain, tokenAddress, seller with
          | Some atomic, Some requestAmountUsd, Some chain,
            Some tokenAddress', Some (JString seller') =>
              if negb (JS.truthy_number chain) || negb (Convert.truthy tokenAddress)
              then None
              else
                Some
                  (ChallengeDetails.mk
                     (if JS.isFinite requestAmountUsd then requestAmountUsd else 0%float)
                     tokenSymbol
                     (match string_member "id" parsed with
                      | Some id => id
                      | None => fallbackId
                      end)
                     (RequestInfo.endpoint requestInfo)
                     (RequestInfo.origin requestInfo)
                     rawHeaders
                     (RequestInfo.method requestInfo)
                     chain
                     None
                     tokenAddress'
                     seller'
                     atomic
                     (string_member "tokenName" parsed)
                     (string_member "tokenVersion" parsed)
                     (number_member "tokenDecimals" (Some parsed))
                     None
                     (Some parsed))
          | _, _, _, _, _ => None
          end
      | _ => None
      end
  | None => None
  end.

(** [/^[A-Za-z0-9+/=]+$/.test(s)] *)
Definition base64Pattern (s : string) : bool :=
  negb (JS.is_empty s)
  && JS.forallb_string
       (fun c => JS.is_alpha c || JS.is_digit c
                 || (c =? "+"%u)%N || (c =? "/"%u)%N || (c =? "="%u)%N)
       s.

(** [parseChallengeValue]: the attempts, in order, are the trimmed value
    and, when it looks like base64 and decodes, its decoding. *)
Definition parseChallengeValue (unicode : Unicode.t) (value : string)
    (requestInfo : RequestInfo.t) (rawHeaders : gmap string string) (fallbackId : string)
    : option ChallengeDetails.t :=
  let trimmed := JS.trim value in
  let attempts :=
    if JS.is_empty trimmed then []
    else
      trimmed ::
        (if base64Pattern trimmed then
           match Base64.atob trimmed with
           | Some decoded => [decoded]
           | None => []
           end
         else []) in
  List.fold_left
    (fun found attempt =>
       match found with
       | Some challenge => Some challenge
       | None => fromJsonChallenge unicode attempt requestInfo rawHeaders fallbackId
       end)
    attempts None.

(** *** The two regular expressions of [fromAuthenticateChallenge] *)

Fixpoint span (p : N -> bool) (s : string) : string * string :=
  match s with
  | String c rest =>
      if p c then let '(taken, remaining) := span p rest in (String c taken, remaining)
      else (EmptyString, s)
  | EmptyString => (EmptyString, EmptyString)
  end.

Definition last_char (s : string) : string :=
  Str.substring (Str.length s - 1) 1 s.

Definition no_line_terminator (s : string) : bool :=
  JS.forallb_string (fun c => negb (JS.is_line_terminator c)) s.

(** [headerValue.match(/^\s*(x-?402)\s+(.+)$/i)], giving group 2.  The
    greedy [\s+] takes the whole run of spaces unless nothing is left for
    [.+], which then gets the last space; [.] matches no line terminator. *)
Definition match_scheme (headerValue : string) : option string :=
  match JS.trimStart headerValue with
  | String x rest =>
      if (x =? "x"%u)%N || (x =? "X"%u)%N then
        let rest' := match rest with String "-" r => r | _ => rest end in
        match rest' with
        | String "4" (String "0" (String "2" after)) =>
            let '(spaces, params) := span JS.is_space after in
            if JS.is_empty spaces then None
            else if negb (JS.is_empty params) then
              if no_line_terminator params then Some params else None
            else if (2 <=? Str.length spaces)%nat && no_line_terminator (last_char spaces)
            then Some (last_char spaces)
            else None
        | _ => None
        end
      else None
  | EmptyString => None
  end.

Definition is_key_char (c : N) : bool :=
  JS.is_alpha c || JS.is_digit c || (c =? "_"%u)%N || (c =? "-"%u)%N.

(** The text up to the first double quote, when there is one. *)
Fixpoint until_quote (s : string) : option string :=
  match s with
  | String c rest =>
      if (c =? dquote)%N then Some EmptyString
      else match until_quote rest with
           | Some body => Some (String c body)
           | None => None
           end
  | EmptyString => None
  end.

(** One match of [paramRegex] at the start of [s]: optional spaces, a key
    of letters, digits, [_] and [-], the sign [=], and a value that is
    either quoted (group 3: a double quote, any characters but double
    quotes, a double quote) or, failing that, a run of characters other
    than commas (group 4).  The result is the key, the raw value and the
    length matched. *)
Definition match_param (s : string) : option (string * string * nat) :=
  let '(spaces, s1) := span JS.is_space s in
  let '(key, s2) := span is_key_char s1 in
  if JS.is_empty key then None
  else
    match s2 with
    | String "=" s3 =>
        let before := (Str.length spaces + Str.length key + 1)%nat in
        let unquoted :=
          let '(value, _) := span (fun c => negb ((c =? ","%u)%N)) s3 in
          if JS.is_empty value then None
          else Some (key, value, (before + Str.length value)%nat) in
        match s3 with
        | String dquote s4 =>
            match until_quote s4 with
            | Some body =>
                Some (key, String dquote (body ++ String dquote EmptyString),
                      (before + Str.length body + 2)%nat)
            | None => unquoted
            end
        | _ => unquoted
        end
    | _ => None
    end.

(** [raw.replace(...)] with the expression that matches a double quote
    at the start or at the end: both are removed. *)
Definition strip_quotes (raw : string) : string :=
  let s := match raw with String dquote r => r | _ => raw end in
  if Str.eqb (last_char s) (String dquote EmptyString)
  then Str.substring 0 (Str.length s - 1) s else s.

(** The loop over [paramRegex.exec(paramsPart)] until it gives null: at
    each position outside the previous match the expression is tried, and
    a match assigns [params[key]]; [skip] counts the characters of the
    previous match still to pass. *)
Fixpoint scan_params (paramsPart : string) (skip : nat) (params : list (string * json))
    : list (string * json) :=
  match paramsPart with
  | EmptyString => params
  | String _ rest =>
      match skip with
      | S skip' => scan_params rest skip' params
      | O =>
          match match_param paramsPart with
          | Some (key, raw, matched) =>
              scan_params rest (matched - 1)
                (if Str.eqb key "__proto__" then params
                 else JSON.set key (JString (strip_quotes raw)) params)
          | None => scan_params rest 0 params
          end
      end
  end.

Definition param (key : string) (params : list (string * json)) : option string :=
  match JSON.lookup key params with
  | Some (JString s) => Some s
  | _ => None
  end.

(** The first parameter present among [keys]: [params.a ?? params.b ?? ...] *)
Fixpoint first_param (keys : list string) (params : list (string * json)) : option string :=
  match keys with
  | [] => None
  | key :: rest => first_or (param key params) (first_param rest params)
  end.

Definition fromAuthenticateChallenge (unicode : Unicode.t) (headerValue : string)
    (requestInfo : RequestInfo.t) (rawHeaders : gmap string string) (fallbackId : string)
    : option ChallengeDetails.t :=
  match match_scheme headerValue with
  | None => None
  | Some paramsPart =>
      let params := scan_params paramsPart 0 [] in
      let challengeValue := first_param ["challenge"; "payload"] params in
      let nested :=
        if truthy_string challengeValue
        then parseChallengeValue unicode (default "" challengeValue) requestInfo rawHeaders
               fallbackId
        else None in
      match nested with
      | Some parsed => Some parsed
      | None =>
          let amountUsdStr := first_param ["amountUsd"; "amount_usd"; "price"; "cost"] params in
          let amountUsd :=
            if truthy_string amountUsdStr
            then Convert.StringToNumber (default "" amountUsdStr)
            else 0%float in
          let tokenParam :=
            default "USDC" (first_param ["token"; "tokenSymbol"; "token_symbol"] params) in
          let tokenSymbol := Unicode.toUpperCase unicode tokenParam in
          let seller := first_param ["seller"; "to"] params in
          let tokenAddress := first_param ["tokenAddress"; "token_address"; "contract"] params in
          let chainRaw := first_param ["chainId"; "chain_id"; "chain"] params in
          let chainId :=
            if truthy_string chainRaw
            then Convert.StringToNumber (default "" chainRaw)
            else 137%float in
          let amountAtomicParam :=
            first_param ["amountAtomic"; "amount_atomic"; "amount"] params in
          if negb (truthy_string seller) || negb (truthy_string tokenAddress)
             || negb (truthy_string amountAtomicParam)
          then None
          else
            Some
              (ChallengeDetails.mk
                 (if JS.isFinite amountUsd then amountUsd else 0%float)
                 tokenSymbol
                 (if truthy_string (param "id" params)
                  then default "" (param "id" params) else fallbackId)
                 (RequestInfo.endpoint requestInfo)
                 (RequestInfo.origin requestInfo)
                 rawHeaders
                 (RequestInfo.method requestInfo)
                 (if JS.isFinite chainId then chainId else 137%float)
                 None
                 (JString (default "" tokenAddress))
                 (default "" seller)
                 (default "" amountAtomicParam)
                 None None None None
                 (Some (JObject params)))
      end
  end.

(** [Number(a ?? b ?? fallback)] on two optional header values. *)
Definition number_of_headers (a b : option string) (fallback : float) : float :=
  match first_or a b with
  | Some s => Convert.StringToNumber s
  | None => fallback
  end.

Definition parseChallengeHeaders (unicode : Unicode.t) (headers : HeaderSource.t)
    (requestInfo : RequestInfo.t) (uuid : string) : option ChallengeDetails.t :=
  let '(rawHeaders, challengeId) := baseDetails unicode headers requestInfo uuid in
  let jsonHeader :=
    first_or (HeaderSource.get headers HEADER_CHALLENGE_JSON)
      (rawHeaders !! HEADER_CHALLENGE_JSON) in
  let fromJsonHeader :=
    if truthy_string jsonHeader
    then parseChallengeValue unicode (default "" jsonHeader) requestInfo rawHeaders
           challengeId
    else None in
  match fromJsonHeader with
  | Some parsed => Some parsed
  | None =>
      let authHeader :=
        first_or (HeaderSource.get headers "www-authenticate")
          (rawHeaders !! "www-authenticate") in
      let fromAuthHeader :=
        if truthy_string authHeader
        then fromAuthenticateChallenge unicode (default "" authHeader) requestInfo
               rawHeaders challengeId
        else None in
      match fromAuthHeader with
      | Some parsed => Some parsed
      | None =>
          let amountUsd :=
            number_of_headers (rawHeaders !! "x-402-amount")
              (rawHeaders !! "x-payment-amount-usd") 0%float in
          let tokenSymbol :=
            default "USDC" (first_or (rawHeaders !! "x-402-token")
                              (rawHeaders !! "x-payment-token")) in
          let seller :=
            first_or (rawHeaders !! "x-402-address") (rawHeaders !! "x-payment-seller") in
          let tokenAddress :=
            first_or (rawHeaders !! "x-402-token-address")
              (rawHeaders !! "x-payment-token-address") in
          let chain :=
            number_of_headers (rawHeaders !! "x-402-chain") (rawHeaders !! "x-payment-chain")
              137%float in
          let atomic :=
            first_or (rawHeaders !! "x-402-amount-atomic") (rawHeaders !! "x-payment-amount") in
          if negb (truthy_string seller) || negb (truthy_string tokenAddress)
             || negb (truthy_string atomic)
          then None
          else
            Some
              (ChallengeDetails.mk amountUsd tokenSymbol challengeId
                 (RequestInfo.endpoint requestInfo)
                 (RequestInfo.origin requestInfo)
                 rawHeaders
                 (RequestInfo.method requestInfo)
                 chain None
                 (JString (default "" tokenAddress))
                 (default "" seller)
                 (default "" atomic)
                 None None None None None)
      end
  end.

(** The [Headers] of a response whose header lines are [lines]: names are
    byte-lowercased and the values of a repeated name are joined by a
    comma and a space. *)
Definition combined (name : string) (lines : list (string * string)) : option string :=
  match List.filter
          (fun line => Str.eqb (JS.byte_lowercase (fst line)) (JS.byte_lowercase name))
          lines with
  | [] => None
  | matching => Some (JSON.join ", " (map snd matching))
  end.

Definition Headers (lines : list (string * string)) : HeaderSource.t :=
  HeaderSource.mk
    (fun name => combined name lines)
    (map (fun line => (JS.byte_lowercase (fst line), default "" (combined (fst line) lines)))
       lines).

(** ** Sample data used by the worked examples *)

(** JSON text and quoted parameters are written in the examples with
    apostrophes, which [quoted] turns into double quotes. *)
Definition quoted (s : string) : string :=
  JS.map_string (fun c => if (c =? "'"%u)%N then dquote else c) s.

Module Sample.

(** Case mappings that agree with those of the Unicode character database
    on the code units below U+0100, and leave the others as they are. *)
Definition lower_unit (c : N) : N :=
  if ((65 <=? c) && (c <=? 90) || (192 <=? c) && (c <=? 222) && negb (c =? 215))%N
  then (c + 32)%N
  else c.

Definition upper_units (c : N) : string :=
  if ((97 <=? c) && (c <=? 122) || (224 <=? c) && (c <=? 254) && negb (c =? 247))%N
  then String (c - 32)%N ""
  else if (c =? 181)%N then String 924%N ""
  else if (c =? 223)%N then "SS"
  else if (c =? 255)%N then String 376%N ""
  else String c "".

Fixpoint upper (s : string) : string :=
  match s with
  | "" => ""
  | String c rest => upper_units c ++ upper rest
  end.

Definition unicode : Unicode.t := Unicode.mk (JS.map_string lower_unit) upper.

Definition now : Z := 1700000000000.

Definition challenge (amountUsd : float) : ChallengeDetails.t :=
  ChallengeDetails.mk amountUsd "USDC" "ch-1" "/joke" "https://shop.example" ∅ "GET"
    80002%float None (JString "0x41E94Eb019C0762f9Bfcf9Fb1E58725BfB0e7582")
    "0x1111111111111111111111111111111111111111" "10000" None None None None None.

Definition paid (id : string) (amountUsd : float) (timestamp : Z) : PaymentRecord.t :=
  PaymentRecord.mk id "https://shop.example" "/joke" amountUsd "USDC" timestamp
    success true None None.

Definition with_history (history : list PaymentRecord.t) : ExtensionState.t :=
  ExtensionState.mk defaultSettings None defaultBalanceTemplate
    (fun _ => defaultBalanceTemplate) ∅ history ∅ ∅ idle.

Definition allowing_policy : SitePolicy.t :=
  SitePolicy.mk "https://shop.example" true ask (Some 5%float) 1%float 0%float "2023-11-14".

Definition with_policy (policy : SitePolicy.t) : ExtensionState.t :=
  ExtensionState.mk defaultSettings None defaultBalanceTemplate
    (fun _ => defaultBalanceTemplate) {[ SitePolicy.origin policy := policy ]} [] ∅ ∅ idle.

(** A configured wallet as it is stored: the cipher text, no plain key. *)
Definition wallet : WalletData.t :=
  WalletData.mk "0x2222222222222222222222222222222222222222"
    (Some "Y2lwaGVy") (Some "c2FsdA==") (Some "aXY=") None None
    (Some 15%float) (Some 0) (Some "main").

Definition with_wallet (history : list PaymentRecord.t) : ExtensionState.t :=
  ExtensionState.mk defaultSettings (Some wallet) defaultBalanceTemplate
    (fun _ => defaultBalanceTemplate) ∅ history ∅ ∅ idle.

(** The service worker with that wallet stored and unlocked for another
    five minutes. *)
Definition unlocked_world : World.t :=
  World.mk (Some (with_wallet [])) (Some "0xkey") (now + 300000) now []
    (fun _ => Byte.x2a) (Some (Some 7)).

(** The same, with no key in memory. *)
Definition locked_world : World.t :=
  World.mk (Some (with_wallet [])) None 0 now [] (fun _ => Byte.x2a) (Some (Some 7)).

(** The service worker after installation: nothing stored, no wallet. *)
Definition fresh_world : World.t :=
  World.mk None None 0 now [] (fun _ => Byte.x2a) (Some (Some 7)).

(** The wallet as [getState({ includePrivateKey: true })] shows it while
    unlocked. *)
Definition unlocked_wallet : WalletData.t :=
  with_privateKey wallet (Some "0xkey") (Some (now + 300000)).

Definition request : RequestInfo.t := RequestInfo.mk "https://shop.example" "/joke" "GET".

(** A response with a dedicated challenge header whose JSON names an empty
    seller and an empty amount. *)
Definition empty_seller_response : HeaderSource.t :=
  Headers
    [("X-Payment-Challenge",
      quoted "{'chainId':137,'tokenAddress':'0x3c499c542cEF5E3811e1192ce70d8cC03d5c3359','seller':'','amount':''}")].

(** A response with both a dedicated challenge header and a complete set
    of legacy headers, naming different sellers, tokens, chains and amounts. *)
Definition dedicated_json : string :=
  quoted "{'chainId':137,'tokenAddress':'0x3c499c542cEF5E3811e1192ce70d8cC03d5c3359','seller':'0xAAAAaaaaAAAAaaaaAAAAaaaaAAAAaaaaAAAAaaaa','amount':'5000','amountUsd':0.005}".

Definition both_encodings_response : HeaderSource.t :=
  Headers
    [("X-Payment-Challenge", dedicated_json);
     ("X-402-Amount", "0.04");
     ("X-402-Token", "USDC");
     ("X-402-Address", "0xBBBBbbbbBBBBbbbbBBBBbbbbBBBBbbbbBBBBbbbb");
     ("X-402-Token-Address", "0x41E94Eb019C0762f9Bfcf9Fb1E58725BfB0e7582");
     ("X-402-Chain", "80002");
     ("X-402-Amount-Atomic", "40000")].




(** A response with the three mandatory legacy headers only. *)
Definition bare_legacy_response : HeaderSource.t :=
  Headers
    [("X-402-Address", "0xBBBBbbbbBBBBbbbbBBBBbbbbBBBBbbbbBBBBbbbb");
     ("X-402-Token-Address", "0x41E94Eb019C0762f9Bfcf9Fb1E58725BfB0e7582");
     ("X-402-Amount-Atomic", "40000")].

(** A signer that signs everything, and one whose signing throws. *)
Definition signing : Ethers.t :=
  Ethers.mk (fun _ => Returned "0x2222222222222222222222222222222222222222")
    (fun _ _ _ => Returned "0xsigned").

Definition failing : Ethers.t :=
  Ethers.mk (fun _ => Returned "0x2222222222222222222222222222222222222222")
    (fun _ _ _ => Thrown (OtherError "signing rejected")).

(** The store holding one pending challenge, recorded at [createdAt]. *)
Definition pending_entry (createdAt : Z) : PendingChallenge.t :=
  PendingChallenge.mk (challenge 0.01%float) (Some 3) createdAt None.

Definition pending_world (createdAt clock : Z) : World.t :=
  World.mk
    (Some (ExtensionState.mk defaultSettings (Some wallet) defaultBalanceTemplate
             (fun _ => defaultBalanceTemplate) ∅ [] ∅
             {[ "ch-1" := pending_entry createdAt ]} idle))
    None 0 clock [] (fun _ => Byte.x2a) (Some (Some 7)).

End Sample.

(** ** Predicates of the statements *)

(** The payment terms of a challenge record. *)
Definition payment_terms (challenge : ChallengeDetails.t)
    : float * string * float * json * string * string :=
  (ChallengeDetails.amountUsd challenge, ChallengeDetails.tokenSymbol challenge,
   ChallengeDetails.chainId challenge, ChallengeDetails.tokenAddress challenge,
   ChallengeDetails.seller challenge, ChallengeDetails.amountAtomic challenge).

(** The value of the dedicated challenge header of a response, and of
    its auth-challenge header, as [parseChallengeHeaders] reads them. *)
Definition dedicated_header (unicode : Unicode.t) (headers : HeaderSource.t)
    (requestInfo : RequestInfo.t) (uuid : string) : option string :=
  first_or (HeaderSource.get headers HEADER_CHALLENGE_JSON)
    (fst (baseDetails unicode headers requestInfo uuid) !! HEADER_CHALLENGE_JSON).

Definition auth_header (unicode : Unicode.t) (headers : HeaderSource.t)
    (requestInfo : RequestInfo.t) (uuid : string) : option string :=
  first_or (HeaderSource.get headers "www-authenticate")
    (fst (baseDetails unicode headers requestInfo uuid) !! "www-authenticate").

(** A record with a non-empty seller address, a non-empty token address
    and a non-empty atomic amount. *)
Definition valid_record (challenge : ChallengeDetails.t) : Prop :=
  ChallengeDetails.seller challenge <> ""
  /\ (exists address, ChallengeDetails.tokenAddress challenge = JString address
                      /\ address <> "")
  /\ ChallengeDetails.amountAtomic challenge <> "".

(** [steps R c]: whatever the world, running [c] takes it to a world
    related to it by [R]. *)
Definition steps {A} (R : World.t -> World.t -> Prop) (c : M A) : Prop :=
  forall w, R w (snd (c w)).

(** A document whose wallet record, if any, has no [privateKey] member. *)
Definition no_privateKey (state : ExtensionState.t) : Prop :=
  match ExtensionState.wallet state with
  | Some wallet => WalletData.privateKey wallet = None
  | None => True
  end.

(** From [w] to [w'] only documents without a private key were handed to
    the storage API. *)
Definition wrote_no_privateKey (w w' : World.t) : Prop :=
  exists new, World.written w' = (new ++ World.written w)%list /\ Forall no_privateKey new.

(** The [lockedUntil] of the wallet record of a stored document. *)
Definition stored_lockedUntil (w : World.t) : option (option Z) :=
  match World.stored w with
  | Some state => option_map WalletData.lockedUntil (ExtensionState.wallet state)
  | None => None
  end.

(** The same world at a later (or any other) reading of the clock: time
    passes between two handlers. *)
Definition at_time (w : World.t) (clock : Z) : World.t :=
  World.mk (World.stored w) (World.runtimePrivateKey w) (World.runtimeLockedUntil w)
    clock (World.written w) (World.entropy w) (World.promptWindow w).

(** The pending challenges of the stored document. *)
Definition stored_pending (w : World.t) : gmap string PendingChallenge.t :=
  match World.stored w with
  | Some state => ExtensionState.pendingChallenges state
  | None => ∅
  end.

(** An entry the pruning loop keeps at time [now]. *)
Definition kept (now : Z) (entry : string * PendingChallenge.t) : Prop :=
  expired now (snd entry) = false.

(** [triple P c Q]: from a world satisfying [P], [c] ends with an outcome
    and a world satisfying [Q]. *)
Definition triple {A} (P : World.t -> Prop) (c : M A)
    (Q : Outcome A -> World.t -> Prop) : Prop :=
  forall w, P w -> Q (fst (c w)) (snd (c w)).

(** [c] returns and re-establishes the invariant [I]. *)
Definition returns_keeping {A} (I : World.t -> Prop) (c : M A) : Prop :=
  triple I c (fun outcome w' => (exists a, outcome = Returned a) /\ I w').

(** A wallet is configured and there is no valid transient secret: no key
    in memory, or a lock expiry that is not in the future. *)
Definition locked_with_wallet (w : World.t) : Prop :=
  (exists state wallet,
     World.stored w = Some state /\ ExtensionState.wallet state = Some wallet)
  /\ (truthy_string (World.runtimePrivateKey w) = false
      \/ World.runtimeLockedUntil w <= World.clock w).

(** The resolution that sends the caller to the approval prompt. *)
Definition pending_resolution (challenge : ChallengeDetails.t) : ChallengeResolution.t :=
  ChallengeResolution.mk pending_action None None
    (Some (ChallengeDetails.challengeId challenge)).


(** Running [c] changes neither the stored document, nor the variables
    of [storage.ts], nor the clock. *)
Definition same_store (w w' : World.t) : Prop :=
  World.stored w' = World.stored w
  /\ World.runtimePrivateKey w' = World.runtimePrivateKey w
  /\ World.runtimeLockedUntil w' = World.runtimeLockedUntil w
  /\ World.clock w' = World.clock w.



(** The document a read of the store starts from: the stored one, or
    [INITIAL_STATE] while nothing is stored. *)
Definition stored_state (w : World.t) : ExtensionState.t :=
  match World.stored w with
  | Some state => state
  | None => INITIAL_STATE
  end.

(** Two documents agree on every member but the wallet and the balance
    caches. *)
Definition same_shared (a b : ExtensionState.t) : Prop :=
  ExtensionState.settings a = ExtensionState.settings b
  /\ ExtensionState.policies a = ExtensionState.policies b
  /\ ExtensionState.history a = ExtensionState.history b
  /\ ExtensionState.jwtCache a = ExtensionState.jwtCache b
  /\ ExtensionState.pendingChallenges a = ExtensionState.pendingChallenges b
  /\ ExtensionState.extensionStatus a = ExtensionState.extensionStatus b.

(** Running a function changes neither the clock nor what the next
    [chrome.windows.create] does. *)
Definition same_clock (w w' : World.t) : Prop :=
  World.clock w' = World.clock w /\ World.promptWindow w' = World.promptWindow w.

(** From [w] to [w'] a document with extension status [status] was handed
    to the storage API. *)
Definition wrote_status (status : ExtensionStatus) (w w' : World.t) : Prop :=
  exists newer doc older,
    World.written w' = (newer ++ doc :: older ++ World.written w)%list
    /\ ExtensionState.extensionStatus doc = status.

(** ** More of the state store ([src/shared/storage.ts]) *)

(** The names of the members of [Object.prototype]: a read
    [object[name]] of a plain object that has no member of that name
    finds the inherited one, a function or (for ["__proto__"]) the
    prototype itself, all truthy. *)
Definition inherited_name (name : string) : bool :=
  existsb (Str.eqb name)
    ["__proto__"; "constructor"; "hasOwnProperty"; "isPrototypeOf";
     "propertyIsEnumerable"; "toLocaleString"; "toString"; "valueOf";
     "__defineGetter__"; "__defineSetter__"; "__lookupGetter__"; "__lookupSetter__"].

Definition upsertPolicy (policy : SitePolicy.t) : M ExtensionState.t :=
  state ← getState false;
  setState (update_policies (<[SitePolicy.origin policy := policy]>
                               (ExtensionState.policies state))).

Definition removePolicy (origin : string) : M ExtensionState.t :=
  state ← getState false;
  match ExtensionState.policies state !! origin with
  | None =>
      if inherited_name origin
      then setState (update_policies (delete origin (ExtensionState.policies state)))
      else ret state
  | Some _ => setState (update_policies (delete origin (ExtensionState.policies state)))
  end.

Definition resetPolicies : M ExtensionState.t := setState (update_policies ∅).

(** [Partial<PaymentRecord>]: each member present or not. *)
Module PaymentRecordPatch.
Record t := mk {
  id : option string;
  origin : option string;
  endpoint : option string;
  amountUsd : option float;
  tokenSymbol : option string;
  timestamp : option Z;
  status : option PaymentStatus;
  autoApproved : option bool;
  txHash : option string;
  note : option string
}.
End PaymentRecordPatch.

(** [{ ...record, ...update, status: update.status ?? record.status,
    txHash: update.txHash ?? record.txHash, note: update.note ?? record.note }] *)
Definition settle (update : PaymentRecordPatch.t) (record : PaymentRecord.t)
    : PaymentRecord.t :=
  PaymentRecord.mk
    (or_else (PaymentRecordPatch.id update) (PaymentRecord.id record))
    (or_else (PaymentRecordPatch.origin update) (PaymentRecord.origin record))
    (or_else (PaymentRecordPatch.endpoint update) (PaymentRecord.endpoint record))
    (or_else (PaymentRecordPatch.amountUsd update) (PaymentRecord.amountUsd record))
    (or_else (PaymentRecordPatch.tokenSymbol update) (PaymentRecord.tokenSymbol record))
    (or_else (PaymentRecordPatch.timestamp update) (PaymentRecord.timestamp record))
    (or_else (PaymentRecordPatch.status update) (PaymentRecord.status record))
    (or_else (PaymentRecordPatch.autoApproved update) (PaymentRecord.autoApproved record))
    (first_or (PaymentRecordPatch.txHash update) (PaymentRecord.txHash record))
    (first_or (PaymentRecordPatch.note update) (PaymentRecord.note record)).

Definition markSettlement (paymentId : string) (update : PaymentRecordPatch.t)
    : M ExtensionState.t :=
  state ← getState false;
  let history :=
    map (fun record =>
           if negb (Str.eqb (PaymentRecord.id record) paymentId) then record
           else settle update record)
      (ExtensionState.history state) in
  setState (update_history history).

Definition saveJwt (entry : JwtCacheEntry.t) : M ExtensionState.t :=
  state ← getState false;
  setState (update_jwtCache (<[JwtCacheEntry.paymentId entry := entry]>
                               (ExtensionState.jwtCache state))).

(** What [getJwt] returns: [undefined], a cache entry, or, for a payment
    id that names a member of [Object.prototype] and no entry, that
    member (whose [expiresAt] is [undefined], which is not below any
    number). *)
Inductive JwtLookup :=
| NoJwt
| Jwt (entry : JwtCacheEntry.t)
| PrototypeMember.

Definition getJwt (paymentId : string) : M JwtLookup :=
  state ← getState false;
  match ExtensionState.jwtCache state !! paymentId with
  | None => ret (if inherited_name paymentId then PrototypeMember else NoJwt)
  | Some entry =>
      now ← Date_now;
      if JwtCacheEntry.expiresAt entry <? now then pruneJwtCache;; ret NoJwt
      else ret (Jwt entry)
  end.

(** ** Predicates of the further statements *)


(** ** Prompt decisions ([src/background.ts]) *)

Module PromptDecision.
Record t := mk {
  approve : bool;
  alwaysAllow : option bool
}.
End PromptDecision.

Inductive PromptStatus := prompt_success | prompt_denied | prompt_locked | prompt_error.

Module PromptDecisionResult.
Record t := mk {
  status : PromptStatus;
  message : option string
}.
End PromptDecisionResult.

(** What a handler sends off without waiting for it: a resolution to a
    tab ([chrome.tabs.sendMessage]) or the closing of a prompt window
    ([chrome.windows.remove]); the failure of either is ignored. *)
Inductive Notification :=
| TabMessage (tabId : Z) (challengeId : string) (resolution : ChallengeResolution.t)
| WindowRemoved (windowId : Z).

Definition notify_tab (tabId : option Z) (challengeId : string)
    (resolution : ChallengeResolution.t) : list Notification :=
  match tabId with
  | Some tab => [TabMessage tab challengeId resolution]
  | None => []
  end.

Definition remove_window (windowId : option Z) : list Notification :=
  match windowId with
  | Some window => [WindowRemoved window]
  | None => []
  end.

Definition allow_under_threshold (policy : SitePolicy.t) : SitePolicy.t :=
  SitePolicy.mk (SitePolicy.origin policy) true (SitePolicy.mode policy)
    (SitePolicy.capUsd policy) (SitePolicy.lifetimeUsd policy) (SitePolicy.dailyUsd policy)
    (SitePolicy.lastResetISO policy).

Section PromptDecisions.

Variable ethers : Ethers.t.

(** The [TypeError] of V8 for a read of [member] on [undefined]. *)
Definition undefined_read (member : string) : Err :=
  OtherError ("Cannot read properties of undefined (reading '" ++ member ++ "')").

(** [handlePromptDecision(challengeId, decision)]: its result and what it
    sent off, in order.  In the approving branch nothing that follows the
    message to the tab can throw, so the [catch] clause is reached with
    nothing sent.  For an id that names a member of [Object.prototype]
    and no pending entry, [entry] is that member and its [challenge] is
    [undefined]: the first read of a member of the challenge throws, in
    [processPayment] when approving, in the handler itself when denying. *)
Definition handlePromptDecision (challengeId : string) (decision : PromptDecision.t)
    : M (PromptDecisionResult.t * list Notification) :=
  pending ← getPendingChallenges;
  match pending !! challengeId with
  | None =>
      if negb (inherited_name challengeId)
      then ret (PromptDecisionResult.mk prompt_error (Some "Challenge not found"), [])
      else if PromptDecision.approve decision then
        try_catch
          (withExtensionStatus paying (throw (undefined_read "challengeId")))
          (fun thrown =>
             match thrown with
             | WalletLockedError =>
                 ret (PromptDecisionResult.mk prompt_locked (Some "Wallet locked"), [])
             | _ => ret (PromptDecisionResult.mk prompt_error (Some (error_message thrown)), [])
             end)
      else throw (undefined_read "origin")
  | Some entry =>
      let challenge := PendingChallenge.challenge entry in
      let tabId := PendingChallenge.tabId entry in
      let windowId := PendingChallenge.windowId entry in
      if PromptDecision.approve decision then
        try_catch
          (resolution ← withExtensionStatus paying (processPayment ethers challenge false);
           (match PromptDecision.alwaysAllow decision with
            | Some true =>
                updatedState ← getState false;
                policy ← match ExtensionState.policies updatedState
                                !! ChallengeDetails.origin challenge with
                          | Some p => ret p
                          | None => createDefaultPolicy (ChallengeDetails.origin challenge)
                          end;
                setState
                  (update_policies
                     (<[ChallengeDetails.origin challenge := allow_under_threshold policy]>
                        (ExtensionState.policies updatedState)));;
                ret tt
            | _ => ret tt
            end);;
           clearChallenge challengeId;;
           ret (PromptDecisionResult.mk prompt_success None,
                (notify_tab tabId challengeId resolution ++ remove_window windowId)%list))
          (fun thrown =>
             match thrown with
             | WalletLockedError =>
                 ret (PromptDecisionResult.mk prompt_locked (Some "Wallet locked"), [])
             | _ => ret (PromptDecisionResult.mk prompt_error (Some (error_message thrown)), [])
             end)
      else
        timestamp ← Date_now;
        let record :=
          PaymentRecord.mk challengeId (ChallengeDetails.origin challenge)
            (ChallengeDetails.endpoint challenge) (ChallengeDetails.amountUsd challenge)
            (ChallengeDetails.tokenSymbol challenge) timestamp denied false None None in
        recordPayment record;;
        setExtensionStatus idle;;
        clearChallenge challengeId;;
        ret (PromptDecisionResult.mk prompt_denied None,
             (notify_tab tabId challengeId (ChallengeResolution.mk deny_action None None None)
              ++ remove_window windowId)%list)
  end.

End PromptDecisions.

(** * Verified properties *)

(** ** Facts about JavaScript number comparison *)

Lemma SFleb_not_SFltb (x y : spec_float) :
  SFleb x y = true -> SFltb y x = false.
Proof.
  unfold SFleb, SFltb.
  destruct x as [sx|sx| |sx mx ex], y as [sy|sy| |sy my ey]; simpl;
    try (destruct sx); try (destruct sy); simpl; try congruence;
    rewrite (Z.compare_antisym ey ex);
    destruct (ey ?= ex) eqn:E; simpl; try congruence;
    pose proof (Pos.compare_cont_antisym my mx Eq) as A; simpl in A;
    change PosDef.Pos.compare_cont with Pos.compare_cont;
    destruct (Pos.compare_cont Eq my mx), (Pos.compare_cont Eq mx my);
    simpl in *; congruence.
Qed.

Lemma le_not_gt (a b : float) : JS.le a b = true -> JS.gt a b = false.
Proof.
  unfold JS.le, JS.gt. rewrite leb_spec, ltb_spec. apply SFleb_not_SFltb.
Qed.

(** ** Policy engine *)

Lemma PaymentStatus_eqb_success (s : PaymentStatus) :
  PaymentStatus_eqb s success = match s with success => true | _ => false end.
Proof. destruct s; reflexivity. Qed.

Lemma code_filter_is_spec_filter (now : Z) (record : PaymentRecord.t) :
  PaymentStatus_eqb (PaymentRecord.status record) success
  && PaymentRecord.autoApproved record
  && (now - 24 * 60 * 60 * 1000 <=? PaymentRecord.timestamp record)
  = PolicySpec.counts_towards_daily_cap now record.
Proof.
  unfold PolicySpec.counts_towards_daily_cap.
  rewrite PaymentStatus_eqb_success.
  change (24 * 60 * 60 * 1000) with 86400000.
  destruct (PaymentRecord.status record); reflexivity.
Qed.

(** The [filter]/[reduce] pipeline of [spentInLast24h] accumulates exactly
    the records that count, in history order. *)
Lemma fold_filter_sum_counted (now : Z) (l : list PaymentRecord.t) (acc : float) :
  fold_left (fun sum record => JS.add sum (PaymentRecord.amountUsd record))
    (List.filter
       (fun record =>
          PaymentStatus_eqb (PaymentRecord.status record) success
          && PaymentRecord.autoApproved record
          && (now - 24 * 60 * 60 * 1000 <=? PaymentRecord.timestamp record)) l)
    acc
  = PolicySpec.sum_counted now acc l.
Proof.
  revert acc. induction l as [|r l IH]; intros acc; [reflexivity|].
  cbn [List.filter PolicySpec.sum_counted].
  rewrite code_filter_is_spec_filter.
  destruct (PolicySpec.counts_towards_daily_cap now r); cbn [fold_left]; apply IH.
Qed.

Lemma spentInLast24h_spec (state : ExtensionState.t) (now : Z) :
  spentInLast24h state now
  = PolicySpec.sum_counted now 0%float (ExtensionState.history state).
Proof. unfold spentInLast24h. apply fold_filter_sum_counted. Qed.

(** C1: for every state (settings, site policies, payment history),
    challenge and clock value, [shouldAutoApprove] returns the decision of
    the six-rule precedence of the design document, applied to the
    settings, to the policy recorded for the challenge's origin (if any)
    and to the history: defer on a "deny" policy, else on an amount above
    the threshold, else on [promptRequired], else on a policy with
    [allowUnderThreshold = false], else on an exceeded positive lifetime
    cap, else on an exceeded positive daily cap over the successful
    auto-approved payments of the trailing 24 hours; approve otherwise. *)
Theorem shouldAutoApprove_follows_precedence
    (state : ExtensionState.t) (challenge : ChallengeDetails.t) (now : Z) :
  shouldAutoApprove state challenge now
  = PolicySpec.approves
      (PolicySpec.decide
         (ExtensionState.settings state)
         (ExtensionState.policies state !! ChallengeDetails.origin challenge)
         (ExtensionState.history state) now challenge).
Proof.
  unfold shouldAutoApprove, PolicySpec.decide.
  rewrite spentInLast24h_spec.
  set (policy := ExtensionState.policies state !! ChallengeDetails.origin challenge).
  fold (PolicySpec.site_denies policy).
  destruct (PolicySpec.site_denies policy); [reflexivity|].
  fold (PolicySpec.over_threshold (ExtensionState.settings state) challenge).
  destruct (PolicySpec.over_threshold _ challenge); [reflexivity|].
  fold (PolicySpec.prompt_required (ExtensionState.settings state)).
  destruct (PolicySpec.prompt_required _); [reflexivity|].
  fold (PolicySpec.under_threshold_disallowed policy).
  destruct (PolicySpec.under_threshold_disallowed policy); [reflexivity|].
  fold (PolicySpec.lifetime_cap_exceeded policy challenge).
  destruct (PolicySpec.lifetime_cap_exceeded policy challenge); [reflexivity|].
  fold (PolicySpec.daily_cap_exceeded (ExtensionState.settings state)
          (ExtensionState.history state) now challenge).
  destruct (PolicySpec.daily_cap_exceeded _ _ now challenge); reflexivity.
Qed.

(** C6, as stated, fails: with the default settings (threshold 0.05,
    daily cap 1, no prompt), no site policy at all, and two successful
    auto-approved payments of 0.5 in the last second, a challenge of 0.01
    is below the threshold and still deferred, by the daily cap. *)
Lemma under_threshold_deferred_by_daily_cap :
  let state := Sample.with_history
                 [Sample.paid "p1" 0.5%float (Sample.now - 1000);
                  Sample.paid "p2" 0.5%float (Sample.now - 500)] in
  let challenge := Sample.challenge 0.01%float in
  JS.le (ChallengeDetails.amountUsd challenge)
        (ExtensionSettings.thresholdUsd (ExtensionState.settings state)) = true
  /\ ExtensionSettings.promptRequired (ExtensionState.settings state) = false
  /\ ExtensionState.policies state !! ChallengeDetails.origin challenge = None
  /\ shouldAutoApprove state challenge Sample.now = false.
Proof. vm_compute. repeat split. Qed.

(** C6, amended: for every challenge with [amountUsd <= thresholdUsd],
    [promptRequired = false], and either no recorded site policy for the
    origin or a policy not in mode "deny" with [allowUnderThreshold = true]
    whose lifetime cap is unexceeded (null, not positive, or
    [lifetimeUsd + amountUsd <= capUsd]), and whose daily auto cap is
    unexceeded as well ([dailyAutoCapUsd] not positive, or the trailing
    24-hour auto-approved spend plus this amount at most the cap), the
    decision function approves. *)
Theorem under_threshold_within_caps_approves
    (state : ExtensionState.t) (challenge : ChallengeDetails.t) (now : Z) :
  let settings := ExtensionState.settings state in
  let amount := ChallengeDetails.amountUsd challenge in
  JS.le amount (ExtensionSettings.thresholdUsd settings) = true ->
  ExtensionSettings.promptRequired settings = false ->
  (ExtensionState.policies state !! ChallengeDetails.origin challenge = None
   \/ exists p,
        ExtensionState.policies state !! ChallengeDetails.origin challenge = Some p
        /\ SitePolicy.mode p <> deny
        /\ SitePolicy.allowUnderThreshold p = true
        /\ (SitePolicy.capUsd p = None
            \/ exists cap,
                 SitePolicy.capUsd p = Some cap
                 /\ (JS.gt cap 0%float = false
                     \/ JS.le (JS.add (SitePolicy.lifetimeUsd p) amount) cap = true))) ->
  (JS.gt (ExtensionSettings.dailyAutoCapUsd settings) 0%float = false
   \/ JS.le (JS.add (spentInLast24h state now) amount)
            (ExtensionSettings.dailyAutoCapUsd settings) = true) ->
  shouldAutoApprove state challenge now = true.
Proof.
  intros settings amount Hthr Hprompt Hpol Hdaily.
  assert (Hd : JS.gt (ExtensionSettings.dailyAutoCapUsd settings) 0%float
               && JS.gt (JS.add (spentInLast24h state now) amount)
                        (ExtensionSettings.dailyAutoCapUsd settings) = false).
  { destruct Hdaily as [H|H]; [now rewrite H|].
    rewrite (le_not_gt _ _ H). apply andb_false_r. }
  unfold shouldAutoApprove. fold settings amount.
  rewrite (le_not_gt _ _ Hthr), Hprompt, Hd.
  destruct Hpol as [Hnone | (p & Hp & Hmode & Hallow & Hcap)].
  - rewrite Hnone. reflexivity.
  - rewrite Hp, Hallow.
    destruct (SitePolicy.mode p); [|congruence]. simpl.
    destruct Hcap as [Hc | (cap & Hc & Hle)]; rewrite Hc; [reflexivity|].
    destruct Hle as [H|H]; [now rewrite H|].
    rewrite (le_not_gt _ _ H), andb_false_r. reflexivity.
Qed.

Lemma under_threshold_within_caps_approves_witness :
  shouldAutoApprove (Sample.with_policy Sample.allowing_policy)
    (Sample.challenge 0.01%float) Sample.now = true.
Proof.
  apply under_threshold_within_caps_approves.
  - vm_compute. reflexivity.
  - reflexivity.
  - right. exists Sample.allowing_policy. split; [vm_compute; reflexivity|].
    split; [discriminate|]. split; [reflexivity|].
    right. exists 5%float. split; [reflexivity|].
    right. vm_compute. reflexivity.
  - right. vm_compute. reflexivity.
Defined.

(** ** State store *)

(** What [getState] returns and does, case by case: nothing stored; no
    wallet; a stored plaintext key (removed on the spot); unlocked; locked. *)
Lemma getState_cases (includePrivateKey : bool) (w : World.t) :
  match World.stored w with
  | None =>
      getState includePrivateKey w = (Returned INITIAL_STATE, with_stored w INITIAL_STATE)
  | Some st =>
      match ExtensionState.wallet st with
      | None => getState includePrivateKey w = (Returned (mergeStored st), w)
      | Some wallet =>
          let locked := set_wallet (mergeStored st) (Some (without_privateKey wallet (Some 0))) in
          if truthy_string (WalletData.privateKey wallet) then
            getState includePrivateKey w
            = (Returned locked,
               with_runtime (with_stored (with_runtime w None 0) locked) None 0)
          else if truthy_string (World.runtimePrivateKey w)
                  && (World.clock w <? World.runtimeLockedUntil w) then
            getState includePrivateKey w
            = (Returned
                 (set_wallet (mergeStored st)
                    (Some (if includePrivateKey
                           then with_privateKey wallet (World.runtimePrivateKey w)
                                  (Some (World.runtimeLockedUntil w))
                           else without_privateKey wallet
                                  (Some (World.runtimeLockedUntil w))))),
               w)
          else
            getState includePrivateKey w = (Returned locked, with_runtime w None 0)
      end
  end.
Proof.
  unfold getState, bind, mbind, M_bind, bind, storage_get.
  destruct (World.stored w) as [st|] eqn:Hst; [|reflexivity].
  cbn [ExtensionState.wallet mergeStored].
  destruct (ExtensionState.wallet st) as [wallet|] eqn:Hw.
  - cbn zeta. destruct (truthy_string (WalletData.privateKey wallet)) eqn:Hk.
    + reflexivity.
    + unfold applyRuntimeWallet. cbn [ExtensionState.wallet mergeStored]. rewrite Hw.
      unfold mbind, M_bind, bind, Date_now, read_runtime. cbn.
      destruct (truthy_string (World.runtimePrivateKey w)
                && (World.clock w <? World.runtimeLockedUntil w)); cbn.
      * destruct includePrivateKey; reflexivity.
      * reflexivity.
  - unfold applyRuntimeWallet. cbn [ExtensionState.wallet mergeStored]. rewrite Hw.
    reflexivity.
Qed.

(** *** Rules for [steps] *)

Section Steps.

Context (R : World.t -> World.t -> Prop) `{!PreOrder R}.

Lemma steps_ret {A} (a : A) : steps R (ret a).
Proof. intros w. reflexivity. Qed.

Lemma steps_throw {A} (e : Err) : steps R (@throw A e).
Proof. intros w. reflexivity. Qed.

Lemma steps_lift {A} (o : Outcome A) : steps R (lift o).
Proof. intros w. reflexivity. Qed.

Lemma steps_Date_now : steps R Date_now.
Proof. intros w. reflexivity. Qed.

Lemma steps_storage_get : steps R storage_get.
Proof. intros w. reflexivity. Qed.

Lemma steps_read_runtime : steps R read_runtime.
Proof. intros w. reflexivity. Qed.

Lemma steps_bind {A B} (c : M A) (k : A -> M B) :
  steps R c -> (forall a, steps R (k a)) -> steps R (c ≫= k).
Proof.
  intros Hc Hk w. unfold mbind, M_bind, bind.
  specialize (Hc w). destruct (c w) as [[a|e] w1]; simpl in *; [|exact Hc].
  etransitivity; [exact Hc|apply Hk].
Qed.

Lemma steps_try_catch {A} (c : M A) (handler : Err -> M A) :
  steps R c -> (forall e, steps R (handler e)) -> steps R (try_catch c handler).
Proof.
  intros Hc Hh w. unfold try_catch.
  specialize (Hc w). destruct (c w) as [[a|e] w1]; simpl in *; [exact Hc|].
  etransitivity; [exact Hc|apply Hh].
Qed.

End Steps.

(** Takes a goal [steps R c] apart along the structure of [c]. *)
Ltac steps_structure :=
  repeat
    (intros;
     lazymatch goal with
     | |- steps _ (mbind _ _) => apply steps_bind
     | |- steps _ (ret _) => apply steps_ret
     | |- steps _ (throw _) => apply steps_throw
     | |- steps _ (lift _) => apply steps_lift
     | |- steps _ (try_catch _ _) => apply steps_try_catch
     | |- steps _ Date_now => apply steps_Date_now
     | |- steps _ storage_get => apply steps_storage_get
     | |- steps _ read_runtime => apply steps_read_runtime
     | |- steps _ (match ?x with _ => _ end) => destruct x
     | |- PreOrder _ => exact _
     | |- _ => fail
     end);
  intros.

(** *** Only documents without a private key are written *)

#[local] Instance wrote_no_privateKey_preorder : PreOrder wrote_no_privateKey.
Proof.
  split.
  - intros w. exists []. split; [reflexivity|constructor].
  - intros a b c (n1 & H1 & F1) (n2 & H2 & F2).
    exists (n2 ++ n1)%list. split.
    + rewrite H2, H1. apply app_assoc.
    + apply Forall_app. split; assumption.
Qed.

Lemma storage_set_clean (state : ExtensionState.t) :
  no_privateKey state -> steps wrote_no_privateKey (storage_set state).
Proof.
  intros H w. exists [state]. split; [reflexivity|]. constructor; [exact H|constructor].
Qed.

Lemma write_runtime_clean (privateKey : option string) (lockedUntil : Z) :
  steps wrote_no_privateKey (write_runtime privateKey lockedUntil).
Proof. intros w. exists []. split; [reflexivity|constructor]. Qed.

Lemma applyRuntimeWallet_clean (state : ExtensionState.t) (includePrivateKey : bool) :
  steps wrote_no_privateKey (applyRuntimeWallet state includePrivateKey).
Proof.
  unfold applyRuntimeWallet. steps_structure; try apply write_runtime_clean.
Qed.

Lemma getState_clean (includePrivateKey : bool) :
  steps wrote_no_privateKey (getState includePrivateKey).
Proof.
  unfold getState. steps_structure;
    try apply write_runtime_clean; try apply applyRuntimeWallet_clean;
    apply storage_set_clean; exact I || reflexivity.
Qed.

Lemma sanitized_has_no_privateKey (state : ExtensionState.t) :
  no_privateKey (set_wallet state (sanitizeWalletForPersist (ExtensionState.wallet state))).
Proof.
  unfold no_privateKey. destruct (ExtensionState.wallet state); simpl; [reflexivity|exact I].
Qed.

Lemma setState_clean (update : StateUpdate.t) : steps wrote_no_privateKey (setState update).
Proof.
  unfold setState, captureRuntimeWallet. steps_structure;
    try apply getState_clean; try apply write_runtime_clean.
  all: apply storage_set_clean, sanitized_has_no_privateKey.
Qed.

Lemma getState_returns (includePrivateKey : bool) (w : World.t) :
  exists state w', getState includePrivateKey w = (Returned state, w').
Proof.
  pose proof (getState_cases includePrivateKey w) as H.
  destruct (World.stored w) as [st|]; [|eauto].
  destruct (ExtensionState.wallet st) as [wallet|]; [|eauto].
  cbn zeta in H.
  destruct (truthy_string (WalletData.privateKey wallet)); [eauto|].
  destruct (truthy_string (World.runtimePrivateKey w)
            && (World.clock w <? World.runtimeLockedUntil w)); eauto.
Qed.

(** [setState] in closed form, given what its [getState] does. *)
Lemma setState_eq (update : StateUpdate.t) (w w1 : World.t) (current : ExtensionState.t) :
  getState false w = (Returned current, w1) ->
  let next := apply_update update current in
  setState update w
  = (Returned next,
     with_stored
       (match StateUpdate.wallet update with
        | Some _ =>
            with_runtime w1
              (match ExtensionState.wallet next with
               | Some wallet => WalletData.privateKey wallet
               | None => None
               end)
              (match ExtensionState.wallet next with
               | Some wallet => default 0 (WalletData.lockedUntil wallet)
               | None => 0
               end)
        | None => w1
        end)
       (set_wallet next (sanitizeWalletForPersist (ExtensionState.wallet next)))).
Proof.
  intros H next. unfold setState, mbind, M_bind, bind. rewrite H.
  fold next. destruct (StateUpdate.wallet update) as [wallet|]; [|reflexivity].
  unfold captureRuntimeWallet, write_runtime, storage_set, ret.
  destruct (ExtensionState.wallet next) as [nw|]; [|reflexivity].
  destruct (WalletData.lockedUntil nw); reflexivity.
Qed.

(** C2, as stated, fails in its second half: a payment signed while the
    wallet is unlocked ends with [setState({ wallet: { ...wallet,
    lockedUntil: renewedUntil } })], which persists the renewed expiry
    (the clock plus the 15 configured minutes), not 0. *)
Lemma payment_persists_renewed_lockedUntil :
  stored_lockedUntil
    (snd (processPayment Sample.signing (Sample.challenge 0.01%float) true
            Sample.unlocked_world))
  = Some (Some (Sample.now + 15 * 60 * 1000)).
Proof. vm_compute. reflexivity. Qed.

(** C2, amended: for every update and world, [setState] returns; every
    document it hands to the storage API (its own write and those of the
    [getState] it starts with) has a wallet record without [privateKey];
    the document stored in the end is the returned state with only that
    member removed, so the stored [lockedUntil] is the one of the wallet
    written (the unlock expiry after configure, unlock and a payment, 0
    after a lock), not always 0. *)
Theorem setState_persists_without_privateKey (update : StateUpdate.t) (w : World.t) :
  exists next,
    fst (setState update w) = Returned next
    /\ wrote_no_privateKey w (snd (setState update w))
    /\ World.stored (snd (setState update w))
       = Some (set_wallet next (sanitizeWalletForPersist (ExtensionState.wallet next)))
    /\ stored_lockedUntil (snd (setState update w))
       = option_map WalletData.lockedUntil (ExtensionState.wallet next).
Proof.
  destruct (getState_returns false w) as (current & w1 & Hget).
  exists (apply_update update current).
  split; [|split; [apply setState_clean|split]].
  - rewrite (setState_eq update w w1 current Hget). reflexivity.
  - rewrite (setState_eq update w w1 current Hget). reflexivity.
  - rewrite (setState_eq update w w1 current Hget).
    generalize (apply_update update current). intros next.
    unfold stored_lockedUntil. cbn [snd with_stored World.stored].
    destruct next as [? [wallet|] ? ? ? ? ? ? ?]; reflexivity.
Qed.

(** ** Pending challenge store *)

#[local] Instance kept_dec (now : Z) (entry : string * PendingChallenge.t) :
  Decision (kept now entry).
Proof. unfold kept. apply _. Defined.

(** The loop of [pruneExpiredChallenges] computes the entries that are
    kept, and leaves [changed] false only if it kept them all. *)
Lemma prune_loop_spec (now : Z) (source : gmap string PendingChallenge.t) :
  snd (prune_loop now source) = filter (kept now) source
  /\ (fst (prune_loop now source) = false -> snd (prune_loop now source) = source).
Proof.
  unfold prune_loop.
  apply (map_fold_weak_ind
           (fun acc m => snd acc = filter (kept now) m /\ (fst acc = false -> snd acc = m))).
  - split; [symmetry; apply map_filter_empty|reflexivity].
  - intros id entry m acc Hfresh [IH1 IH2].
    destruct (expired now entry) eqn:He; simpl.
    + split; [|discriminate].
      rewrite map_filter_insert_False by (unfold kept; simpl; congruence).
      rewrite delete_id by exact Hfresh. exact IH1.
    + split.
      * rewrite map_filter_insert_True by exact He. now rewrite IH1.
      * intros Hc. now rewrite (IH2 Hc).
Qed.

(** [getState] neither changes the pending challenges of the stored
    document nor the clock, and returns them. *)
Lemma getState_pending (includePrivateKey : bool) (w : World.t) (st : ExtensionState.t) :
  World.stored w = Some st ->
  exists state w',
    getState includePrivateKey w = (Returned state, w')
    /\ ExtensionState.pendingChallenges state = ExtensionState.pendingChallenges st
    /\ (exists st', World.stored w' = Some st')
    /\ stored_pending w' = ExtensionState.pendingChallenges st
    /\ World.clock w' = World.clock w.
Proof.
  intros Hst. pose proof (getState_cases includePrivateKey w) as H.
  unfold stored_pending. rewrite Hst in H.
  destruct (ExtensionState.wallet st) as [wallet|].
  - cbn zeta in H. destruct (truthy_string (WalletData.privateKey wallet)).
    + eexists _, _. split; [exact H|]. simpl. eauto.
    + destruct (truthy_string (World.runtimePrivateKey w)
                && (World.clock w <? World.runtimeLockedUntil w)).
      * eexists _, _. split; [exact H|]. rewrite Hst. simpl. eauto.
      * eexists _, _. split; [exact H|]. simpl. rewrite Hst. eauto.
  - eexists _, _. split; [exact H|]. rewrite Hst. simpl. eauto.
Qed.

Lemma setState_pending (pending : gmap string PendingChallenge.t) (w : World.t)
    (st : ExtensionState.t) :
  World.stored w = Some st ->
  exists state w',
    setState (update_pendingChallenges pending) w = (Returned state, w')
    /\ (exists st', World.stored w' = Some st')
    /\ stored_pending w' = pending
    /\ World.clock w' = World.clock w.
Proof.
  intros Hst.
  destruct (getState_pending false w st Hst) as (current & w1 & Hget & _ & _ & _ & Hclock).
  eexists _, _. split; [apply (setState_eq _ w w1 current Hget)|].
  unfold stored_pending. simpl. eauto.
Qed.

(** [getPendingChallenges] returns exactly the entries that are kept at
    the time of the call, and leaves exactly those in the store. *)
Lemma getPendingChallenges_spec (w : World.t) (st : ExtensionState.t) :
  World.stored w = Some st ->
  exists w',
    getPendingChallenges w
    = (Returned (filter (kept (World.clock w)) (ExtensionState.pendingChallenges st)), w')
    /\ stored_pending w' = filter (kept (World.clock w)) (ExtensionState.pendingChallenges st)
    /\ World.clock w' = World.clock w.
Proof.
  intros Hst.
  destruct (getState_pending false w st Hst)
    as (s1 & w1 & Hget1 & Hp1 & (st1 & Hst1) & Hsp1 & Hc1).
  destruct (prune_loop_spec (World.clock w) (ExtensionState.pendingChallenges st))
    as [Hpruned Hsame].
  assert (Hprune : exists w2 st2,
             pruneExpiredChallenges w = (Returned tt, w2)
             /\ World.stored w2 = Some st2
             /\ stored_pending w2
                = filter (kept (World.clock w)) (ExtensionState.pendingChallenges st)
             /\ World.clock w2 = World.clock w).
  { unfold pruneExpiredChallenges, mbind, M_bind, bind. rewrite Hget1.
    unfold Date_now. rewrite Hc1, Hp1.
    destruct (prune_loop (World.clock w) (ExtensionState.pendingChallenges st))
      as [changed pruned] eqn:Hloop.
    simpl in Hpruned, Hsame. destruct changed.
    - destruct (setState_pending pruned w1 st1 Hst1) as (s & w2 & Hset & (st2 & Hst2) & Hsp2 & Hc2).
      rewrite Hset. exists w2, st2. repeat split; [exact Hst2|congruence|congruence].
    - exists w1, st1. repeat split; [exact Hst1| |exact Hc1].
      rewrite Hsp1, <- Hpruned. symmetry. apply Hsame. reflexivity. }
  destruct Hprune as (w2 & st2 & Hprune & Hst2 & Hsp2 & Hc2).
  destruct (getState_pending false w2 st2 Hst2)
    as (s3 & w3 & Hget3 & Hp3 & _ & Hsp3 & Hc3).
  exists w3. unfold getPendingChallenges, mbind, M_bind, bind.
  rewrite Hprune, Hget3. unfold stored_pending in Hsp2. rewrite Hst2 in Hsp2.
  rewrite Hp3, Hsp3, Hsp2, Hc3, Hc2. auto.
Qed.

Lemma getPendingChallenge_spec (id : string) (w : World.t) (st : ExtensionState.t) :
  World.stored w = Some st ->
  fst (getPendingChallenge id w)
  = Returned (filter (kept (World.clock w)) (ExtensionState.pendingChallenges st) !! id)
  /\ stored_pending (snd (getPendingChallenge id w))
     = filter (kept (World.clock w)) (ExtensionState.pendingChallenges st).
Proof.
  intros Hst. destruct (getPendingChallenges_spec w st Hst) as (w' & Hget & Hsp & _).
  unfold getPendingChallenge, mbind, M_bind, bind. rewrite Hget. simpl. auto.
Qed.

(** C5, as stated, fails for an entry whose [createdAt] is 0: the pruning
    test starts with [entry.createdAt &&], so a challenge recorded while
    the clock reads 0 is still returned eleven minutes later. *)
Lemma entry_created_at_zero_survives_ttl :
  let recorded :=
    snd (ensureChallengeStored (Sample.challenge 0.01%float) (Some 3)
           None (at_time Sample.locked_world 0)) in
  stored_pending recorded !! "ch-1" = Some (Sample.pending_entry 0)
  /\ fst (getPendingChallenge "ch-1" (at_time recorded (0 + 11 * 60 * 1000)))
     = Returned (Some (Sample.pending_entry 0)).
Proof. vm_compute. split; reflexivity. Qed.

(** C5, amended: every read of the pending-challenge store first prunes
    all entries with a non-zero [createdAt] whose age exceeds the 10-minute
    TTL.  For every stored entry created at a non-zero time [t0], [get]
    returns it as long as the clock is at most [t0] plus the TTL (so at
    [t0] + 9 minutes) and reports it absent, and removed from the store,
    once the clock is past that (so at [t0] + 11 minutes); and after any
    read no entry with a non-zero [createdAt] older than the TTL is left
    in the store. *)
Theorem pending_get_prunes_expired
    (w : World.t) (st : ExtensionState.t) (id : string) (entry : PendingChallenge.t) :
  World.stored w = Some st ->
  ExtensionState.pendingChallenges st !! id = Some entry ->
  PendingChallenge.createdAt entry <> 0 ->
  let t0 := PendingChallenge.createdAt entry in
  let after := snd (getPendingChallenge id w) in
  (World.clock w <= t0 + PENDING_CHALLENGE_TTL_MS ->
   fst (getPendingChallenge id w) = Returned (Some entry))
  /\ (t0 + PENDING_CHALLENGE_TTL_MS < World.clock w ->
      fst (getPendingChallenge id w) = Returned None
      /\ stored_pending after !! id = None)
  /\ (forall id' entry',
        stored_pending after !! id' = Some entry' ->
        PendingChallenge.createdAt entry' = 0
        \/ World.clock w - PendingChallenge.createdAt entry' <= PENDING_CHALLENGE_TTL_MS).
Proof.
  intros Hst Hentry Hcreated t0 after.
  destruct (getPendingChallenge_spec id w st Hst) as [Hget Hafter].
  fold after in Hafter. rewrite Hget, Hafter.
  split; [|split].
  - intros Hfresh. f_equal. apply map_lookup_filter_Some. split; [exact Hentry|].
    unfold kept, expired. simpl. fold t0.
    apply andb_false_iff. right. apply Z.ltb_ge. lia.
  - intros Hold.
    assert (Hgone : filter (kept (World.clock w)) (ExtensionState.pendingChallenges st) !! id
                    = None).
    { apply map_lookup_filter_None. right. intros entry' Hentry'.
      assert (entry' = entry) by congruence. subst entry'.
      unfold kept, expired. simpl. fold t0.
      apply not_false_iff_true, andb_true_iff. split.
      - apply negb_true_iff, Z.eqb_neq. exact Hcreated.
      - apply Z.ltb_lt. lia. }
    rewrite Hgone. auto.
  - intros id' entry' Hin. apply map_lookup_filter_Some in Hin as [_ Hkept].
    unfold kept, expired in Hkept. simpl in Hkept.
    apply andb_false_iff in Hkept as [Hz|Hage].
    + left. apply negb_false_iff, Z.eqb_eq in Hz. exact Hz.
    + right. apply Z.ltb_ge in Hage. exact Hage.
Qed.

Lemma pending_get_prunes_expired_witness :
  fst (getPendingChallenge "ch-1"
         (Sample.pending_world Sample.now (Sample.now + 9 * 60 * 1000)))
  = Returned (Some (Sample.pending_entry Sample.now))
  /\ fst (getPendingChallenge "ch-1"
            (Sample.pending_world Sample.now (Sample.now + 11 * 60 * 1000)))
     = Returned None.
Proof.
  split.
  - apply (pending_get_prunes_expired
             (Sample.pending_world Sample.now (Sample.now + 9 * 60 * 1000)) _ "ch-1"
             (Sample.pending_entry Sample.now) eq_refl).
    + vm_compute. reflexivity.
    + vm_compute. discriminate.
    + vm_compute. discriminate.
  - apply (pending_get_prunes_expired
             (Sample.pending_world Sample.now (Sample.now + 11 * 60 * 1000)) _ "ch-1"
             (Sample.pending_entry Sample.now) eq_refl).
    + vm_compute. reflexivity.
    + vm_compute. discriminate.
    + vm_compute. reflexivity.
Defined.

(** ** Rules for [triple] *)

Lemma triple_ret {A} (P : World.t -> Prop) (a : A) (Q : Outcome A -> World.t -> Prop) :
  (forall w, P w -> Q (Returned a) w) -> triple P (ret a) Q.
Proof. intros H w Hw. apply H, Hw. Qed.

Lemma triple_throw {A} (P : World.t -> Prop) (e : Err) (Q : Outcome A -> World.t -> Prop) :
  (forall w, P w -> Q (Thrown e) w) -> triple P (throw e) Q.
Proof. intros H w Hw. apply H, Hw. Qed.

Lemma triple_bind {A B} (P : World.t -> Prop) (Pa : A -> World.t -> Prop)
    (c : M A) (k : A -> M B) (Q : Outcome B -> World.t -> Prop) :
  triple P c (fun outcome w' =>
                match outcome with
                | Returned a => Pa a w'
                | Thrown e => Q (Thrown e) w'
                end) ->
  (forall a, triple (Pa a) (k a) Q) ->
  triple P (c ≫= k) Q.
Proof.
  intros Hc Hk w Hw. specialize (Hc w Hw).
  unfold mbind, M_bind, bind. destruct (c w) as [[a|e] w1]; simpl in *.
  - apply (Hk a w1 Hc).
  - exact Hc.
Qed.

Lemma triple_try_catch {A} (P : World.t -> Prop) (Pe : Err -> World.t -> Prop)
    (c : M A) (handler : Err -> M A) (Q : Outcome A -> World.t -> Prop) :
  triple P c (fun outcome w' =>
                match outcome with
                | Returned a => Q (Returned a) w'
                | Thrown e => Pe e w'
                end) ->
  (forall e, triple (Pe e) (handler e) Q) ->
  triple P (try_catch c handler) Q.
Proof.
  intros Hc Hh w Hw. specialize (Hc w Hw).
  unfold try_catch. destruct (c w) as [[a|e] w1]; simpl in *.
  - exact Hc.
  - apply (Hh e w1 Hc).
Qed.

Lemma triple_weaken {A} (P : World.t -> Prop) (c : M A)
    (Q Q' : Outcome A -> World.t -> Prop) :
  triple P c Q -> (forall outcome w, Q outcome w -> Q' outcome w) -> triple P c Q'.
Proof. intros H HQ w Hw. apply HQ, H, Hw. Qed.

(** Sequencing after a function that returns and keeps the invariant. *)
Lemma triple_after {A B} (I : World.t -> Prop) (c : M A) (k : A -> M B)
    (Q : Outcome B -> World.t -> Prop) :
  returns_keeping I c -> (forall a, triple I (k a) Q) -> triple I (c ≫= k) Q.
Proof.
  intros Hc Hk. apply (triple_bind I (fun _ => I)); [|exact Hk].
  intros w Hw. destruct (Hc w Hw) as [[a Ha] HI]. rewrite Ha. exact HI.
Qed.

Lemma returns_keeping_ret {A} (I : World.t -> Prop) (a : A) : returns_keeping I (ret a).
Proof. intros w Hw. split; [eexists; reflexivity|exact Hw]. Qed.

Lemma returns_keeping_bind {A B} (I : World.t -> Prop) (c : M A) (k : A -> M B) :
  returns_keeping I c -> (forall a, returns_keeping I (k a)) -> returns_keeping I (c ≫= k).
Proof. intros Hc Hk. apply triple_after; assumption. Qed.

Lemma returns_keeping_Date_now (I : World.t -> Prop) : returns_keeping I Date_now.
Proof. intros w Hw. split; [eexists; reflexivity|exact Hw]. Qed.

(** A handler that swallows what its block throws. *)
Lemma returns_keeping_try_catch {A} (I : World.t -> Prop) (c : M A) (handler : Err -> M A) :
  triple I c (fun _ w' => I w') ->
  (forall e, returns_keeping I (handler e)) ->
  returns_keeping I (try_catch c handler).
Proof.
  intros Hc Hh. apply (triple_try_catch I (fun _ => I)).
  - intros w Hw. specialize (Hc w Hw). destruct (fst (c w)); [|exact Hc].
    split; [eexists; reflexivity|exact Hc].
  - exact Hh.
Qed.

(** Takes a goal [returns_keeping I c] apart along the structure of [c]. *)
Ltac returns_structure :=
  repeat
    (intros;
     lazymatch goal with
     | |- returns_keeping _ (mbind _ _) => apply returns_keeping_bind
     | |- returns_keeping _ (ret _) => apply returns_keeping_ret
     | |- returns_keeping _ Date_now => apply returns_keeping_Date_now
     | |- returns_keeping _ (match ?x with _ => _ end) => destruct x
     | |- returns_keeping _ (let '(_, _) := ?x in _) => destruct x
     | |- _ => fail
     end);
  intros.

(** ** The locked wallet *)

Lemma getState_locked (includePrivateKey : bool) (w : World.t)
    (st : ExtensionState.t) (wallet : WalletData.t) :
  World.stored w = Some st ->
  ExtensionState.wallet st = Some wallet ->
  truthy_string (World.runtimePrivateKey w) = false
  \/ World.runtimeLockedUntil w <= World.clock w ->
  exists w',
    getState includePrivateKey w
    = (Returned (set_wallet (mergeStored st) (Some (without_privateKey wallet (Some 0)))), w')
    /\ locked_with_wallet w'
    /\ World.clock w' = World.clock w.
Proof.
  intros Hst Hw Hlocked. pose proof (getState_cases includePrivateKey w) as H.
  rewrite Hst, Hw in H. cbn zeta in H.
  assert (Hno : truthy_string (World.runtimePrivateKey w)
                && (World.clock w <? World.runtimeLockedUntil w) = false).
  { destruct Hlocked as [Hk|Ht]; [now rewrite Hk|].
    apply andb_false_iff. right. apply Z.ltb_ge. exact Ht. }
  rewrite Hno in H.
  destruct (truthy_string (WalletData.privateKey wallet)).
  - eexists. split; [exact H|]. split; [|reflexivity].
    split; [|left; reflexivity]. eexists _, _. split; reflexivity.
  - eexists. split; [exact H|]. split; [|reflexivity].
    split; [|left; reflexivity]. exists st, wallet. split; assumption.
Qed.

Lemma getState_keeps_locked (includePrivateKey : bool) :
  returns_keeping locked_with_wallet (getState includePrivateKey).
Proof.
  intros w [(st & wallet & Hst & Hw) Hlocked].
  destruct (getState_locked includePrivateKey w st wallet Hst Hw Hlocked) as (w' & H & HI & _).
  rewrite H. split; [eexists; reflexivity|exact HI].
Qed.

(** An update that leaves the wallet alone, or writes a wallet record
    without a key, keeps the wallet locked. *)
Lemma setState_keeps_locked (update : StateUpdate.t) :
  (StateUpdate.wallet update = None
   \/ exists wallet, StateUpdate.wallet update = Some (Some wallet)
                     /\ WalletData.privateKey wallet = None) ->
  returns_keeping locked_with_wallet (setState update).
Proof.
  intros Hupdate w [(st & wallet & Hst & Hw) Hlocked].
  destruct (getState_locked false w st wallet Hst Hw Hlocked)
    as (w1 & Hget & [(st1 & wallet1 & Hst1 & Hw1) Hlocked1] & Hclock).
  rewrite (setState_eq update w w1 _ Hget).
  split; [eexists; reflexivity|]. cbn [snd].
  destruct Hupdate as [Hnone|(nw & Hsome & Hkey)].
  - rewrite Hnone. split; [|exact Hlocked1].
    eexists _, _. split; [reflexivity|]. unfold apply_update. rewrite Hnone. reflexivity.
  - rewrite Hsome. split.
    + eexists _, _. split; [reflexivity|]. unfold apply_update. rewrite Hsome. reflexivity.
    + left. unfold apply_update. rewrite Hsome. simpl. rewrite Hkey. reflexivity.
Qed.

Lemma updateSettings_keeps_locked (settings : SettingsPatch.t) :
  returns_keeping locked_with_wallet (updateSettings settings).
Proof.
  unfold updateSettings. returns_structure.
  - apply getState_keeps_locked.
  - apply setState_keeps_locked. left. reflexivity.
Qed.

Lemma setExtensionStatus_keeps_locked (status : ExtensionStatus) :
  returns_keeping locked_with_wallet (setExtensionStatus status).
Proof.
  unfold setExtensionStatus. returns_structure.
  apply setState_keeps_locked. left. reflexivity.
Qed.

Lemma pruneExpiredChallenges_keeps_locked :
  returns_keeping locked_with_wallet pruneExpiredChallenges.
Proof.
  unfold pruneExpiredChallenges. returns_structure.
  - apply getState_keeps_locked.
  - apply setState_keeps_locked. left. reflexivity.
Qed.

Lemma getPendingChallenges_keeps_locked :
  returns_keeping locked_with_wallet getPendingChallenges.
Proof.
  unfold getPendingChallenges. returns_structure.
  - apply pruneExpiredChallenges_keeps_locked.
  - apply getState_keeps_locked.
Qed.

Lemma ensureChallengeStored_keeps_locked (challenge : ChallengeDetails.t)
    (tabId windowId : option Z) :
  returns_keeping locked_with_wallet (ensureChallengeStored challenge tabId windowId).
Proof.
  unfold ensureChallengeStored, savePendingChallenges. returns_structure.
  - apply getPendingChallenges_keeps_locked.
  - apply setState_keeps_locked. left. reflexivity.
Qed.

(** With no valid transient secret, [processPayment] throws
    [WalletLockedError] (after persisting the locked wallet). *)
Lemma processPayment_locked (ethers : Ethers.t) (challenge : ChallengeDetails.t)
    (autoApproved : bool) :
  triple locked_with_wallet (processPayment ethers challenge autoApproved)
    (fun outcome w' => outcome = Thrown WalletLockedError /\ locked_with_wallet w').
Proof.
  intros w [(st & wallet & Hst & Hw) Hlocked].
  destruct (getState_locked true w st wallet Hst Hw Hlocked) as (w1 & Hget & HI1 & Hclock).
  unfold processPayment, mbind, M_bind, bind. rewrite Hget.
  cbn [set_wallet ExtensionState.wallet Date_now without_privateKey WalletData.privateKey
       truthy_string negb orb].
  pose proof (setState_keeps_locked
                (update_wallet
                   (Some (with_privateKey (without_privateKey wallet (Some 0)) None (Some 0))))) as Hset.
  specialize (Hset (or_intror (ex_intro _ _ (conj eq_refl eq_refl))) w1 HI1).
  destruct Hset as [[next Hnext] HI2].
  destruct (setState _ w1) as [outcome w2]. simpl in Hnext, HI2. subst outcome.
  split; [reflexivity|exact HI2].
Qed.

Lemma withExtensionStatus_locked {T} (status : ExtensionStatus) (fn : M T) :
  triple locked_with_wallet fn
    (fun outcome w' => outcome = Thrown WalletLockedError /\ locked_with_wallet w') ->
  triple locked_with_wallet (withExtensionStatus status fn)
    (fun outcome w' => outcome = Thrown WalletLockedError /\ locked_with_wallet w').
Proof.
  intros Hfn. unfold withExtensionStatus.
  apply triple_after; [apply setExtensionStatus_keeps_locked|intros _].
  apply (triple_try_catch _ (fun e w' => e = WalletLockedError /\ locked_with_wallet w')).
  - apply (triple_bind _ (fun _ _ => False)).
    + intros w Hw. destruct (Hfn w Hw) as [Ho HI]. rewrite Ho. split; [reflexivity|exact HI].
    + intros a w [].
  - intros e.
    apply (triple_bind _ (fun _ w' => e = WalletLockedError /\ locked_with_wallet w')).
    + intros w [He Hw]. destruct (getState_keeps_locked false w Hw) as [[s Hs] HI].
      rewrite Hs. split; assumption.
    + intros current.
      apply (triple_bind _ (fun _ w' => e = WalletLockedError /\ locked_with_wallet w')).
      * intros w [He Hw].
        destruct (ExtensionStatus_eqb (ExtensionState.extensionStatus current) status).
        -- destruct (setExtensionStatus_keeps_locked idle w Hw) as [[u Hu] HI].
           rewrite Hu. split; assumption.
        -- split; assumption.
      * intros _. apply triple_throw. intros w [He Hw]. subst e. split; [reflexivity|exact Hw].
Qed.

(** ** The unlocked wallet *)




#[local] Instance same_store_preorder : PreOrder same_store.
Proof.
  split.
  - intros w. repeat split.
  - intros a b c (H1 & H2 & H3 & H4) (H5 & H6 & H7 & H8).
    repeat split; congruence.
Qed.





(** ** Authorization builder *)

Lemma randomBytes_length (n : nat) (w : World.t) :
  exists bytes, fst (randomBytes n w) = Returned bytes /\ length bytes = n.
Proof.
  eexists. split; [reflexivity|]. now rewrite length_map, length_seq.
Qed.

(** With a non-blank key that the signer accepts and signs with, the
    authorization that is signed has [from] = the wallet address, [to] =
    the challenge's seller, [value] = the challenge's [amountAtomic],
    [validAfter] = now - 5 and [validBefore] = now + 120 in seconds (now
    being the clock in whole seconds), 125 seconds apart, and as nonce
    the hexadecimal form of 32 bytes drawn from the random source. What
    comes back depends on [btoa]: where it returns, the payment id and
    the base64 encoding of the JSON text of [{x402Version, scheme:
    "exact", network, payload: {authorization, signature}}]; where it
    throws, the signature is dropped and [createAuthorization] throws. *)
Lemma createAuthorization_signs_then_encodes
    (ethers : Ethers.t) (wallet : WalletData.t) (settings : ExtensionSettings.t)
    (challenge : ChallengeDetails.t) (w : World.t) (key signer signature : string) :
  let now := World.clock w / 1000 in
  let bytes := map (World.entropy w) (seq 0 32) in
  let authorization :=
    Authorization.mk
      (WalletData.address wallet)
      (ChallengeDetails.seller challenge)
      (ChallengeDetails.amountAtomic challenge)
      (JS.digits_of_Z (now - 5))
      (JS.digits_of_Z (now + 120))
      (hexlify bytes) in
  let domain :=
    TypedDomain.mk
      (default "USD Coin" (ChallengeDetails.tokenName challenge))
      (default "2" (ChallengeDetails.tokenVersion challenge))
      (ChallengeDetails.chainId challenge)
      (ChallengeDetails.tokenAddress challenge) in
  let headerJson :=
    JSON.stringify
      (JObject
         [("x402Version",
           JNumber (JS.number_of_Z (snd (normalizeNetworkDescriptor challenge settings))));
          ("scheme", JString "exact");
          ("network", JString (fst (normalizeNetworkDescriptor challenge settings)));
          ("payload",
           JObject
             [("authorization",
               JObject
                 [("from", JString (WalletData.address wallet));
                  ("to", JString (ChallengeDetails.seller challenge));
                  ("value", JString (ChallengeDetails.amountAtomic challenge));
                  ("validAfter", JString (JS.digits_of_Z (now - 5)));
                  ("validBefore", JString (JS.digits_of_Z (now + 120)));
                  ("nonce", JString (hexlify bytes))]);
              ("signature", JString signature)])]) in
  WalletData.privateKey wallet = Some key ->
  JS.is_empty (JS.trim key) = false ->
  Ethers.walletAddress ethers (JS.trim key) = Returned signer ->
  Ethers.signTypedData ethers (JS.trim key) domain authorization = Returned signature ->
  fst (createAuthorization ethers wallet settings challenge w)
  = match Base64.btoa headerJson with
    | Some headerValue => Returned (ChallengeDetails.challengeId challenge, headerValue)
    | None => Thrown InvalidCharacterError
    end
  /\ (now + 120) - (now - 5) = 125
  /\ length bytes = 32%nat.
Proof.
  intros now bytes authorization domain headerJson Hkey Hnonblank Hsigner Hsign.
  split; [|split; [lia|subst bytes; now rewrite length_map, length_seq]].
  unfold createAuthorization. rewrite Hkey, Hnonblank.
  unfold mbind, M_bind, bind, lift. rewrite Hsigner.
  cbn [Date_now randomBytes fst snd].
  fold now bytes.
  replace (match ChallengeDetails.tokenName challenge with
           | Some n => n
           | None => "USD Coin"
           end) with (default "USD Coin" (ChallengeDetails.tokenName challenge))
    by (destruct (ChallengeDetails.tokenName challenge); reflexivity).
  replace (match ChallengeDetails.tokenVersion challenge with
           | Some v => v
           | None => "2"
           end) with (default "2" (ChallengeDetails.tokenVersion challenge))
    by (destruct (ChallengeDetails.tokenVersion challenge); reflexivity).
  fold authorization domain. rewrite Hsign.
  subst headerJson.
  destruct (normalizeNetworkDescriptor challenge settings) as [descriptor version].
  cbn [fst snd]. unfold encodeBase64, xPaymentHeaderObj.
  destruct (Base64.btoa _); reflexivity.
Qed.

(** The worked example: an Amoy challenge for 0.01 USD, signed at
    1700000000 seconds. *)
Example retry_header_of_the_sample_challenge :
  fst (createAuthorization Sample.signing Sample.unlocked_wallet defaultSettings
         (Sample.challenge 0.01%float) Sample.unlocked_world)
  = match
      Base64.btoa
        (JSON.stringify
           (JObject
              [("x402Version", JNumber 2%float);
               ("scheme", JString "exact");
               ("network", JString "eip155:80002");
               ("payload",
                JObject
                  [("authorization",
                    JObject
                      [("from", JString "0x2222222222222222222222222222222222222222");
                       ("to", JString "0x1111111111111111111111111111111111111111");
                       ("value", JString "10000");
                       ("validAfter", JString "1699999995");
                       ("validBefore", JString "1700000120");
                       ("nonce",
                        JString
                          "0x2a2a2a2a2a2a2a2a2a2a2a2a2a2a2a2a2a2a2a2a2a2a2a2a2a2a2a2a2a2a2a2a")]);
                   ("signature", JString "0xsigned")])]))
    with
    | Some headerValue => Returned ("ch-1", headerValue)
    | None => Thrown InvalidCharacterError
    end.
Proof.
  exact (proj1 (createAuthorization_signs_then_encodes Sample.signing Sample.unlocked_wallet
                  defaultSettings (Sample.challenge 0.01%float) Sample.unlocked_world
                  "0xkey" "0x2222222222222222222222222222222222222222" "0xsigned"
                  eq_refl eq_refl eq_refl eq_refl)).
Qed.


Lemma string_length_append (s1 s2 : string) :
  Str.length (s1 ++ s2) = (Str.length s1 + Str.length s2)%nat.
Proof. induction s1 as [|c s1 IH]; [reflexivity|]. simpl. now rewrite IH. Qed.

Lemma concat_pairs_length {A} (f : A -> string) (l : list A) :
  (forall a, Str.length (f a) = 2%nat) ->
  Str.length (Str.concat "" (map f l)) = (2 * length l)%nat.
Proof.
  intros Hf. induction l as [|a l IH]; [reflexivity|].
  cbn [map Str.concat]. destruct (map f l) as [|s rest] eqn:Hm.
  - destruct l; [|discriminate]. rewrite Hf. reflexivity.
  - rewrite string_length_append, Hf.
    change ("" ++ Str.concat "" (s :: rest)) with (Str.concat "" (s :: rest)).
    rewrite IH. cbn [length]. lia.
Qed.

(** The nonce is ["0x"] and two hexadecimal digits per byte. *)
Lemma hexlify_length (bytes : list Byte.byte) :
  Str.length (hexlify bytes) = (2 + 2 * length bytes)%nat.
Proof.
  unfold hexlify. rewrite string_length_append.
  rewrite concat_pairs_length by reflexivity. reflexivity.
Qed.

(** The header of the worked example read back: base64-decoded and parsed,
    it is the object that was encoded. *)
Example retry_header_reads_back :
  match fst (createAuthorization Sample.signing Sample.unlocked_wallet defaultSettings
               (Sample.challenge 0.01%float) Sample.unlocked_world) with
  | Returned (_, header) =>
      match Base64.atob header with
      | Some text => option_map (JSON.member "scheme") (JSON.parse text)
      | None => None
      end
  | Thrown _ => None
  end = Some (Some (JString "exact")).
Proof. vm_compute. reflexivity. Qed.

(** ** Challenge parser *)

(** C3 fails on the code for the dedicated header: [fromJsonChallenge]
    checks [typeof seller !== "string"] and never looks at the amount, so
    a JSON challenge with an empty seller and an empty amount is returned
    as a record, where the legacy headers and the auth-challenge
    parameters are tested with [!seller] and [!atomic] (the body parser
    likewise tests [!payTo] and [!amountAtomic]). *)
Example json_challenge_with_empty_seller_is_returned :
  option_map
    (fun challenge =>
       (ChallengeDetails.seller challenge, ChallengeDetails.amountAtomic challenge,
        ChallengeDetails.tokenAddress challenge))
    (parseChallengeHeaders Sample.unicode Sample.empty_seller_response Sample.request "uuid-1")
  = Some ("", "", JString "0x3c499c542cEF5E3811e1192ce70d8cC03d5c3359").
Proof. vm_compute. reflexivity. Qed.

Lemma truthy_string_spec (s : option string) :
  truthy_string s = true <-> exists v, s = Some v /\ v <> "".
Proof.
  split.
  - destruct s as [[|c v]|]; try discriminate. intros _. eexists. split; [reflexivity|discriminate].
  - intros (v & -> & Hv). destruct v; [congruence|reflexivity].
Qed.

Lemma fold_found {A B} (f : B -> option A) (l : list B) (a : A) :
  fold_left (fun found x => match found with Some y => Some y | None => f x end) l (Some a)
  = Some a.
Proof. induction l as [|x l IH]; [reflexivity|exact IH]. Qed.

(** A record of [parseChallengeValue] is a record of [fromJsonChallenge]
    on one of the attempts. *)
Lemma parseChallengeValue_from_json (unicode : Unicode.t) (value : string) (requestInfo : RequestInfo.t)
    (rawHeaders : gmap string string) (fallbackId : string) (c : ChallengeDetails.t) :
  parseChallengeValue unicode value requestInfo rawHeaders fallbackId = Some c ->
  exists text, fromJsonChallenge unicode text requestInfo rawHeaders fallbackId = Some c.
Proof.
  unfold parseChallengeValue.
  generalize (if JS.is_empty (JS.trim value) then []
              else JS.trim value ::
                   (if base64Pattern (JS.trim value)
                    then match Base64.atob (JS.trim value) with
                         | Some decoded => [decoded]
                         | None => []
                         end
                    else [])).
  intros attempts. induction attempts as [|text attempts IH]; [discriminate|].
  cbn [fold_left].
  destruct (fromJsonChallenge unicode text requestInfo rawHeaders fallbackId) as [c'|] eqn:Htext.
  - rewrite fold_found. intros [= <-]. exists text. exact Htext.
  - exact IH.
Qed.

(** A guarded attempt gave a record: its guard was true. *)
Ltac if_truthy :=
  match goal with
  | |- (if truthy_string ?h then _ else None) = Some _ -> _ =>
      destruct (truthy_string h); [|discriminate]
  end.

(** The test [!seller || !tokenAddress || !atomic] passed: the three
    values are present and not empty. *)
Ltac three_truthy :=
  match goal with
  | |- (if negb (truthy_string ?a) || negb (truthy_string ?b) || negb (truthy_string ?d)
        then _ else _) = _ -> _ =>
      let Ha := fresh "Ha" in
      let Hb := fresh "Hb" in
      let Hd := fresh "Hd" in
      destruct (truthy_string a) eqn:Ha; [|discriminate];
      destruct (truthy_string b) eqn:Hb; [|discriminate];
      destruct (truthy_string d) eqn:Hd; [|discriminate];
      apply truthy_string_spec in Ha as (? & Ha & ?);
      apply truthy_string_spec in Hb as (? & Hb & ?);
      apply truthy_string_spec in Hd as (? & Hd & ?);
      rewrite Ha, Hb, Hd
  end.

(** The legacy headers and the direct parameters of the auth-challenge
    header give valid records only; a record from the dedicated header or
    from a nested challenge value is one of [fromJsonChallenge]. *)
Lemma parseChallengeHeaders_valid_or_json (unicode : Unicode.t) (headers : HeaderSource.t)
    (requestInfo : RequestInfo.t) (uuid : string) (c : ChallengeDetails.t) :
  parseChallengeHeaders unicode headers requestInfo uuid = Some c ->
  valid_record c
  \/ exists text,
       fromJsonChallenge unicode text requestInfo (fst (baseDetails unicode headers requestInfo uuid))
         (snd (baseDetails unicode headers requestInfo uuid)) = Some c.
Proof.
  unfold parseChallengeHeaders.
  destruct (baseDetails unicode headers requestInfo uuid) as [rawHeaders challengeId]. cbn [fst snd].
  match goal with
  | |- context [if truthy_string ?h then parseChallengeValue _ ?v _ _ _ else None] =>
      destruct (if truthy_string h then parseChallengeValue unicode v requestInfo rawHeaders challengeId
                else None) as [c1|] eqn:H1
  end.
  { intros [= <-]. right. revert H1. if_truthy.
    apply parseChallengeValue_from_json. }
  match goal with
  | |- context [if truthy_string ?h then fromAuthenticateChallenge _ ?v _ _ _ else None] =>
      destruct (if truthy_string h
                then fromAuthenticateChallenge unicode v requestInfo rawHeaders challengeId
                else None) as [c2|] eqn:H2
  end.
  { intros [= <-]. revert H2. if_truthy.
    unfold fromAuthenticateChallenge.
    destruct (match_scheme _) as [paramsPart|]; [|discriminate]. intros H2.
    match type of H2 with
    | context [if truthy_string ?h then parseChallengeValue _ ?v _ _ _ else None] =>
        destruct (if truthy_string h
                  then parseChallengeValue unicode v requestInfo rawHeaders challengeId
                  else None) as [c3|] eqn:H3
    end.
    - injection H2 as <-. right. revert H3. if_truthy.
      apply parseChallengeValue_from_json.
    - left. revert H2. three_truthy.
      intros [= <-]. unfold valid_record. cbn. eauto. }
  three_truthy.
  intros [= <-]. left. unfold valid_record. cbn. eauto.
Qed.

(** The payment terms that [fromJsonChallenge] reads depend on the JSON
    text alone, not on the other headers nor on the fallback id. *)
Lemma fromJsonChallenge_terms (unicode : Unicode.t) (text : string) (requestInfo : RequestInfo.t)
    (raw1 raw2 : gmap string string) (id1 id2 : string) :
  option_map payment_terms (fromJsonChallenge unicode text requestInfo raw1 id1)
  = option_map payment_terms (fromJsonChallenge unicode text requestInfo raw2 id2).
Proof.
  unfold fromJsonChallenge.
  destruct (JSON.parse text) as [parsed|]; [|reflexivity].
  destruct parsed; try reflexivity.
  all: repeat match goal with
         | |- option_map _ (match ?x with _ => _ end) = _ => destruct x; try reflexivity
         end.
Qed.

Lemma fold_attempts_terms (unicode : Unicode.t) (requestInfo : RequestInfo.t) (raw1 raw2 : gmap string string)
    (id1 id2 : string) (attempts : list string) (found1 found2 : option ChallengeDetails.t) :
  option_map payment_terms found1 = option_map payment_terms found2 ->
  option_map payment_terms
    (fold_left
       (fun found attempt =>
          match found with
          | Some challenge => Some challenge
          | None => fromJsonChallenge unicode attempt requestInfo raw1 id1
          end) attempts found1)
  = option_map payment_terms
      (fold_left
         (fun found attempt =>
            match found with
            | Some challenge => Some challenge
            | None => fromJsonChallenge unicode attempt requestInfo raw2 id2
            end) attempts found2).
Proof.
  revert found1 found2. induction attempts as [|text attempts IH]; intros found1 found2 H.
  - exact H.
  - cbn [fold_left]. apply IH.
    destruct found1, found2; try discriminate; [exact H|].
    apply fromJsonChallenge_terms.
Qed.

Lemma parseChallengeValue_terms (unicode : Unicode.t) (value : string) (requestInfo : RequestInfo.t)
    (raw1 raw2 : gmap string string) (id1 id2 : string) :
  option_map payment_terms (parseChallengeValue unicode value requestInfo raw1 id1)
  = option_map payment_terms (parseChallengeValue unicode value requestInfo raw2 id2).
Proof. unfold parseChallengeValue. apply fold_attempts_terms. reflexivity. Qed.

Lemma parseChallengeValue_empty (unicode : Unicode.t) (requestInfo : RequestInfo.t)
    (rawHeaders : gmap string string) (fallbackId : string) :
  parseChallengeValue unicode "" requestInfo rawHeaders fallbackId = None.
Proof. reflexivity. Qed.

(** C8: for every response whose dedicated challenge header parses to a
    record, the parser returns a record with the payment terms (USD amount,
    token symbol, chain, token address, seller, atomic amount) that the
    dedicated header's value alone determines, whatever legacy flat
    headers, complete or not, the response carries besides. *)
Theorem dedicated_header_takes_precedence
    (unicode : Unicode.t) (headers : HeaderSource.t) (requestInfo : RequestInfo.t) (uuid value : string)
    (parsed : ChallengeDetails.t) :
  dedicated_header unicode headers requestInfo uuid = Some value ->
  parseChallengeValue unicode value requestInfo ∅ "" = Some parsed ->
  exists challenge,
    parseChallengeHeaders unicode headers requestInfo uuid = Some challenge
    /\ payment_terms challenge = payment_terms parsed.
Proof.
  unfold dedicated_header, parseChallengeHeaders. intros Hheader Hparsed.
  destruct (baseDetails unicode headers requestInfo uuid) as [rawHeaders challengeId].
  cbn [fst] in Hheader. rewrite Hheader. change (default "" (Some value)) with value.
  assert (Hvalue : truthy_string (Some value) = true).
  { destruct value; [|reflexivity]. rewrite parseChallengeValue_empty in Hparsed. discriminate. }
  rewrite Hvalue.
  pose proof (parseChallengeValue_terms unicode value requestInfo rawHeaders ∅ challengeId "") as Hterms.
  rewrite Hparsed in Hterms.
  destruct (parseChallengeValue unicode value requestInfo rawHeaders challengeId) as [challenge|];
    [|discriminate].
  exists challenge. split; [reflexivity|]. cbn [option_map] in Hterms. congruence.
Qed.

Lemma dedicated_header_takes_precedence_witness :
  exists challenge,
    parseChallengeHeaders Sample.unicode Sample.both_encodings_response Sample.request "uuid-1"
    = Some challenge
    /\ payment_terms challenge
       = (0.005%float, "USDC", 137%float,
          JString "0x3c499c542cEF5E3811e1192ce70d8cC03d5c3359",
          "0xAAAAaaaaAAAAaaaaAAAAaaaaAAAAaaaaAAAAaaaa", "5000").
Proof.
  destruct (dedicated_header_takes_precedence Sample.unicode Sample.both_encodings_response Sample.request
              "uuid-1" Sample.dedicated_json
              (ChallengeDetails.mk 0.005%float "USDC" "" "/joke" "https://shop.example" ∅ "GET"
                 137%float None (JString "0x3c499c542cEF5E3811e1192ce70d8cC03d5c3359")
                 "0xAAAAaaaaAAAAaaaaAAAAaaaaAAAAaaaaAAAAaaaa" "5000" None None None None
                 (JSON.parse Sample.dedicated_json)))
    as (challenge & Hparse & Hterms).
  - vm_compute. reflexivity.
  - vm_compute. reflexivity.
  - exists challenge. split; [exact Hparse|exact Hterms].
Defined.

(** C10: for every response whose dedicated challenge header and
    auth-challenge header yield no record, if the legacy flat headers
    supply a non-empty seller, token address and atomic amount but no
    chain header and no USD-amount header, the parser returns the record
    with those three values, [chainId] 137 and [amountUsd] 0. *)
Theorem legacy_headers_default_chain_and_amount
    (unicode : Unicode.t) (headers : HeaderSource.t) (requestInfo : RequestInfo.t) (uuid : string)
    (seller tokenAddress atomic : string) :
  let rawHeaders := fst (baseDetails unicode headers requestInfo uuid) in
  let challengeId := snd (baseDetails unicode headers requestInfo uuid) in
  (forall value, dedicated_header unicode headers requestInfo uuid = Some value ->
                 parseChallengeValue unicode value requestInfo rawHeaders challengeId = None) ->
  (forall value, auth_header unicode headers requestInfo uuid = Some value ->
                 fromAuthenticateChallenge unicode value requestInfo rawHeaders challengeId = None) ->
  first_or (rawHeaders !! "x-402-address") (rawHeaders !! "x-payment-seller") = Some seller ->
  first_or (rawHeaders !! "x-402-token-address") (rawHeaders !! "x-payment-token-address")
  = Some tokenAddress ->
  first_or (rawHeaders !! "x-402-amount-atomic") (rawHeaders !! "x-payment-amount")
  = Some atomic ->
  seller <> "" -> tokenAddress <> "" -> atomic <> "" ->
  rawHeaders !! "x-402-chain" = None -> rawHeaders !! "x-payment-chain" = None ->
  rawHeaders !! "x-402-amount" = None -> rawHeaders !! "x-payment-amount-usd" = None ->
  parseChallengeHeaders unicode headers requestInfo uuid
  = Some
      (ChallengeDetails.mk 0%float
         (default "USDC" (first_or (rawHeaders !! "x-402-token")
                            (rawHeaders !! "x-payment-token")))
         challengeId (RequestInfo.endpoint requestInfo) (RequestInfo.origin requestInfo)
         rawHeaders (RequestInfo.method requestInfo) 137%float None
         (JString tokenAddress) seller atomic None None None None None).
Proof.
  unfold dedicated_header, auth_header, parseChallengeHeaders.
  destruct (baseDetails unicode headers requestInfo uuid) as [rawHeaders challengeId].
  cbn [fst snd].
  intros Hdedicated Hauth Hseller Htoken Hatomic Ns Nt Na Hc1 Hc2 Hu1 Hu2.
  assert (H1 : (if truthy_string
                     (first_or (HeaderSource.get headers HEADER_CHALLENGE_JSON)
                        (rawHeaders !! HEADER_CHALLENGE_JSON))
                then parseChallengeValue unicode
                       (default ""
                          (first_or (HeaderSource.get headers HEADER_CHALLENGE_JSON)
                             (rawHeaders !! HEADER_CHALLENGE_JSON)))
                       requestInfo rawHeaders challengeId
                else None) = None).
  { destruct (first_or (HeaderSource.get headers HEADER_CHALLENGE_JSON) _) as [value|];
      [|reflexivity].
    change (default "" (Some value)) with value.
    rewrite (Hdedicated value eq_refl). destruct (truthy_string (Some value)); reflexivity. }
  assert (H2 : (if truthy_string
                     (first_or (HeaderSource.get headers "www-authenticate")
                        (rawHeaders !! "www-authenticate"))
                then fromAuthenticateChallenge unicode
                       (default ""
                          (first_or (HeaderSource.get headers "www-authenticate")
                             (rawHeaders !! "www-authenticate")))
                       requestInfo rawHeaders challengeId
                else None) = None).
  { destruct (first_or (HeaderSource.get headers "www-authenticate") _) as [value|];
      [|reflexivity].
    change (default "" (Some value)) with value.
    rewrite (Hauth value eq_refl). destruct (truthy_string (Some value)); reflexivity. }
  rewrite H1, H2, Hseller, Htoken, Hatomic, Hc1, Hc2, Hu1, Hu2.
  destruct seller; [congruence|]. destruct tokenAddress; [congruence|].
  destruct atomic; [congruence|]. reflexivity.
Qed.

Lemma legacy_headers_default_chain_and_amount_witness :
  option_map
    (fun challenge =>
       (payment_terms challenge, ChallengeDetails.challengeId challenge))
    (parseChallengeHeaders Sample.unicode Sample.bare_legacy_response Sample.request "uuid-1")
  = Some
      ((0%float, "USDC", 137%float, JString "0x41E94Eb019C0762f9Bfcf9Fb1E58725BfB0e7582",
        "0xBBBBbbbbBBBBbbbbBBBBbbbbBBBBbbbbBBBBbbbb", "40000"),
       "uuid-1").
Proof.
  rewrite (legacy_headers_default_chain_and_amount Sample.unicode Sample.bare_legacy_response
             Sample.request "uuid-1" "0xBBBBbbbbBBBBbbbbBBBBbbbbBBBBbbbbBBBBbbbb"
             "0x41E94Eb019C0762f9Bfcf9Fb1E58725BfB0e7582" "40000").
  - vm_compute. reflexivity.
  - intros value H. vm_compute in H. discriminate.
  - intros value H. vm_compute in H. discriminate.
  - vm_compute. reflexivity.
  - vm_compute. reflexivity.
  - vm_compute. reflexivity.
  - discriminate.
  - discriminate.
  - discriminate.
  - vm_compute. reflexivity.
  - vm_compute. reflexivity.
  - vm_compute. reflexivity.
  - vm_compute. reflexivity.
Defined.

(** ** No private key reaches the store, whoever writes

    The writes of payment processing and of the wallet handlers
    (configure, unlock, lock) all go through [setState]. *)

Lemma randomBytes_clean (n : nat) : steps wrote_no_privateKey (randomBytes n).
Proof. intros w. exists []. split; [reflexivity|constructor]. Qed.

Lemma createAuthorization_clean (ethers : Ethers.t) (wallet : WalletData.t)
    (settings : ExtensionSettings.t) (challenge : ChallengeDetails.t) :
  steps wrote_no_privateKey (createAuthorization ethers wallet settings challenge).
Proof.
  unfold createAuthorization.
  destruct (JS.is_empty _); steps_structure.
  apply randomBytes_clean.
Qed.

Lemma recordPayment_clean (record : PaymentRecord.t) :
  steps wrote_no_privateKey (recordPayment record).
Proof.
  unfold recordPayment, addHistory, pruneJwtCache. steps_structure;
    first [apply getState_clean | apply setState_clean].
Qed.

Lemma incrementPolicySpend_clean (origin : string) (amountUsd : float) :
  steps wrote_no_privateKey (incrementPolicySpend origin amountUsd).
Proof.
  unfold incrementPolicySpend, createDefaultPolicy. steps_structure;
    first [apply getState_clean | apply setState_clean].
Qed.

Lemma computeUnlockExpiry_clean (minutes : option float) :
  steps wrote_no_privateKey (computeUnlockExpiry minutes).
Proof. unfold computeUnlockExpiry. steps_structure. Qed.

Lemma processPayment_clean (ethers : Ethers.t) (challenge : ChallengeDetails.t)
    (autoApproved : bool) :
  steps wrote_no_privateKey (processPayment ethers challenge autoApproved).
Proof.
  unfold processPayment. steps_structure.
  all: try destruct (negb _ || negb _ || _); steps_structure.
  all: first [ apply getState_clean | apply setState_clean | apply recordPayment_clean
             | apply incrementPolicySpend_clean | apply computeUnlockExpiry_clean
             | apply createAuthorization_clean ].
Qed.

Section WalletHandlers.

Variable ethers : Ethers.t.
Variable encryptSecret : string -> string -> M EncryptedPayload.t.
Variable decryptSecret : EncryptedPayload.t -> string -> M string.
Variable unicode : Unicode.t.

(** The Web Crypto wrappers do not touch the store. *)
Hypothesis encryptSecret_clean :
  forall secret passphrase, steps wrote_no_privateKey (encryptSecret secret passphrase).
Hypothesis decryptSecret_clean :
  forall payload passphrase, steps wrote_no_privateKey (decryptSecret payload passphrase).

Lemma onUpdateWallet_clean (payload : option WalletUpdatePayload.t) :
  steps wrote_no_privateKey (onUpdateWallet ethers encryptSecret payload).
Proof.
  unfold onUpdateWallet, updateWallet. steps_structure.
  all: try destruct (JS.is_empty _); steps_structure.
  all: try destruct (_ <? _)%nat; steps_structure.
  all: first [ apply setState_clean | apply encryptSecret_clean
             | apply computeUnlockExpiry_clean ].
Qed.

Lemma onUnlockWallet_clean (passphrase : option string) (lockDurationMinutes : option float) :
  steps wrote_no_privateKey (onUnlockWallet ethers decryptSecret unicode passphrase lockDurationMinutes).
Proof.
  unfold onUnlockWallet. steps_structure.
  all: try destruct (JS.is_empty _); steps_structure.
  all: try destruct (negb _); steps_structure.
  all: first [ apply getState_clean | apply setState_clean | apply decryptSecret_clean
             | apply computeUnlockExpiry_clean ].
Qed.

Lemma onLockWallet_clean : steps wrote_no_privateKey onLockWallet.
Proof.
  unfold onLockWallet. steps_structure; first [apply getState_clean | apply setState_clean].
Qed.

End WalletHandlers.

(** ** The store as the handlers leave it

    What each function of the state store returns and how the document
    it leaves relates to the one it found ([stored_state]). *)

Lemma Str_eqb_eq (a b : string) : Str.eqb a b = true <-> a = b.
Proof.
  revert b. induction a as [|c a IH]; intros [|d b]; cbn; split; try congruence.
  - intros H. apply andb_true_iff in H as [Hc Ha]. apply N.eqb_eq in Hc.
    apply IH in Ha. congruence.
  - intros [= -> ->]. rewrite N.eqb_refl. now apply IH.
Qed.


Lemma Str_eqb_neq (a b : string) : Str.eqb a b = false <-> a <> b.
Proof.
  split.
  - intros H E. apply Str_eqb_eq in E. congruence.
  - intros H. destruct (Str.eqb a b) eqn:E; [|reflexivity]. apply Str_eqb_eq in E. contradiction.
Qed.

(** ** The members of the store other than the wallet *)

#[local] Instance same_clock_preorder : PreOrder same_clock.
Proof.
  split.
  - intros w. split; reflexivity.
  - intros a b c [H1 H2] [H3 H4]. split; congruence.
Qed.

#[local] Instance same_shared_equivalence : Equivalence same_shared.
Proof.
  split.
  - intros a. repeat split.
  - intros a b (H1 & H2 & H3 & H4 & H5 & H6). repeat split; congruence.
  - intros a b c (H1 & H2 & H3 & H4 & H5 & H6) (G1 & G2 & G3 & G4 & G5 & G6).
    repeat split; congruence.
Qed.

Lemma getState_view (includePrivateKey : bool) (w : World.t) :
  exists state w',
    getState includePrivateKey w = (Returned state, w')
    /\ same_shared state (stored_state w)
    /\ same_shared (stored_state w') (stored_state w)
    /\ same_clock w w'.
Proof.
  pose proof (getState_cases includePrivateKey w) as H. unfold stored_state.
  destruct (World.stored w) as [st|] eqn:Hst.
  - destruct (ExtensionState.wallet st) as [wallet|].
    + cbn zeta in H. destruct (truthy_string (WalletData.privateKey wallet)).
      * eexists _, _. split; [exact H|]. repeat split.
      * destruct (truthy_string (World.runtimePrivateKey w)
                  && (World.clock w <? World.runtimeLockedUntil w)).
        -- eexists _, _. split; [exact H|]. rewrite Hst. repeat split.
        -- eexists _, _. split; [exact H|]. cbn. rewrite Hst. repeat split.
    + eexists _, _. split; [exact H|]. rewrite Hst. repeat split.
  - eexists _, _. split; [exact H|]. repeat split.
Qed.

Lemma apply_update_shared (update : StateUpdate.t) (a b : ExtensionState.t) :
  same_shared a b -> same_shared (apply_update update a) (apply_update update b).
Proof.
  intros (H1 & H2 & H3 & H4 & H5 & H6). unfold apply_update.
  repeat split; cbn; congruence.
Qed.

Lemma setState_view (update : StateUpdate.t) (w : World.t) :
  exists next w',
    setState update w = (Returned next, w')
    /\ same_shared next (apply_update update (stored_state w))
    /\ same_shared (stored_state w') next
    /\ same_clock w w'.
Proof.
  destruct (getState_view false w) as (current & w1 & Hget & Hcur & _ & Hc1 & Hp1).
  eexists _, _. split; [apply (setState_eq update w w1 current Hget)|].
  split; [apply apply_update_shared, Hcur|].
  split; [repeat split|].
  destruct (StateUpdate.wallet update); split; cbn; assumption.
Qed.

(** Runs the next [getState] or [setState] of the goal, naming what it
    returns and how the store it leaves relates to the one it found. *)
Ltac run_getState state w1 Hs Hs1 Hc :=
  match goal with
  | |- context [getState ?b ?w] =>
      let Hget := fresh "Hget" in
      destruct (getState_view b w) as (state & w1 & Hget & Hs & Hs1 & Hc);
      rewrite Hget; cbn [fst snd]
  end.

Ltac run_setState next w1 Hn Hs1 Hc :=
  match goal with
  | |- context [setState ?u ?w] =>
      let Hset := fresh "Hset" in
      destruct (setState_view u w) as (next & w1 & Hset & Hn & Hs1 & Hc);
      rewrite Hset; cbn [fst snd]
  end.

Ltac unfold_monad := unfold mbind, M_bind, bind, Date_now, ret.

Lemma firstn_length_bound {A} (n : nat) (l : list A) : (length (firstn n l) <= n)%nat.
Proof. rewrite length_firstn. lia. Qed.

(** X1: [addHistory] files the record at the head of the stored history
    and keeps at most 2000 records, dropping the oldest; it returns the
    state it stored and leaves policies, token cache and pending
    challenges as they were, whatever the store held before. *)
Theorem addHistory_newest_first_bounded (record : PaymentRecord.t) (w : World.t) :
  let after := stored_state (snd (addHistory record w)) in
  ExtensionState.history after
  = firstn 2000 (record :: ExtensionState.history (stored_state w))
  /\ hd_error (ExtensionState.history after) = Some record
  /\ (length (ExtensionState.history after) <= 2000)%nat
  /\ (exists state, fst (addHistory record w) = Returned state
                    /\ ExtensionState.history state = ExtensionState.history after)
  /\ ExtensionState.policies after = ExtensionState.policies (stored_state w)
  /\ ExtensionState.jwtCache after = ExtensionState.jwtCache (stored_state w)
  /\ ExtensionState.pendingChallenges after
     = ExtensionState.pendingChallenges (stored_state w).
Proof.
  unfold addHistory. unfold_monad.
  run_getState state w1 Hs Hs1 Hc1.
  run_setState next w2 Hn Hs2 Hc2.
  destruct Hs as (_ & _ & Hh & _).
  destruct Hs1 as (_ & Hp1 & _ & Hj1 & Hq1 & _).
  destruct Hn as (_ & Hp & Hhn & Hj & Hq & _).
  destruct Hs2 as (_ & Hp2 & Hh2 & Hj2 & Hq2 & _).
  cbn in Hp, Hhn, Hj, Hq.
  assert (Hhist : ExtensionState.history (stored_state w2)
                  = firstn 2000 (record :: ExtensionState.history (stored_state w))).
  { rewrite Hh2, Hhn, Hh. reflexivity. }
  rewrite Hhist. repeat split.
  - apply firstn_length_bound.
  - exists next. split; [reflexivity|]. now rewrite Hhn, Hh.
  - congruence.
  - congruence.
  - congruence.
Qed.

(** X2: [markSettlement] rewrites the records of one payment only: the
    stored history keeps its length and order, every record with another
    id is left as it is, and a record with the payment's id keeps its
    status, transaction hash and note wherever the update gives none.  If
    no record has the id, the history is unchanged. *)
Theorem markSettlement_touches_one_payment
    (paymentId : string) (update : PaymentRecordPatch.t) (w : World.t) :
  let before := ExtensionState.history (stored_state w) in
  let after := ExtensionState.history (stored_state (snd (markSettlement paymentId update w))) in
  length after = length before
  /\ (forall i record,
        before !! i = Some record ->
        after !! i
        = Some (if Str.eqb (PaymentRecord.id record) paymentId
                then settle update record else record))
  /\ (forall record,
        PaymentRecord.status (settle update record)
        = default (PaymentRecord.status record) (PaymentRecordPatch.status update)
        /\ PaymentRecord.txHash (settle update record)
           = match PaymentRecordPatch.txHash update with
             | Some hash => Some hash
             | None => PaymentRecord.txHash record
             end
        /\ PaymentRecord.note (settle update record)
           = match PaymentRecordPatch.note update with
             | Some note => Some note
             | None => PaymentRecord.note record
             end)
  /\ ((forall record, In record before -> PaymentRecord.id record <> paymentId) ->
      after = before).
Proof.
  unfold markSettlement. unfold_monad.
  run_getState state w1 Hs Hs1 Hc1.
  run_setState next w2 Hn Hs2 Hc2.
  destruct Hs as (_ & _ & Hh & _).
  destruct Hn as (_ & _ & Hhn & _). destruct Hs2 as (_ & _ & Hh2 & _).
  cbn in Hhn. rewrite Hh2, Hhn, Hh.
  generalize (ExtensionState.history (stored_state w)). intros history.
  split; [apply length_map|]. split; [|split].
  - intros i record Hi. rewrite list_lookup_fmap_Some_2 with (x := record) by exact Hi.
    destruct (Str.eqb (PaymentRecord.id record) paymentId); reflexivity.
  - intros record. unfold settle. cbn.
    destruct (PaymentRecordPatch.status update), (PaymentRecordPatch.txHash update),
      (PaymentRecordPatch.note update); auto.
  - intros Hnone. induction history as [|record history IH]; [reflexivity|].
    cbn [map]. rewrite IH by (intros r Hr; apply Hnone; right; exact Hr).
    destruct (Str.eqb (PaymentRecord.id record) paymentId) eqn:He; [|reflexivity].
    apply Str_eqb_eq in He. exfalso. apply (Hnone record); [left; reflexivity|exact He].
Qed.

Lemma upsertPolicy_view (policy : SitePolicy.t) (w : World.t) :
  exists state w',
    upsertPolicy policy w = (Returned state, w')
    /\ ExtensionState.policies (stored_state w')
       = <[SitePolicy.origin policy := policy]> (ExtensionState.policies (stored_state w))
    /\ ExtensionState.policies state = ExtensionState.policies (stored_state w')
    /\ same_clock w w'.
Proof.
  unfold upsertPolicy. unfold_monad.
  run_getState state w1 Hs Hs1 Hc1.
  run_setState next w2 Hn Hs2 Hc2.
  destruct Hs as (_ & Hp & _). destruct Hn as (_ & Hpn & _). destruct Hs2 as (_ & Hp2 & _).
  cbn in Hpn. eexists _, _. split; [reflexivity|]. split; [|split].
  - congruence.
  - congruence.
  - etransitivity; eassumption.
Qed.

Lemma removePolicy_view (origin : string) (w : World.t) :
  exists state w',
    removePolicy origin w = (Returned state, w')
    /\ ExtensionState.policies (stored_state w')
       = delete origin (ExtensionState.policies (stored_state w))
    /\ ExtensionState.policies state = ExtensionState.policies (stored_state w')
    /\ same_clock w w'.
Proof.
  unfold removePolicy. unfold_monad.
  run_getState state w1 Hs Hs1 Hc1.
  destruct Hs as (_ & Hp & _). destruct Hs1 as (_ & Hp1 & _).
  destruct (ExtensionState.policies state !! origin) as [policy|] eqn:Hlookup.
  - run_setState next w2 Hn Hs2 Hc2.
    destruct Hn as (_ & Hpn & _). destruct Hs2 as (_ & Hp2 & _). cbn in Hpn.
    eexists _, _. split; [reflexivity|]. split; [|split].
    + congruence.
    + congruence.
    + etransitivity; eassumption.
  - destruct (inherited_name origin).
    + run_setState next w2 Hn Hs2 Hc2.
      destruct Hn as (_ & Hpn & _). destruct Hs2 as (_ & Hp2 & _). cbn in Hpn.
      eexists _, _. split; [reflexivity|]. split; [|split].
      * congruence.
      * congruence.
      * etransitivity; eassumption.
    + eexists _, _. split; [reflexivity|]. split; [|split].
      * rewrite Hp1. rewrite Hp in Hlookup. symmetry. apply delete_id. exact Hlookup.
      * congruence.
      * exact Hc1.
Qed.

(** X3: the site policies behave as a dictionary keyed by origin.  After
    [upsertPolicy] the policy is the one recorded for its origin and the
    policies of other origins are untouched; after [removePolicy] the
    origin has no policy and the others are untouched, whether or not it
    had one; removing right after adding leaves no policy for the origin;
    after [resetPolicies] no origin has a policy. *)
Theorem policies_upsert_remove_reset (policy : SitePolicy.t) (origin : string) (w : World.t) :
  let policies w := ExtensionState.policies (stored_state w) in
  let added := snd (upsertPolicy policy w) in
  let removed := snd (removePolicy origin w) in
  policies added !! SitePolicy.origin policy = Some policy
  /\ (forall other, other <> SitePolicy.origin policy ->
                    policies added !! other = policies w !! other)
  /\ policies removed !! origin = None
  /\ (forall other, other <> origin -> policies removed !! other = policies w !! other)
  /\ policies (snd (removePolicy (SitePolicy.origin policy) added)) !! SitePolicy.origin policy
     = None
  /\ policies (snd (resetPolicies w)) = ∅.
Proof.
  intros policies added removed. subst policies added removed. cbn beta.
  destruct (upsertPolicy_view policy w) as (s1 & w1 & H1 & Hp1 & _).
  destruct (removePolicy_view origin w) as (s2 & w2 & H2 & Hp2 & _).
  destruct (removePolicy_view (SitePolicy.origin policy) w1) as (s3 & w3 & H3 & Hp3 & _).
  rewrite H1, H2. cbn [snd]. rewrite H3. cbn [snd]. rewrite Hp3, Hp2, Hp1.
  split; [apply lookup_insert_eq|]. split; [|split; [|split; [|split]]].
  - intros other Hother. apply lookup_insert_ne. congruence.
  - apply lookup_delete_eq.
  - intros other Hother. apply lookup_delete_ne. congruence.
  - apply lookup_delete_eq.
  - unfold resetPolicies.
    destruct (setState_view (update_policies ∅) w) as (next & w4 & Hset & Hn & Hs & _).
    rewrite Hset. cbn [snd]. destruct Hn as (_ & Hpn & _). destruct Hs as (_ & Hps & _).
    cbn in Hpn. congruence.
Qed.

Lemma pruneJwtCache_view (w : World.t) :
  exists state w',
    pruneJwtCache w = (Returned state, w')
    /\ ExtensionState.jwtCache (stored_state w')
       = delete "__proto__"
           (filter (fun entry => World.clock w < JwtCacheEntry.expiresAt (snd entry))
              (ExtensionState.jwtCache (stored_state w)))
    /\ same_clock w w'.
Proof.
  unfold pruneJwtCache. unfold_monad.
  run_getState state w1 Hs Hs1 Hc1.
  run_setState next w2 Hn Hs2 Hc2.
  destruct Hs as (_ & _ & _ & Hj & _). destruct Hn as (_ & _ & _ & Hjn & _).
  destruct Hs2 as (_ & _ & _ & Hj2 & _). cbn in Hjn.
  eexists _, _. split; [reflexivity|]. split; [congruence|etransitivity; eassumption].
Qed.

Lemma saveJwt_view (entry : JwtCacheEntry.t) (w : World.t) :
  exists state w',
    saveJwt entry w = (Returned state, w')
    /\ ExtensionState.jwtCache (stored_state w')
       = <[JwtCacheEntry.paymentId entry := entry]> (ExtensionState.jwtCache (stored_state w))
    /\ same_shared (stored_state w')
         (apply_update
            (update_jwtCache
               (<[JwtCacheEntry.paymentId entry := entry]>
                  (ExtensionState.jwtCache (stored_state w))))
            (stored_state w))
    /\ same_clock w w'.
Proof.
  unfold saveJwt. unfold_monad.
  run_getState state w1 Hs Hs1 Hc1.
  run_setState next w2 Hn Hs2 Hc2.
  pose proof Hs as (_ & _ & _ & Hj & _). rewrite Hj in *.
  eexists _, _. split; [reflexivity|]. split; [|split].
  - destruct Hn as (_ & _ & _ & Hjn & _). destruct Hs2 as (_ & _ & _ & Hj2 & _).
    cbn in Hjn. congruence.
  - etransitivity; [exact Hs2|]. etransitivity; [exact Hn|].
    apply apply_update_shared. exact Hs1.
  - etransitivity; eassumption.
Qed.

(** What [getJwt] returns and leaves in the token cache. *)
Lemma getJwt_view (paymentId : string) (w : World.t) :
  let cache := ExtensionState.jwtCache (stored_state w) in
  exists w',
    getJwt paymentId w
    = (Returned
         (match cache !! paymentId with
          | Some entry =>
              if JwtCacheEntry.expiresAt entry <? World.clock w then NoJwt else Jwt entry
          | None => if inherited_name paymentId then PrototypeMember else NoJwt
          end), w')
    /\ ExtensionState.jwtCache (stored_state w')
       = match cache !! paymentId with
         | Some entry =>
             if JwtCacheEntry.expiresAt entry <? World.clock w
             then delete "__proto__"
                    (filter (fun entry => World.clock w < JwtCacheEntry.expiresAt (snd entry))
                       cache)
             else cache
         | None => cache
         end.
Proof.
  intros cache. subst cache. unfold getJwt. unfold_monad.
  run_getState state w1 Hs Hs1 Hc1.
  destruct Hs as (_ & _ & _ & Hj & _). destruct Hs1 as (_ & _ & _ & Hj1 & _). rewrite Hj.
  destruct (ExtensionState.jwtCache (stored_state w) !! paymentId) as [entry|];
    [|eexists; split; [reflexivity|exact Hj1]].
  destruct Hc1 as [Hclock _]. rewrite Hclock.
  destruct (JwtCacheEntry.expiresAt entry <? World.clock w);
    [|eexists; split; [reflexivity|exact Hj1]].
  destruct (pruneJwtCache_view w1) as (s2 & w2 & Hprune & Hj2 & _).
  fold (@bind ExtensionState.t JwtLookup).
  unfold mbind, M_bind, bind. rewrite Hprune.
  eexists; split; [reflexivity|]. rewrite Hj2, Hj1, Hclock. reflexivity.
Qed.

(** X4: a token saved with [saveJwt] is what [getJwt] returns for its
    payment as long as the clock has not passed its expiry (the expiry
    instant included); once the clock has passed it, [getJwt] returns
    nothing and prunes the cache, leaving only entries that expire after
    the time of the call. *)
Theorem saved_jwt_is_served_until_expiry
    (entry : JwtCacheEntry.t) (w : World.t) (now : Z) :
  let saved := at_time (snd (saveJwt entry w)) now in
  let paymentId := JwtCacheEntry.paymentId entry in
  (now <= JwtCacheEntry.expiresAt entry ->
   fst (getJwt paymentId saved) = Returned (Jwt entry))
  /\ (JwtCacheEntry.expiresAt entry < now ->
      fst (getJwt paymentId saved) = Returned NoJwt
      /\ forall id left,
           ExtensionState.jwtCache (stored_state (snd (getJwt paymentId saved))) !! id
           = Some left ->
           now < JwtCacheEntry.expiresAt left).
Proof.
  intros saved paymentId.
  destruct (saveJwt_view entry w) as (s1 & w1 & Hsave & Hcache & _).
  destruct (getJwt_view paymentId saved) as (w2 & Hget & Hleft).
  assert (Hsaved : ExtensionState.jwtCache (stored_state saved) !! paymentId = Some entry).
  { subst saved. rewrite Hsave. cbn [snd]. change (stored_state (at_time w1 now))
      with (stored_state w1). rewrite Hcache. apply lookup_insert_eq. }
  rewrite Hget. cbn [fst snd]. rewrite Hleft, Hsaved.
  change (World.clock saved) with now. split.
  - intros Hfresh. apply Z.ltb_ge in Hfresh. rewrite Hfresh. reflexivity.
  - intros Hold. apply Z.ltb_lt in Hold. rewrite Hold. split; [reflexivity|].
    intros id left Hin. apply lookup_delete_Some in Hin as [_ Hin].
    apply map_lookup_filter_Some in Hin as [_ Hkeep]. exact Hkeep.
Qed.

Lemma saved_jwt_is_served_until_expiry_witness :
  fst (getJwt "ch-1"
         (at_time (snd (saveJwt (JwtCacheEntry.mk "ch-1" "token" (Sample.now + 300000))
                          Sample.locked_world))
            (Sample.now + 300000)))
  = Returned (Jwt (JwtCacheEntry.mk "ch-1" "token" (Sample.now + 300000))).
Proof.
  apply (saved_jwt_is_served_until_expiry
           (JwtCacheEntry.mk "ch-1" "token" (Sample.now + 300000)) Sample.locked_world
           (Sample.now + 300000)).
  reflexivity.
Defined.

(** ** The unlock window *)

(** X5: what a caller of [getState] can see of the wallet.  The plaintext
    key is never in the result unless [includePrivateKey] was asked for;
    the wallet is either shown locked ([lockedUntil] 0, no key), or shown
    with the expiry held in memory, and then that expiry is in the future
    and a key is in memory; with [includePrivateKey] the key shown is the
    one in memory.  A state without a wallet is returned only when none is
    stored. *)
Theorem getState_shows_key_only_while_unlocked (includePrivateKey : bool) (w : World.t) :
  exists state,
    fst (getState includePrivateKey w) = Returned state
    /\ match ExtensionState.wallet state with
       | None => ExtensionState.wallet (stored_state w) = None
       | Some wallet =>
           (includePrivateKey = false -> WalletData.privateKey wallet = None)
           /\ ((WalletData.lockedUntil wallet = Some 0
                /\ WalletData.privateKey wallet = None)
               \/ (WalletData.lockedUntil wallet = Some (World.runtimeLockedUntil w)
                   /\ World.clock w < World.runtimeLockedUntil w
                   /\ truthy_string (World.runtimePrivateKey w) = true
                   /\ (includePrivateKey = true ->
                       WalletData.privateKey wallet = World.runtimePrivateKey w)))
       end.
Proof.
  pose proof (getState_cases includePrivateKey w) as H. unfold stored_state.
  destruct (World.stored w) as [st|]; [|rewrite H; eexists; split; reflexivity].
  destruct (ExtensionState.wallet st) as [wallet|] eqn:Hw;
    [|rewrite H; eexists; split; [reflexivity|cbn; rewrite Hw; reflexivity]].
  cbn zeta in H. destruct (truthy_string (WalletData.privateKey wallet)).
  { rewrite H. eexists. split; [reflexivity|]. cbn. auto. }
  destruct (truthy_string (World.runtimePrivateKey w)) eqn:Hkey;
    [|rewrite H; eexists; split; [reflexivity|cbn; auto]].
  destruct (World.clock w <? World.runtimeLockedUntil w) eqn:Htime;
    [|rewrite H; eexists; split; [reflexivity|cbn; auto]].
  apply Z.ltb_lt in Htime. rewrite H. eexists. split; [reflexivity|].
  destruct includePrivateKey; cbn.
  - split; [discriminate|]. right. auto.
  - split; [reflexivity|]. right. repeat split; [exact Htime|discriminate].
Qed.

(** X6: the unlock expires by itself.  When a wallet is stored and the
    clock has reached the expiry held in memory (or no key is in memory),
    any [getState] erases the key and the expiry from memory and returns
    the wallet locked, even to a caller that asks for the key. *)
Theorem getState_erases_expired_key (includePrivateKey : bool) (w : World.t)
    (st : ExtensionState.t) (wallet : WalletData.t) :
  World.stored w = Some st ->
  ExtensionState.wallet st = Some wallet ->
  truthy_string (World.runtimePrivateKey w) = false
  \/ World.runtimeLockedUntil w <= World.clock w ->
  let after := snd (getState includePrivateKey w) in
  World.runtimePrivateKey after = None
  /\ World.runtimeLockedUntil after = 0
  /\ exists state shown,
       fst (getState includePrivateKey w) = Returned state
       /\ ExtensionState.wallet state = Some shown
       /\ WalletData.privateKey shown = None
       /\ WalletData.lockedUntil shown = Some 0
       /\ WalletData.address shown = WalletData.address wallet
       /\ WalletData.encryptedPrivateKey shown = WalletData.encryptedPrivateKey wallet.
Proof.
  intros Hst Hw Hlocked after. subst after.
  pose proof (getState_cases includePrivateKey w) as H.
  rewrite Hst, Hw in H. cbn zeta in H.
  assert (Hno : truthy_string (World.runtimePrivateKey w)
                && (World.clock w <? World.runtimeLockedUntil w) = false).
  { destruct Hlocked as [Hk|Ht]; [now rewrite Hk|].
    apply andb_false_iff. right. apply Z.ltb_ge. exact Ht. }
  rewrite Hno in H.
  destruct (truthy_string (WalletData.privateKey wallet)); rewrite H; cbn;
    (split; [reflexivity|]; split; [reflexivity|]; eexists _, _; repeat split).
Qed.

Lemma getState_erases_expired_key_witness :
  World.runtimePrivateKey
    (snd (getState true (at_time Sample.unlocked_world (Sample.now + 300000))))
  = None.
Proof.
  eapply (getState_erases_expired_key true
            (at_time Sample.unlocked_world (Sample.now + 300000))).
  - reflexivity.
  - reflexivity.
  - right. vm_compute. discriminate.
Defined.

(** X7: whatever the store held, after any [getState] a document is
    stored and its wallet record carries no usable plaintext key: a key
    found in the stored document (left by an older version) is removed
    from it by the read itself, and every document the read hands to the
    storage API is free of one. *)
Theorem getState_scrubs_stored_key (includePrivateKey : bool) (w : World.t) :
  let after := snd (getState includePrivateKey w) in
  exists st,
    World.stored after = Some st
    /\ match ExtensionState.wallet st with
       | Some wallet => truthy_string (WalletData.privateKey wallet) = false
       | None => True
       end
    /\ wrote_no_privateKey w after.
Proof.
  intros after. subst after.
  pose proof (getState_clean includePrivateKey w) as Hclean.
  pose proof (getState_cases includePrivateKey w) as H.
  destruct (World.stored w) as [st|] eqn:Hst.
  - destruct (ExtensionState.wallet st) as [wallet|] eqn:Hw.
    + cbn zeta in H. destruct (truthy_string (WalletData.privateKey wallet)) eqn:Hk.
      * rewrite H in *. eexists. split; [reflexivity|]. split; [reflexivity|exact Hclean].
      * destruct (truthy_string (World.runtimePrivateKey w)
                  && (World.clock w <? World.runtimeLockedUntil w));
          rewrite H in *; cbn [snd] in *; exists st; cbn; rewrite Hst, Hw; auto.
    + rewrite H in *. exists st. cbn. rewrite Hw. auto.
  - rewrite H in *. eexists. split; [reflexivity|]. split; [exact I|exact Hclean].
Qed.

(** The store and the memory after [setState({ wallet })]. *)
Lemma setState_wallet_view (wallet : option WalletData.t) (w : World.t) :
  exists next st w',
    setState (update_wallet wallet) w = (Returned next, w')
    /\ ExtensionState.wallet next = wallet
    /\ World.stored w' = Some st
    /\ ExtensionState.wallet st = sanitizeWalletForPersist wallet
    /\ same_shared st (stored_state w)
    /\ World.runtimePrivateKey w'
       = match wallet with Some wl => WalletData.privateKey wl | None => None end
    /\ World.runtimeLockedUntil w'
       = match wallet with Some wl => default 0 (WalletData.lockedUntil wl) | None => 0 end
    /\ same_clock w w'.
Proof.
  destruct (getState_view false w) as (current & w1 & Hget & Hcur & _ & Hc1 & Hp1).
  eexists _, _, _. split; [apply (setState_eq _ w w1 current Hget)|].
  cbn. repeat split; try apply Hcur; assumption.
Qed.

(** X8: the unlock window.  After a wallet record with a non-empty key
    and an expiry [t] is written with [updateWallet], the stored record
    has no key; until the clock reaches [t], [getState] with
    [includePrivateKey] returns the record as it was written and
    [getState] without it the same record less the key; from [t] on, both
    return the record locked ([lockedUntil] 0, no key). *)
Theorem written_wallet_reads_back_until_expiry
    (wallet : WalletData.t) (key : string) (t : Z) (w : World.t) (now : Z) :
  WalletData.privateKey wallet = Some key ->
  key <> "" ->
  WalletData.lockedUntil wallet = Some t ->
  let written := at_time (snd (updateWallet (Some wallet) w)) now in
  let shown includePrivateKey :=
    match fst (getState includePrivateKey written) with
    | Returned state => ExtensionState.wallet state
    | Thrown _ => None
    end in
  option_map WalletData.privateKey (ExtensionState.wallet (stored_state written)) = Some None
  /\ (now < t ->
      shown true = Some wallet
      /\ shown false = Some (without_privateKey wallet (Some t)))
  /\ (t <= now ->
      shown true = Some (without_privateKey wallet (Some 0))
      /\ shown false = Some (without_privateKey wallet (Some 0))).
Proof.
  intros Hkey Hnonempty Huntil written shown.
  destruct (setState_wallet_view (Some wallet) w)
    as (next & st & w1 & Hset & _ & Hst & Hw & _ & Hrk & Hrt & _).
  cbn [default sanitizeWalletForPersist] in Hw, Hrk, Hrt.
  rewrite Hkey in Hrk. rewrite Huntil in Hrt, Hw. cbn in Hrt.
  assert (Hcases : forall b,
             shown b
             = Some (if (now <? t)
                     then if b then with_privateKey (without_privateKey wallet (Some t))
                                      (Some key) (Some t)
                          else without_privateKey (without_privateKey wallet (Some t)) (Some t)
                     else without_privateKey (without_privateKey wallet (Some t)) (Some 0))).
  { intros b. subst shown written. cbn beta. unfold updateWallet. rewrite Hset. cbn [snd].
    pose proof (getState_cases b (at_time w1 now)) as H.
    cbn [at_time World.stored World.runtimePrivateKey World.runtimeLockedUntil World.clock] in H.
    rewrite Hst, Hw in H. cbn zeta in H.
    cbn [without_privateKey WalletData.privateKey truthy_string] in H.
    rewrite Hrk, Hrt in H.
    replace (truthy_string (Some key)) with true in H
      by (destruct key; [congruence|reflexivity]).
    cbn [andb] in H. destruct (now <? t); rewrite H; [destruct b|]; reflexivity. }
  split; [|split].
  - subst written. unfold updateWallet. rewrite Hset. cbn [snd].
    unfold stored_state. cbn [at_time World.stored]. rewrite Hst, Hw. reflexivity.
  - intros Hbefore. apply Z.ltb_lt in Hbefore. rewrite !Hcases, Hbefore.
    destruct wallet. cbn in *. subst. split; reflexivity.
  - intros Hafter. apply Z.ltb_ge in Hafter. rewrite !Hcases, Hafter.
    split; reflexivity.
Qed.

Lemma written_wallet_reads_back_until_expiry_witness :
  option_map WalletData.privateKey
    (ExtensionState.wallet
       (stored_state
          (at_time (snd (updateWallet (Some Sample.unlocked_wallet) Sample.locked_world))
             (Sample.now + 1000))))
  = Some None.
Proof.
  eapply (written_wallet_reads_back_until_expiry Sample.unlocked_wallet "0xkey"
            (Sample.now + 300000) Sample.locked_world (Sample.now + 1000)).
  - reflexivity.
  - discriminate.
  - reflexivity.
Defined.

(** ** Lock duration and extension status *)

Lemma normalizeLockDuration_fixed_in_range :
  forallb (fun n => normalizeLockDuration (Some (JS.number_of_Z (Z.of_nat n))) =? Z.of_nat n)
    (seq 1 1440) = true.
Proof. vm_compute. reflexivity. Qed.

(** X9: [normalizeLockDuration] always gives a whole number of minutes
    between 1 and 1440; a missing, infinite or NaN duration gives 15; a
    normalized duration normalizes to itself.  So the expiry computed by
    [computeUnlockExpiry] lies between one minute and one day after the
    clock, and computing it changes nothing. *)
Theorem unlock_expiry_within_one_day (minutes : option float) (w : World.t) :
  let duration := normalizeLockDuration minutes in
  1 <= duration <= 1440
  /\ normalizeLockDuration (Some (JS.number_of_Z duration)) = duration
  /\ normalizeLockDuration None = 15
  /\ (forall m, JS.isFinite m = false -> normalizeLockDuration (Some m) = 15)
  /\ computeUnlockExpiry minutes w = (Returned (World.clock w + duration * 60 * 1000), w)
  /\ World.clock w + 60000 <= World.clock w + duration * 60 * 1000 <= World.clock w + 86400000.
Proof.
  intros duration.
  assert (Hrange : 1 <= duration <= 1440).
  { subst duration. unfold normalizeLockDuration, MIN_LOCK_MINUTES, MAX_LOCK_MINUTES,
      DEFAULT_LOCK_MINUTES.
    destruct minutes as [m|]; [destruct (JS.floor m)|]; lia. }
  split; [exact Hrange|]. split; [|split; [reflexivity|split; [|split; [reflexivity|lia]]]].
  - pose proof normalizeLockDuration_fixed_in_range as Hall.
    rewrite forallb_forall in Hall.
    specialize (Hall (Z.to_nat duration)).
    rewrite Z2Nat.id in Hall by lia. apply Z.eqb_eq, Hall, in_seq. lia.
  - intros m Hm. unfold normalizeLockDuration, JS.floor. unfold JS.isFinite in Hm.
    destruct (Prim2SF m); try discriminate; reflexivity.
Qed.

Lemma setExtensionStatus_view (status : ExtensionStatus) (w : World.t) :
  exists w',
    setExtensionStatus status w = (Returned tt, w')
    /\ same_shared (stored_state w')
         (apply_update (update_extensionStatus status) (stored_state w))
    /\ same_clock w w'.
Proof.
  unfold setExtensionStatus. unfold_monad.
  run_setState next w1 Hn Hs Hc.
  eexists. split; [reflexivity|]. split; [etransitivity; eassumption|exact Hc].
Qed.

Lemma ExtensionStatus_eqb_eq (a b : ExtensionStatus) :
  ExtensionStatus_eqb a b = true <-> a = b.
Proof. destruct a, b; cbn; split; congruence. Qed.

(** [withExtensionStatus] around any function: the outcome is the
    function's, and the status is put back to "idle" if the function left
    the given one. *)
Lemma withExtensionStatus_view {T} (status : ExtensionStatus) (fn : M T) (w : World.t) :
  exists w1,
    setExtensionStatus status w = (Returned tt, w1)
    /\ same_shared (stored_state w1)
         (apply_update (update_extensionStatus status) (stored_state w))
    /\ same_clock w w1
    /\ exists w',
         withExtensionStatus status fn w = (fst (fn w1), w')
         /\ same_shared (stored_state w')
              (if ExtensionStatus_eqb
                    (ExtensionState.extensionStatus (stored_state (snd (fn w1)))) status
               then apply_update (update_extensionStatus idle) (stored_state (snd (fn w1)))
               else stored_state (snd (fn w1)))
         /\ same_clock (snd (fn w1)) w'.
Proof.
  destruct (setExtensionStatus_view status w) as (w1 & Hset & Hs1 & Hc1).
  exists w1. split; [exact Hset|]. split; [exact Hs1|]. split; [exact Hc1|].
  unfold withExtensionStatus, try_catch, throw. unfold_monad. rewrite Hset.
  destruct (fn w1) as [[result|thrown] w2]; cbn [fst snd];
    run_getState current w3 Hcur Hs3 Hc3;
    pose proof Hcur as (_ & _ & _ & _ & _ & Hstatus); rewrite Hstatus;
    (destruct (ExtensionStatus_eqb (ExtensionState.extensionStatus (stored_state w2)) status);
     [ destruct (setExtensionStatus_view idle w3) as (w4 & Hidle & Hs4 & Hc4);
       rewrite Hidle; eexists; split; [reflexivity|]; split;
       [ etransitivity; [exact Hs4|]; apply apply_update_shared; exact Hs3
       | etransitivity; eassumption ]
     | eexists; split; [reflexivity|]; split; assumption ]).
Qed.

(** X10: [withExtensionStatus] never leaves its own status behind.  For
    every function [fn] and every status other than "idle", the outcome
    is that of [fn] run after the status was stored, returned or thrown
    alike, and the status stored in the end is not the given one: it is
    "idle" unless [fn] stored another status itself. *)
Theorem withExtensionStatus_resets_status {T} (status : ExtensionStatus) (fn : M T)
    (w : World.t) :
  status <> idle ->
  let started := snd (setExtensionStatus status w) in
  let finished := snd (withExtensionStatus status fn w) in
  ExtensionState.extensionStatus (stored_state started) = status
  /\ fst (withExtensionStatus status fn w) = fst (fn started)
  /\ ExtensionState.extensionStatus (stored_state finished) <> status
  /\ (ExtensionState.extensionStatus (stored_state (snd (fn started))) = status ->
      ExtensionState.extensionStatus (stored_state finished) = idle).
Proof.
  intros Hstatus started finished. subst started finished.
  destruct (withExtensionStatus_view status fn w)
    as (w1 & Hset & Hs1 & _ & w' & Hwith & Hs & _).
  rewrite Hset, Hwith. cbn [fst snd].
  split; [apply Hs1|]. split; [reflexivity|].
  destruct Hs as (_ & _ & _ & _ & _ & Hfinal). rewrite Hfinal.
  destruct (ExtensionStatus_eqb (ExtensionState.extensionStatus (stored_state (snd (fn w1))))
              status) eqn:He.
  - cbn. split; [congruence|reflexivity].
  - split; [|intros Heq; apply ExtensionStatus_eqb_eq in Heq; congruence].
    intros Heq. apply ExtensionStatus_eqb_eq in Heq. congruence.
Qed.

Lemma withExtensionStatus_resets_status_witness :
  ExtensionState.extensionStatus
    (stored_state
       (snd (withExtensionStatus paying
               (processPayment Sample.failing (Sample.challenge 0.01%float) true)
               Sample.unlocked_world)))
  <> paying.
Proof.
  eapply (withExtensionStatus_resets_status paying
            (processPayment Sample.failing (Sample.challenge 0.01%float) true)
            Sample.unlocked_world).
  discriminate.
Defined.

(** ** Payments *)

(** A read followed by a write of an update computed from the members
    other than the wallet. *)
Lemma modify_view (f : ExtensionState.t -> StateUpdate.t) (w : World.t) :
  (forall a b, same_shared a b -> f a = f b) ->
  exists next w',
    (state ← getState false; setState (f state)) w = (Returned next, w')
    /\ same_shared (stored_state w') (apply_update (f (stored_state w)) (stored_state w))
    /\ same_shared next (stored_state w')
    /\ same_clock w w'.
Proof.
  intros Hf. unfold_monad.
  run_getState state w1 Hs Hs1 Hc1.
  run_setState next w2 Hn Hs2 Hc2.
  rewrite (Hf state (stored_state w) Hs) in *.
  eexists _, _. split; [reflexivity|]. split; [|split].
  - etransitivity; [exact Hs2|]. etransitivity; [exact Hn|].
    apply apply_update_shared. exact Hs1.
  - symmetry. exact Hs2.
  - etransitivity; eassumption.
Qed.

Lemma addHistory_view (record : PaymentRecord.t) (w : World.t) :
  exists next w',
    addHistory record w = (Returned next, w')
    /\ same_shared (stored_state w')
         (apply_update
            (update_history (firstn 2000 (record :: ExtensionState.history (stored_state w))))
            (stored_state w))
    /\ same_clock w w'.
Proof.
  destruct (modify_view
              (fun state =>
                 update_history (firstn 2000 (record :: ExtensionState.history state))) w)
    as (next & w' & H & Hs & _ & Hc).
  { intros a b (_ & _ & Hh & _). now rewrite Hh. }
  eauto.
Qed.

Lemma pruneJwtCache_shared (w : World.t) :
  exists next w',
    pruneJwtCache w = (Returned next, w')
    /\ same_shared (stored_state w')
         (apply_update
            (update_jwtCache
               (delete "__proto__"
                  (filter (fun entry => World.clock w < JwtCacheEntry.expiresAt (snd entry))
                     (ExtensionState.jwtCache (stored_state w)))))
            (stored_state w))
    /\ same_clock w w'.
Proof.
  destruct (modify_view
              (fun state =>
                 update_jwtCache
                   (delete "__proto__"
                      (filter
                         (fun entry => World.clock w < JwtCacheEntry.expiresAt (snd entry))
                         (ExtensionState.jwtCache state)))) w)
    as (next & w' & H & Hs & _ & Hc).
  { intros a b (_ & _ & _ & Hj & _). now rewrite Hj. }
  unfold pruneJwtCache. unfold_monad. unfold_monad. eauto.
Qed.

Lemma recordPayment_view (record : PaymentRecord.t) (w : World.t) :
  exists w',
    recordPayment record w = (Returned tt, w')
    /\ ExtensionState.history (stored_state w')
       = firstn 2000 (record :: ExtensionState.history (stored_state w))
    /\ ExtensionState.policies (stored_state w') = ExtensionState.policies (stored_state w)
    /\ ExtensionState.pendingChallenges (stored_state w')
       = ExtensionState.pendingChallenges (stored_state w)
    /\ ExtensionState.extensionStatus (stored_state w')
       = ExtensionState.extensionStatus (stored_state w)
    /\ ExtensionState.settings (stored_state w') = ExtensionState.settings (stored_state w)
    /\ same_clock w w'.
Proof.
  destruct (addHistory_view record w) as (n1 & w1 & H1 & Hs1 & Hc1).
  destruct (pruneJwtCache_shared w1) as (n2 & w2 & H2 & Hs2 & Hc2).
  unfold recordPayment. unfold_monad. rewrite H1, H2.
  destruct Hs1 as (A1 & A2 & A3 & A4 & A5 & A6). destruct Hs2 as (B1 & B2 & B3 & B4 & B5 & B6).
  cbn in *. eexists. split; [reflexivity|].
  repeat split; try congruence; try apply Hc1; destruct Hc1, Hc2; congruence.
Qed.






(** X13: without a configured wallet nothing is paid.  [processPayment]
    then returns the action "error" with the message "Wallet not
    configured"; it does not throw, files no record, and leaves the
    policies and the memory as they were. *)
Theorem payment_without_wallet_is_refused
    (ethers : Ethers.t) (challenge : ChallengeDetails.t) (autoApproved : bool) (w : World.t) :
  ExtensionState.wallet (stored_state w) = None ->
  let after := snd (processPayment ethers challenge autoApproved w) in
  fst (processPayment ethers challenge autoApproved w)
  = Returned (ChallengeResolution.mk error_action (Some "Wallet not configured") None None)
  /\ same_shared (stored_state after) (stored_state w)
  /\ ExtensionState.wallet (stored_state after) = None
  /\ World.runtimePrivateKey after = World.runtimePrivateKey w
  /\ World.runtimeLockedUntil after = World.runtimeLockedUntil w.
Proof.
  intros Hnone after. subst after. unfold processPayment. unfold_monad.
  pose proof (getState_cases true w) as H. unfold stored_state in *.
  destruct (World.stored w) as [st|] eqn:Hst.
  - rewrite Hnone in H. rewrite H. cbn [fst snd mergeStored ExtensionState.wallet].
    rewrite Hnone. cbn [fst snd]. rewrite Hst, Hnone. repeat split.
  - rewrite H. cbn. repeat split.
Qed.

Lemma payment_without_wallet_is_refused_witness :
  fst (processPayment Sample.signing (Sample.challenge 0.01%float) true
         (World.mk None None 0 Sample.now [] (fun _ => Byte.x2a) None))
  = Returned (ChallengeResolution.mk error_action (Some "Wallet not configured") None None).
Proof.
  eapply (payment_without_wallet_is_refused Sample.signing (Sample.challenge 0.01%float) true
            (World.mk None None 0 Sample.now [] (fun _ => Byte.x2a) None)).
  reflexivity.
Defined.

(** ** Pending challenges and the prompt *)

Lemma updateSettings_view (patch : SettingsPatch.t) (w : World.t) :
  exists next w',
    updateSettings patch w = (Returned next, w')
    /\ same_shared (stored_state w')
         (apply_update
            (update_settings (spreadSettings (ExtensionState.settings (stored_state w)) patch))
            (stored_state w))
    /\ same_clock w w'.
Proof.
  destruct (modify_view
              (fun state =>
                 update_settings (spreadSettings (ExtensionState.settings state) patch)) w)
    as (next & w' & H & Hs & _ & Hc).
  { intros a b (Hse & _). now rewrite Hse. }
  eauto.
Qed.

Lemma pruneExpiredChallenges_view (w : World.t) :
  exists w',
    pruneExpiredChallenges w = (Returned tt, w')
    /\ same_shared (stored_state w')
         (apply_update
            (update_pendingChallenges
               (filter (kept (World.clock w))
                  (ExtensionState.pendingChallenges (stored_state w))))
            (stored_state w))
    /\ same_clock w w'.
Proof.
  unfold pruneExpiredChallenges. unfold_monad.
  run_getState state w1 Hs Hs1 Hc1.
  pose proof Hs as (_ & _ & _ & _ & Hq & _). rewrite Hq.
  destruct Hc1 as [Hclock Hprompt]. rewrite Hclock.
  destruct (prune_loop_spec (World.clock w)
              (ExtensionState.pendingChallenges (stored_state w))) as [Hpruned Hsame].
  destruct (prune_loop (World.clock w) (ExtensionState.pendingChallenges (stored_state w)))
    as [changed pruned].
  cbn [fst snd] in Hpruned, Hsame. subst pruned. destruct changed.
  - run_setState next w2 Hn Hs2 Hc2.
    eexists. split; [reflexivity|]. split.
    + etransitivity; [exact Hs2|]. etransitivity; [exact Hn|].
      apply apply_update_shared. exact Hs1.
    + destruct Hc2. split; congruence.
  - eexists. split; [reflexivity|]. split; [|split; assumption].
    rewrite (Hsame eq_refl).
    destruct Hs1 as (A1 & A2 & A3 & A4 & A5 & A6). repeat split; cbn; assumption.
Qed.

Lemma getPendingChallenges_view (w : World.t) :
  let pending :=
    filter (kept (World.clock w)) (ExtensionState.pendingChallenges (stored_state w)) in
  exists w',
    getPendingChallenges w = (Returned pending, w')
    /\ same_shared (stored_state w')
         (apply_update (update_pendingChallenges pending) (stored_state w))
    /\ same_clock w w'.
Proof.
  intros pending. unfold getPendingChallenges. unfold_monad.
  destruct (pruneExpiredChallenges_view w) as (w1 & Hprune & Hs1 & Hc1).
  rewrite Hprune.
  run_getState state w2 Hs Hs2 Hc2.
  pose proof Hs as (_ & _ & _ & _ & Hq & _). pose proof Hs1 as (_ & _ & _ & _ & Hq1 & _).
  cbn in Hq1. rewrite Hq, Hq1.
  eexists. split; [reflexivity|]. split.
  - etransitivity; eassumption.
  - etransitivity; eassumption.
Qed.

Lemma savePendingChallenges_view (pending : gmap string PendingChallenge.t) (w : World.t) :
  exists w',
    savePendingChallenges pending w = (Returned tt, w')
    /\ same_shared (stored_state w')
         (apply_update (update_pendingChallenges pending) (stored_state w))
    /\ same_clock w w'.
Proof.
  unfold savePendingChallenges. unfold_monad.
  run_setState next w1 Hn Hs Hc.
  eexists. split; [reflexivity|]. split; [etransitivity; eassumption|exact Hc].
Qed.

Lemma ensureChallengeStored_view (challenge : ChallengeDetails.t) (tabId windowId : option Z)
    (w : World.t) :
  exists w',
    ensureChallengeStored challenge tabId windowId w = (Returned tt, w')
    /\ same_shared (stored_state w')
         (apply_update
            (update_pendingChallenges
               (assign (ChallengeDetails.challengeId challenge)
                  (PendingChallenge.mk challenge tabId (World.clock w) windowId)
                  (filter (kept (World.clock w))
                     (ExtensionState.pendingChallenges (stored_state w)))))
            (stored_state w))
    /\ same_clock w w'.
Proof.
  unfold ensureChallengeStored. unfold_monad.
  destruct (getPendingChallenges_view w) as (w1 & Hget & Hs1 & Hc1). rewrite Hget.
  destruct Hc1 as [Hclock Hprompt]. rewrite Hclock.
  match goal with
  | |- context [savePendingChallenges ?p w1] =>
      destruct (savePendingChallenges_view p w1) as (w2 & Hsave & Hs2 & Hc2)
  end.
  rewrite Hsave. eexists. split; [reflexivity|]. split.
  - etransitivity; [exact Hs2|].
    destruct Hs1 as (A1 & A2 & A3 & A4 & A5 & A6). repeat split; cbn in *; assumption.
  - destruct Hc2. split; congruence.
Qed.

Lemma clearChallenge_view (challengeId : string) (w : World.t) :
  exists w',
    clearChallenge challengeId w = (Returned tt, w')
    /\ same_shared (stored_state w')
         (apply_update
            (update_pendingChallenges
               (delete challengeId
                  (filter (kept (World.clock w))
                     (ExtensionState.pendingChallenges (stored_state w)))))
            (stored_state w))
    /\ same_clock w w'.
Proof.
  unfold clearChallenge. unfold_monad.
  destruct (getPendingChallenges_view w) as (w1 & Hget & Hs1 & Hc1). rewrite Hget.
  match goal with
  | |- context [savePendingChallenges ?p w1] =>
      destruct (savePendingChallenges_view p w1) as (w2 & Hsave & Hs2 & Hc2)
  end.
  rewrite Hsave. eexists. split; [reflexivity|]. split.
  - etransitivity; [exact Hs2|].
    destruct Hs1 as (A1 & A2 & A3 & A4 & A5 & A6). repeat split; cbn in *; assumption.
  - etransitivity; eassumption.
Qed.

(** The decision reads the threshold, the prompt switch, the daily cap,
    the policies and the history, and nothing else. *)
Lemma shouldAutoApprove_reads (a b : ExtensionState.t) (challenge : ChallengeDetails.t)
    (now : Z) :
  ExtensionSettings.thresholdUsd (ExtensionState.settings a)
  = ExtensionSettings.thresholdUsd (ExtensionState.settings b) ->
  ExtensionSettings.promptRequired (ExtensionState.settings a)
  = ExtensionSettings.promptRequired (ExtensionState.settings b) ->
  ExtensionSettings.dailyAutoCapUsd (ExtensionState.settings a)
  = ExtensionSettings.dailyAutoCapUsd (ExtensionState.settings b) ->
  ExtensionState.policies a = ExtensionState.policies b ->
  ExtensionState.history a = ExtensionState.history b ->
  shouldAutoApprove a challenge now = shouldAutoApprove b challenge now.
Proof.
  intros H1 H2 H3 H4 H5. unfold shouldAutoApprove, spentInLast24h.
  rewrite H1, H2, H3, H4, H5. reflexivity.
Qed.

(** ** The pending store and the write log *)

Lemma lookup_kept (now : Z) (pending : gmap string PendingChallenge.t) (id : string) :
  filter (kept now) pending !! id
  = match pending !! id with
    | Some entry => if expired now entry then None else Some entry
    | None => None
    end.
Proof.
  destruct (pending !! id) as [entry|] eqn:Hentry.
  - destruct (expired now entry) eqn:He.
    + apply map_lookup_filter_None. right. intros entry' Hentry'.
      assert (entry' = entry) by congruence. subst entry'. unfold kept. cbn. congruence.
    + apply map_lookup_filter_Some. split; [exact Hentry|exact He].
  - apply map_lookup_filter_None. left. exact Hentry.
Qed.

Lemma kept_twice (now : Z) (pending : gmap string PendingChallenge.t) :
  filter (kept now) (filter (kept now) pending) = filter (kept now) pending.
Proof.
  apply map_eq. intros id. rewrite !lookup_kept.
  destruct (pending !! id) as [entry|]; [|reflexivity].
  destruct (expired now entry) eqn:He; [reflexivity|]. rewrite He. reflexivity.
Qed.

Lemma assign_twice {T} (key : string) (a b : T) (object : gmap string T) :
  assign key b (assign key a object) = assign key b object.
Proof.
  unfold assign. destruct (Str.eqb key "__proto__"); [reflexivity|]. apply insert_insert_eq.
Qed.

Lemma kept_assign (now : Z) (key : string) (entry : PendingChallenge.t)
    (pending : gmap string PendingChallenge.t) :
  expired now entry = false ->
  filter (kept now) (assign key entry pending) = assign key entry (filter (kept now) pending).
Proof.
  intros He. unfold assign. destruct (Str.eqb key "__proto__"); [reflexivity|].
  apply map_filter_insert_True. exact He.
Qed.

Lemma new_entry_kept (challenge : ChallengeDetails.t) (tabId windowId : option Z) (now : Z) :
  expired now (PendingChallenge.mk challenge tabId now windowId) = false.
Proof. unfold expired. cbn. rewrite Z.sub_diag. apply andb_false_r. Qed.

Lemma returns_keeping_run {A} (I : World.t -> Prop) (c : M A) (w : World.t) :
  returns_keeping I c -> I w -> I (snd (c w)).
Proof. intros H Hw. apply (H w Hw). Qed.

(** Running a function whose writes are clean extends the write log. *)
Lemma run_clean {A} (c : M A) (w w' : World.t) (outcome : Outcome A) :
  steps wrote_no_privateKey c -> c w = (outcome, w') -> wrote_no_privateKey w w'.
Proof. intros H E. specialize (H w). rewrite E in H. exact H. Qed.

Lemma wrote_status_before (status : ExtensionStatus) (w0 w1 w2 : World.t) :
  wrote_no_privateKey w0 w1 -> wrote_status status w1 w2 -> wrote_status status w0 w2.
Proof.
  intros (new & Hnew & _) (newer & doc & older & Hlog & Hdoc).
  exists newer, doc, (older ++ new)%list. split; [|exact Hdoc].
  rewrite Hlog, Hnew, <- app_assoc. reflexivity.
Qed.

Lemma wrote_status_after (status : ExtensionStatus) (w0 w1 w2 : World.t) :
  wrote_status status w0 w1 -> wrote_no_privateKey w1 w2 -> wrote_status status w0 w2.
Proof.
  intros (newer & doc & older & Hlog & Hdoc) (new & Hnew & _).
  exists (new ++ newer)%list, doc, older. split; [|exact Hdoc].
  rewrite Hnew, Hlog, <- app_assoc. reflexivity.
Qed.

Lemma setExtensionStatus_clean (status : ExtensionStatus) :
  steps wrote_no_privateKey (setExtensionStatus status).
Proof. unfold setExtensionStatus. steps_structure. apply setState_clean. Qed.

Lemma setExtensionStatus_wrote (status : ExtensionStatus) (w : World.t) :
  wrote_status status w (snd (setExtensionStatus status w)).
Proof.
  destruct (getState_view false w) as (current & w1 & Hget & _).
  pose proof (run_clean _ _ _ _ (getState_clean false) Hget) as (new & Hnew & _).
  unfold setExtensionStatus, mbind, M_bind, bind.
  rewrite (setState_eq _ w w1 current Hget). cbn.
  eexists [], _, new. split; [cbn; rewrite Hnew; reflexivity|reflexivity].
Qed.

Lemma withExtensionStatus_clean {T} (status : ExtensionStatus) (fn : M T) :
  steps wrote_no_privateKey fn -> steps wrote_no_privateKey (withExtensionStatus status fn).
Proof.
  intros Hfn. unfold withExtensionStatus. steps_structure.
  all: try destruct (ExtensionStatus_eqb _ _); steps_structure.
  all: first [ exact Hfn | apply getState_clean | apply setExtensionStatus_clean ].
Qed.

Lemma bind_returned {A B} (c : M A) (k : A -> M B) (w w1 : World.t) (a : A) :
  c w = (Returned a, w1) -> mbind k c w = k a w1.
Proof. intros H. unfold mbind, M_bind, bind. rewrite H. reflexivity. Qed.

Lemma try_catch_thrown {A} (c : M A) (handler : Err -> M A) (w w1 : World.t) (e : Err) :
  c w = (Thrown e, w1) -> try_catch c handler w = handler e w1.
Proof. intros H. unfold try_catch. rewrite H. reflexivity. Qed.

(** [withExtensionStatus(status, fn)] writes [status] to the store before
    it calls [fn]. *)
Lemma withExtensionStatus_wrote {T} (status : ExtensionStatus) (fn : M T) (w : World.t) :
  steps wrote_no_privateKey fn ->
  wrote_status status w (snd (withExtensionStatus status fn w)).
Proof.
  intros Hfn.
  pose proof (setExtensionStatus_wrote status w) as Hset.
  destruct (setExtensionStatus_view status w) as (w1 & Hrun & _).
  rewrite Hrun in Hset. cbn [snd] in Hset.
  unfold withExtensionStatus. rewrite (bind_returned _ _ w w1 tt Hrun).
  apply (wrote_status_after status w w1); [exact Hset|].
  match goal with
  | |- wrote_no_privateKey w1 (snd (?c w1)) => assert (Hc : steps wrote_no_privateKey c)
  end.
  { steps_structure.
    all: try destruct (ExtensionStatus_eqb _ _); steps_structure.
    all: first [ exact Hfn | apply getState_clean | apply setExtensionStatus_clean ]. }
  apply Hc.
Qed.

Lemma updateSettings_clean (settings : SettingsPatch.t) :
  steps wrote_no_privateKey (updateSettings settings).
Proof.
  unfold updateSettings. steps_structure.
  all: first [ apply getState_clean | apply setState_clean ].
Qed.

Lemma ensureChallengeStored_clean (challenge : ChallengeDetails.t) (tabId windowId : option Z) :
  steps wrote_no_privateKey (ensureChallengeStored challenge tabId windowId).
Proof.
  unfold ensureChallengeStored, savePendingChallenges, getPendingChallenges,
    pruneExpiredChallenges.
  steps_structure.
  all: try destruct (fst (prune_loop _ _)); steps_structure.
  all: first [ apply getState_clean | apply setState_clean ].
Qed.

(** ** The locked wallet and the prompt *)

(** With no valid transient secret [processPayment] persists the locked
    wallet, throws, and leaves the other members of the store alone. *)
Lemma processPayment_locked_view (ethers : Ethers.t) (challenge : ChallengeDetails.t)
    (autoApproved : bool) (w : World.t) :
  locked_with_wallet w ->
  exists w',
    processPayment ethers challenge autoApproved w = (Thrown WalletLockedError, w')
    /\ same_shared (stored_state w') (stored_state w)
    /\ locked_with_wallet w'
    /\ same_clock w w'.
Proof.
  intros [(st & wallet & Hst & Hw) Hlocked].
  destruct (getState_locked true w st wallet Hst Hw Hlocked) as (w1 & Hget & _ & _).
  destruct (getState_view true w) as (state & w1' & Hget' & _ & Hs1 & Hc1).
  rewrite Hget in Hget'. injection Hget' as <- <-.
  unfold processPayment, mbind, M_bind, bind. rewrite Hget.
  cbn [set_wallet ExtensionState.wallet Date_now without_privateKey WalletData.privateKey
       truthy_string negb orb].
  match goal with
  | |- context [setState (update_wallet ?wl) w1] =>
      destruct (setState_wallet_view wl w1)
        as (next & st2 & w2 & Hset & _ & Hst2 & Hw2 & Hs2 & Hrk & _ & Hc2)
  end.
  rewrite Hset. unfold throw. eexists. split; [reflexivity|]. split; [|split].
  - unfold stored_state at 1. rewrite Hst2. etransitivity; eassumption.
  - split; [eexists _, _; split; [exact Hst2|exact Hw2]|].
    left. rewrite Hrk. reflexivity.
  - etransitivity; eassumption.
Qed.

(** The prompt path: the window is opened and the challenge is stored
    again with the window's id; a failure to open it is ignored. *)
Lemma prompt_view (challenge : ChallengeDetails.t) (tabId : option Z) (w : World.t) :
  let prompt :=
    try_catch
      (promptWindow ← windows_create;
       ensureChallengeStored challenge tabId promptWindow)
      (fun _ => ret tt) in
  exists w',
    prompt w = (Returned tt, w')
    /\ same_shared (stored_state w')
         (match World.promptWindow w with
          | Some windowId =>
              apply_update
                (update_pendingChallenges
                   (assign (ChallengeDetails.challengeId challenge)
                      (PendingChallenge.mk challenge tabId (World.clock w) windowId)
                      (filter (kept (World.clock w))
                         (ExtensionState.pendingChallenges (stored_state w)))))
                (stored_state w)
          | None => stored_state w
          end)
    /\ same_clock w w'
    /\ wrote_no_privateKey w w'
    /\ (locked_with_wallet w -> locked_with_wallet w').
Proof.
  intros prompt. subst prompt. unfold try_catch, windows_create, mbind, M_bind, bind.
  destruct (World.promptWindow w) as [windowId|] eqn:Hp.
  - destruct (ensureChallengeStored_view challenge tabId windowId w) as (w' & Hrun & Hs & Hc).
    rewrite Hrun. exists w'. split; [reflexivity|]. split; [exact Hs|]. split; [exact Hc|].
    split.
    + apply (run_clean _ _ _ _ (ensureChallengeStored_clean challenge tabId windowId) Hrun).
    + intros Hl.
      pose proof (returns_keeping_run _ _ w
                    (ensureChallengeStored_keeps_locked challenge tabId windowId) Hl) as H.
      rewrite Hrun in H. exact H.
  - exists w. split; [reflexivity|]. split; [reflexivity|]. split; [reflexivity|].
    split; [reflexivity|]. intros H; exact H.
Qed.

(** The rest of [handleChallenge] once the settings are synchronised,
    when the decision is to approve and the wallet is locked. *)
Lemma attempt_view (ethers : Ethers.t) (challenge : ChallengeDetails.t) (tabId : option Z)
    (state : ExtensionState.t) (w : World.t) :
  locked_with_wallet w ->
  shouldAutoApprove state challenge (World.clock w) = true ->
  let attempt : M ChallengeResolution.t :=
    ensureChallengeStored challenge tabId None;;
    now ← Date_now;
    let prompt : M ChallengeResolution.t :=
      try_catch
        (promptWindow ← windows_create;
         ensureChallengeStored challenge tabId promptWindow)
        (fun _ => ret tt);;
      ret (ChallengeResolution.mk pending_action None None
             (Some (ChallengeDetails.challengeId challenge))) in
    if shouldAutoApprove state challenge now then
      try_catch
        (withExtensionStatus paying (processPayment ethers challenge true))
        (fun thrown =>
           match thrown with
           | WalletLockedError => prompt
           | _ => throw thrown
           end)
    else prompt in
  exists w',
    attempt w = (Returned (pending_resolution challenge), w')
    /\ ExtensionState.pendingChallenges (stored_state w')
       = assign (ChallengeDetails.challengeId challenge)
           (PendingChallenge.mk challenge tabId (World.clock w)
              (match World.promptWindow w with
               | Some windowId => windowId
               | None => None
               end))
           (filter (kept (World.clock w))
              (ExtensionState.pendingChallenges (stored_state w)))
    /\ ExtensionState.history (stored_state w') = ExtensionState.history (stored_state w)
    /\ ExtensionState.policies (stored_state w') = ExtensionState.policies (stored_state w)
    /\ ExtensionState.extensionStatus (stored_state w') = idle
    /\ wrote_status paying w w'
    /\ locked_with_wallet w'.
Proof.
  intros Hlocked Hauto attempt. subst attempt.
  destruct (ensureChallengeStored_view challenge tabId None w) as (w1 & Hstore & Hs1 & Hc1).
  pose proof (returns_keeping_run _ _ w
                (ensureChallengeStored_keeps_locked challenge tabId None) Hlocked) as L1.
  rewrite Hstore in L1. cbn [snd] in L1.
  pose proof (run_clean _ _ _ _ (ensureChallengeStored_clean challenge tabId None) Hstore)
    as G1.
  rewrite (bind_returned _ _ w w1 tt Hstore).
  rewrite (bind_returned Date_now _ w1 w1 (World.clock w1) eq_refl).
  destruct Hc1 as [Hclock1 Hprompt1].
  destruct (withExtensionStatus_view paying (processPayment ethers challenge true) w1)
    as (w2 & Hset & Hs2 & Hc2 & w4 & Hwith & Hs4 & Hc4).
  pose proof (returns_keeping_run _ _ w1 (setExtensionStatus_keeps_locked paying) L1) as L2.
  rewrite Hset in L2. cbn [snd] in L2.
  destruct (processPayment_locked_view ethers challenge true w2 L2)
    as (w3 & Hpay & Hs3 & _ & Hc3).
  rewrite Hpay in Hwith, Hs4, Hc4. cbn [fst snd] in Hwith, Hs4, Hc4.
  pose proof (withExtensionStatus_locked paying _
                (processPayment_locked ethers challenge true) w1 L1) as [_ L4].
  pose proof (withExtensionStatus_wrote paying _ w1
                (processPayment_clean ethers challenge true)) as G4.
  rewrite Hwith in L4, G4. cbn [snd] in L4, G4.
  cbv beta zeta. rewrite Hclock1, Hauto.
  rewrite (try_catch_thrown _ _ w1 w4 WalletLockedError Hwith).
  destruct (prompt_view challenge tabId w4) as (w5 & Hprompt & Hs5 & Hc5 & G5 & L5).
  rewrite (bind_returned _ _ w4 w5 tt Hprompt).
  exists w5. split; [reflexivity|].
  destruct Hs1 as (_ & A2 & A3 & _ & A5 & A6). destruct Hs2 as (_ & B2 & B3 & _ & B5 & B6).
  destruct Hs3 as (_ & C2 & C3 & _ & C5 & C6). cbn in A2, A3, A5, A6, B2, B3, B5, B6.
  rewrite C6, B6 in Hs4. cbn in Hs4. destruct Hs4 as (_ & D2 & D3 & _ & D5 & D6).
  cbn in D2, D3, D5, D6.
  assert (Hclock4 : World.clock w4 = World.clock w).
  { destruct Hc2 as [E2 _], Hc3 as [E3 _], Hc4 as [E4 _]. congruence. }
  assert (Hwindow4 : World.promptWindow w4 = World.promptWindow w).
  { destruct Hc2 as [_ E2], Hc3 as [_ E3], Hc4 as [_ E4]. congruence. }
  assert (Hpending4 :
            ExtensionState.pendingChallenges (stored_state w4)
            = assign (ChallengeDetails.challengeId challenge)
                (PendingChallenge.mk challenge tabId (World.clock w) None)
                (filter (kept (World.clock w))
                   (ExtensionState.pendingChallenges (stored_state w)))) by congruence.
  rewrite Hwindow4, Hclock4, Hpending4 in Hs5.
  split; [|split; [|split; [|split; [|split]]]].
  - destruct (World.promptWindow w) as [windowId|].
    + destruct Hs5 as (_ & _ & _ & _ & E5 & _). cbn in E5. rewrite E5.
      rewrite kept_assign by apply new_entry_kept.
      rewrite kept_twice. apply assign_twice.
    + destruct Hs5 as (_ & _ & _ & _ & E5 & _). rewrite E5. exact Hpending4.
  - destruct (World.promptWindow w); destruct Hs5 as (_ & _ & E5 & _); cbn in E5; congruence.
  - destruct (World.promptWindow w); destruct Hs5 as (_ & E5 & _); cbn in E5; congruence.
  - destruct (World.promptWindow w); destruct Hs5 as (_ & _ & _ & _ & _ & E5); cbn in E5;
      congruence.
  - apply (wrote_status_after paying w w4 w5); [|exact G5].
    apply (wrote_status_before paying w w1 w4); [exact G1|exact G4].
  - apply L5, L4.
Qed.

(** C7, as stated, fails where no wallet is configured: on a fresh
    install there is no private key in memory, the default settings
    approve a payment of 0.01 USD, and [processPayment] does not throw
    [WalletLockedError] but answers "Wallet not configured": the handler
    fails the request with the action "error" and opens no prompt. *)
Lemma unconfigured_wallet_fails_the_request :
  World.runtimePrivateKey Sample.fresh_world = None
  /\ shouldAutoApprove (stored_state Sample.fresh_world) (Sample.challenge 0.01%float)
       (World.clock Sample.fresh_world) = true
  /\ fst (processPayment Sample.signing (Sample.challenge 0.01%float) true Sample.fresh_world)
     = Returned
         (ChallengeResolution.mk error_action (Some "Wallet not configured") None None)
  /\ fst (handleChallenge Sample.signing (Sample.challenge 0.01%float) (Some 3)
            Sample.fresh_world)
     = Returned
         (ChallengeResolution.mk error_action (Some "Wallet not configured") None None).
Proof. vm_compute. repeat split. Qed.

(** Ends the proof below once the chain setting is synchronised: [state]
    is the document the decision is taken on, [w2] the world reached. *)
Ltac attempt_and_prompt ethers challenge tabId state w w2 L2 Hauto2 G2 Hc2 Hq2 Hh2 Hp2 :=
  let H := fresh "H" in
  let w' := fresh "w" in
  let Hattempt := fresh "Hattempt" in
  let Hq := fresh "Hq" in
  let Hh := fresh "Hh" in
  let Hp := fresh "Hp" in
  let Hidle := fresh "Hidle" in
  let G := fresh "G" in
  let L := fresh "L" in
  let Hclock := fresh "Hclock" in
  let Hwindow := fresh "Hwindow" in
  destruct Hc2 as [Hclock Hwindow];
  rewrite <- Hclock in Hauto2;
  pose proof (attempt_view ethers challenge tabId state w2 L2 Hauto2) as H;
  cbv beta zeta in H; destruct H as (w' & Hattempt & Hq & Hh & Hp & Hidle & G & L);
  rewrite Hattempt; cbn [fst snd];
  rewrite Hclock, Hwindow, Hq2 in Hq;
  split; [apply (wrote_status_before paying w w2 w'); [exact G2|exact G]|];
  split; [reflexivity|];
  split; [exact Hq|];
  split; [congruence|];
  split; [congruence|];
  split; [exact Hidle|exact L].

(** C7: whenever a wallet is configured but holds no valid transient
    secret (no in-memory private key, or [lockedUntil <= now]) and the
    policy engine approves the challenge, payment processing fails with
    [WalletLockedError] and the challenge handler, instead of failing the
    request, goes through these steps: it attempts the payment (the
    status "paying" is written to the store), it returns the action
    "pending" with the challenge id, and it leaves the pending store
    pruned of its expired entries, with the challenge assigned under its
    id ([assign]) together with the sender's tab, the time of the call
    and the id of the prompt window it opened (none if the window could
    not be opened); no payment record is filed, no policy changes, the
    extension status is back to "idle" and the wallet is still locked. *)
Theorem locked_wallet_falls_through_to_prompt
    (ethers : Ethers.t) (challenge : ChallengeDetails.t) (tabId : option Z) (w : World.t) :
  locked_with_wallet w ->
  shouldAutoApprove (stored_state w) challenge (World.clock w) = true ->
  let w' := snd (handleChallenge ethers challenge tabId w) in
  (forall v, locked_with_wallet v ->
             fst (processPayment ethers challenge true v) = Thrown WalletLockedError)
  /\ wrote_status paying w w'
  /\ fst (handleChallenge ethers challenge tabId w) = Returned (pending_resolution challenge)
  /\ ExtensionState.pendingChallenges (stored_state w')
     = assign (ChallengeDetails.challengeId challenge)
         (PendingChallenge.mk challenge tabId (World.clock w)
            (match World.promptWindow w with
             | Some windowId => windowId
             | None => None
             end))
         (filter (kept (World.clock w)) (ExtensionState.pendingChallenges (stored_state w)))
  /\ ExtensionState.history (stored_state w') = ExtensionState.history (stored_state w)
  /\ ExtensionState.policies (stored_state w') = ExtensionState.policies (stored_state w)
  /\ ExtensionState.extensionStatus (stored_state w') = idle
  /\ locked_with_wallet w'.
Proof.
  intros Hlocked Hauto w'. subst w'.
  split; [intros v Hv; apply (processPayment_locked ethers challenge true v Hv)|].
  unfold handleChallenge.
  destruct (getState_view false w) as (state0 & w1 & Hget & Hs0 & Hs1 & Hc1).
  pose proof (returns_keeping_run _ _ w (getState_keeps_locked false) Hlocked) as L1.
  rewrite Hget in L1. cbn [snd] in L1.
  pose proof (run_clean _ _ _ _ (getState_clean false) Hget) as G1.
  rewrite (bind_returned _ _ w w1 state0 Hget). cbv beta zeta.
  destruct Hs0 as (A1 & A2 & A3 & _). destruct Hs1 as (_ & B2 & B3 & _ & B5 & _).
  assert (Hauto1 : shouldAutoApprove state0 challenge (World.clock w) = true).
  { rewrite <- Hauto. apply shouldAutoApprove_reads; congruence. }
  destruct (mapChainId (ChallengeDetails.chainId challenge)) as [chain|].
  - destruct (negb (ChainId_eqb chain _)).
    + destruct (updateSettings_view (SettingsPatch.only_chain chain) w1)
        as (next & w2 & Hupd & Hs2 & Hc2).
      pose proof (returns_keeping_run _ _ w1
                    (updateSettings_keeps_locked (SettingsPatch.only_chain chain)) L1) as L2.
      rewrite Hupd in L2. cbn [snd] in L2.
      pose proof (run_clean _ _ _ _ (updateSettings_clean (SettingsPatch.only_chain chain))
                    Hupd) as G2.
      rewrite (bind_returned _ _ w1 w2 _
                 (eq_trans (bind_returned _ _ w1 w2 next Hupd) eq_refl)).
      cbv beta zeta.
      destruct Hs2 as (_ & C2 & C3 & _ & C5 & _). cbn in C2, C3, C5.
      assert (Hauto2 : shouldAutoApprove
                         (set_settings state0
                            (spreadSettings (ExtensionState.settings state0)
                               (SettingsPatch.only_chain chain)))
                         challenge (World.clock w) = true)
        by (rewrite <- Hauto1; apply shouldAutoApprove_reads; reflexivity).
      assert (Hc : same_clock w w2) by (etransitivity; eassumption).
      assert (G : wrote_no_privateKey w w2) by (etransitivity; eassumption).
      assert (Hq2 : ExtensionState.pendingChallenges (stored_state w2)
                    = ExtensionState.pendingChallenges (stored_state w)) by congruence.
      assert (Hh2 : ExtensionState.history (stored_state w2)
                    = ExtensionState.history (stored_state w)) by congruence.
      assert (Hp2 : ExtensionState.policies (stored_state w2)
                    = ExtensionState.policies (stored_state w)) by congruence.
      attempt_and_prompt ethers challenge tabId
        (set_settings state0
           (spreadSettings (ExtensionState.settings state0) (SettingsPatch.only_chain chain)))
        w w2 L2 Hauto2 G Hc Hq2 Hh2 Hp2.
    + rewrite (bind_returned (ret state0) _ w1 w1 state0 eq_refl). cbv beta zeta.
      attempt_and_prompt ethers challenge tabId state0 w w1 L1 Hauto1 G1 Hc1 B5 B3 B2.
  - rewrite (bind_returned (ret state0) _ w1 w1 state0 eq_refl). cbv beta zeta.
    attempt_and_prompt ethers challenge tabId state0 w w1 L1 Hauto1 G1 Hc1 B5 B3 B2.
Qed.

Lemma locked_wallet_falls_through_to_prompt_witness :
  fst (handleChallenge Sample.failing (Sample.challenge 0.01%float) (Some 3)
         Sample.locked_world)
  = Returned (pending_resolution (Sample.challenge 0.01%float))
  /\ ExtensionState.pendingChallenges
       (stored_state
          (snd (handleChallenge Sample.failing (Sample.challenge 0.01%float) (Some 3)
                  Sample.locked_world)))
     = {[ "ch-1" := PendingChallenge.mk (Sample.challenge 0.01%float) (Some 3) Sample.now
                      (Some 7) ]}.
Proof.
  destruct (locked_wallet_falls_through_to_prompt Sample.failing
              (Sample.challenge 0.01%float) (Some 3) Sample.locked_world)
    as (_ & _ & Hpending & Hstored & _).
  - split; [|left; reflexivity].
    eexists _, _. split; reflexivity.
  - vm_compute. reflexivity.
  - split; [exact Hpending|]. rewrite Hstored. vm_compute. reflexivity.
Defined.

(** ** Deferred challenges and prompt decisions *)

(** The rest of [handleChallenge] once the settings are synchronised,
    when the decision is to defer. *)
Lemma defer_view (ethers : Ethers.t) (challenge : ChallengeDetails.t) (tabId : option Z)
    (state : ExtensionState.t) (w : World.t) :
  shouldAutoApprove state challenge (World.clock w) = false ->
  let deferred : M ChallengeResolution.t :=
    ensureChallengeStored challenge tabId None;;
    now ← Date_now;
    let prompt : M ChallengeResolution.t :=
      try_catch
        (promptWindow ← windows_create;
         ensureChallengeStored challenge tabId promptWindow)
        (fun _ => ret tt);;
      ret (ChallengeResolution.mk pending_action None None
             (Some (ChallengeDetails.challengeId challenge))) in
    if shouldAutoApprove state challenge now then
      try_catch
        (withExtensionStatus paying (processPayment ethers challenge true))
        (fun thrown =>
           match thrown with
           | WalletLockedError => prompt
           | _ => throw thrown
           end)
    else prompt in
  exists w',
    deferred w = (Returned (pending_resolution challenge), w')
    /\ ExtensionState.pendingChallenges (stored_state w')
       = assign (ChallengeDetails.challengeId challenge)
           (PendingChallenge.mk challenge tabId (World.clock w)
              (match World.promptWindow w with
               | Some windowId => windowId
               | None => None
               end))
           (filter (kept (World.clock w))
              (ExtensionState.pendingChallenges (stored_state w)))
    /\ ExtensionState.history (stored_state w') = ExtensionState.history (stored_state w)
    /\ ExtensionState.policies (stored_state w') = ExtensionState.policies (stored_state w)
    /\ ExtensionState.extensionStatus (stored_state w')
       = ExtensionState.extensionStatus (stored_state w).
Proof.
  intros Hdefer deferred. subst deferred.
  destruct (ensureChallengeStored_view challenge tabId None w) as (w1 & Hstore & Hs1 & Hc1).
  rewrite (bind_returned _ _ w w1 tt Hstore).
  rewrite (bind_returned Date_now _ w1 w1 (World.clock w1) eq_refl).
  destruct Hc1 as [Hclock1 Hwindow1].
  cbv beta zeta. rewrite Hclock1, Hdefer.
  destruct (prompt_view challenge tabId w1) as (w2 & Hprompt & Hs2 & _).
  rewrite (bind_returned _ _ w1 w2 tt Hprompt).
  exists w2. split; [reflexivity|].
  destruct Hs1 as (_ & A2 & A3 & _ & A5 & A6). cbn in A2, A3, A5, A6.
  rewrite Hwindow1, Hclock1, A5 in Hs2.
  split; [|split; [|split]].
  - destruct (World.promptWindow w) as [windowId|].
    + destruct Hs2 as (_ & _ & _ & _ & E & _). cbn in E. rewrite E.
      rewrite kept_assign by apply new_entry_kept.
      rewrite kept_twice. apply assign_twice.
    + destruct Hs2 as (_ & _ & _ & _ & E & _). rewrite E. exact A5.
  - destruct (World.promptWindow w); destruct Hs2 as (_ & _ & E & _); cbn in E; congruence.
  - destruct (World.promptWindow w); destruct Hs2 as (_ & E & _); cbn in E; congruence.
  - destruct (World.promptWindow w); destruct Hs2 as (_ & _ & _ & _ & _ & E); cbn in E;
      congruence.
Qed.

(** Ends the proof below once the chain setting is synchronised. *)
Ltac store_and_prompt ethers challenge tabId state w w2 Hdefer2 Hc2 Hq2 Hh2 Hp2 Hx2 :=
  let H := fresh "H" in
  let w' := fresh "w" in
  let Hrun := fresh "Hrun" in
  let Hq := fresh "Hq" in
  let Hh := fresh "Hh" in
  let Hp := fresh "Hp" in
  let Hx := fresh "Hx" in
  let Hclock := fresh "Hclock" in
  let Hwindow := fresh "Hwindow" in
  destruct Hc2 as [Hclock Hwindow];
  rewrite <- Hclock in Hdefer2;
  pose proof (defer_view ethers challenge tabId state w2 Hdefer2) as H;
  cbv beta zeta in H; destruct H as (w' & Hrun & Hq & Hh & Hp & Hx);
  rewrite Hrun; cbn [fst snd];
  rewrite Hclock, Hwindow, Hq2 in Hq;
  split; [reflexivity|];
  split; [exact Hq|];
  split; [congruence|];
  split; congruence.

(** X14: a challenge the policy engine defers is not paid.  When
    [shouldAutoApprove] is false for the stored settings, policies and
    history, [handleChallenge] returns the action "pending" with the
    challenge id, files no payment record, changes no policy and leaves
    the extension status as it was, and it leaves the pending store
    pruned of its expired entries, with the challenge assigned under its
    id ([assign]) together with the sender's tab, the time of the call
    and the id of the prompt window (none if the window could not be
    opened). *)
Theorem deferred_challenge_is_stored_for_prompt
    (ethers : Ethers.t) (challenge : ChallengeDetails.t) (tabId : option Z) (w : World.t) :
  shouldAutoApprove (stored_state w) challenge (World.clock w) = false ->
  let after := stored_state (snd (handleChallenge ethers challenge tabId w)) in
  fst (handleChallenge ethers challenge tabId w) = Returned (pending_resolution challenge)
  /\ ExtensionState.pendingChallenges after
     = assign (ChallengeDetails.challengeId challenge)
         (PendingChallenge.mk challenge tabId (World.clock w)
            (match World.promptWindow w with
             | Some windowId => windowId
             | None => None
             end))
         (filter (kept (World.clock w)) (ExtensionState.pendingChallenges (stored_state w)))
  /\ ExtensionState.history after = ExtensionState.history (stored_state w)
  /\ ExtensionState.policies after = ExtensionState.policies (stored_state w)
  /\ ExtensionState.extensionStatus after = ExtensionState.extensionStatus (stored_state w).
Proof.
  intros Hdefer after. subst after. unfold handleChallenge.
  destruct (getState_view false w) as (state0 & w1 & Hget & Hs0 & Hs1 & Hc1).
  rewrite (bind_returned _ _ w w1 state0 Hget). cbv beta zeta.
  destruct Hs0 as (A1 & A2 & A3 & _). destruct Hs1 as (_ & B2 & B3 & _ & B5 & B6).
  assert (Hdefer1 : shouldAutoApprove state0 challenge (World.clock w) = false).
  { rewrite <- Hdefer. apply shouldAutoApprove_reads; congruence. }
  destruct (mapChainId (ChallengeDetails.chainId challenge)) as [chain|].
  - destruct (negb (ChainId_eqb chain _)).
    + destruct (updateSettings_view (SettingsPatch.only_chain chain) w1)
        as (next & w2 & Hupd & Hs2 & Hc2).
      rewrite (bind_returned _ _ w1 w2 _
                 (eq_trans (bind_returned _ _ w1 w2 next Hupd) eq_refl)).
      cbv beta zeta.
      destruct Hs2 as (_ & C2 & C3 & _ & C5 & C6). cbn in C2, C3, C5, C6.
      assert (Hdefer2 : shouldAutoApprove
                          (set_settings state0
                             (spreadSettings (ExtensionState.settings state0)
                                (SettingsPatch.only_chain chain)))
                          challenge (World.clock w) = false)
        by (rewrite <- Hdefer1; apply shouldAutoApprove_reads; reflexivity).
      assert (Hc : same_clock w w2) by (etransitivity; eassumption).
      assert (Hq2 : ExtensionState.pendingChallenges (stored_state w2)
                    = ExtensionState.pendingChallenges (stored_state w)) by congruence.
      assert (Hh2 : ExtensionState.history (stored_state w2)
                    = ExtensionState.history (stored_state w)) by congruence.
      assert (Hp2 : ExtensionState.policies (stored_state w2)
                    = ExtensionState.policies (stored_state w)) by congruence.
      assert (Hx2 : ExtensionState.extensionStatus (stored_state w2)
                    = ExtensionState.extensionStatus (stored_state w)) by congruence.
      store_and_prompt ethers challenge tabId
        (set_settings state0
           (spreadSettings (ExtensionState.settings state0) (SettingsPatch.only_chain chain)))
        w w2 Hdefer2 Hc Hq2 Hh2 Hp2 Hx2.
    + rewrite (bind_returned (ret state0) _ w1 w1 state0 eq_refl). cbv beta zeta.
      store_and_prompt ethers challenge tabId state0 w w1 Hdefer1 Hc1 B5 B3 B2 B6.
  - rewrite (bind_returned (ret state0) _ w1 w1 state0 eq_refl). cbv beta zeta.
    store_and_prompt ethers challenge tabId state0 w w1 Hdefer1 Hc1 B5 B3 B2 B6.
Qed.

Lemma deferred_challenge_is_stored_for_prompt_witness :
  fst (handleChallenge Sample.signing (Sample.challenge 0.5%float) (Some 3)
         Sample.unlocked_world)
  = Returned (pending_resolution (Sample.challenge 0.5%float)).
Proof.
  eapply (deferred_challenge_is_stored_for_prompt Sample.signing
            (Sample.challenge 0.5%float) (Some 3) Sample.unlocked_world).
  vm_compute. reflexivity.
Defined.

(** X15: a decision on a challenge that is not pending (never stored,
    already resolved, or older than the TTL), under an id that names no
    member of [Object.prototype], changes nothing but the pruning of
    expired entries: [handlePromptDecision] returns the status "error"
    with the message "Challenge not found", sends nothing, and files no
    record, whether the decision approves or denies. *)
Theorem decision_on_unknown_challenge_is_rejected
    (ethers : Ethers.t) (challengeId : string) (decision : PromptDecision.t) (w : World.t) :
  inherited_name challengeId = false ->
  (forall entry,
     ExtensionState.pendingChallenges (stored_state w) !! challengeId = Some entry ->
     expired (World.clock w) entry = true) ->
  let after := stored_state (snd (handlePromptDecision ethers challengeId decision w)) in
  fst (handlePromptDecision ethers challengeId decision w)
  = Returned (PromptDecisionResult.mk prompt_error (Some "Challenge not found"), [])
  /\ ExtensionState.history after = ExtensionState.history (stored_state w)
  /\ ExtensionState.policies after = ExtensionState.policies (stored_state w)
  /\ ExtensionState.extensionStatus after = ExtensionState.extensionStatus (stored_state w)
  /\ ExtensionState.pendingChallenges after
     = filter (kept (World.clock w)) (ExtensionState.pendingChallenges (stored_state w)).
Proof.
  intros Hown Hgone after. subst after. unfold handlePromptDecision. unfold_monad.
  destruct (getPendingChallenges_view w) as (w1 & Hget & Hs1 & _). rewrite Hget.
  rewrite lookup_kept, Hown.
  destruct (ExtensionState.pendingChallenges (stored_state w) !! challengeId) as [entry|].
  - rewrite (Hgone entry eq_refl). cbn [fst snd negb].
    destruct Hs1 as (_ & A2 & A3 & _ & A5 & A6). cbn in *. auto.
  - cbn [fst snd negb]. destruct Hs1 as (_ & A2 & A3 & _ & A5 & A6). cbn in *. auto.
Qed.

Lemma decision_on_unknown_challenge_is_rejected_witness :
  fst (handlePromptDecision Sample.signing "ch-1" (PromptDecision.mk true None)
         (Sample.pending_world Sample.now (Sample.now + 11 * 60 * 1000)))
  = Returned (PromptDecisionResult.mk prompt_error (Some "Challenge not found"), []).
Proof.
  eapply (decision_on_unknown_challenge_is_rejected Sample.signing "ch-1"
            (PromptDecision.mk true None)
            (Sample.pending_world Sample.now (Sample.now + 11 * 60 * 1000))).
  - reflexivity.
  - intros entry Hentry. vm_compute in Hentry. injection Hentry as <-.
    vm_compute. reflexivity.
Defined.

(** X16: a denied challenge.  For a pending challenge that has not
    expired, a decision that does not approve files a record with status
    "denied" (not auto-approved) at the head of the history, sets the
    extension status to "idle", removes the challenge from the pending
    store, tells the tab of the challenge the action "deny", closes the
    prompt window, and returns the status "denied"; no policy changes. *)
Theorem denied_challenge_is_recorded_and_cleared
    (ethers : Ethers.t) (challengeId : string) (decision : PromptDecision.t) (w : World.t)
    (entry : PendingChallenge.t) :
  ExtensionState.pendingChallenges (stored_state w) !! challengeId = Some entry ->
  expired (World.clock w) entry = false ->
  PromptDecision.approve decision = false ->
  let after := stored_state (snd (handlePromptDecision ethers challengeId decision w)) in
  let challenge := PendingChallenge.challenge entry in
  fst (handlePromptDecision ethers challengeId decision w)
  = Returned
      (PromptDecisionResult.mk prompt_denied None,
       (notify_tab (PendingChallenge.tabId entry) challengeId
          (ChallengeResolution.mk deny_action None None None)
        ++ remove_window (PendingChallenge.windowId entry))%list)
  /\ ExtensionState.history after
     = firstn 2000
         (PaymentRecord.mk challengeId (ChallengeDetails.origin challenge)
            (ChallengeDetails.endpoint challenge) (ChallengeDetails.amountUsd challenge)
            (ChallengeDetails.tokenSymbol challenge) (World.clock w) denied false None None
          :: ExtensionState.history (stored_state w))
  /\ ExtensionState.pendingChallenges after !! challengeId = None
  /\ ExtensionState.extensionStatus after = idle
  /\ ExtensionState.policies after = ExtensionState.policies (stored_state w).
Proof.
  intros Hentry Hfresh Hdeny after challenge. subst after.
  unfold handlePromptDecision. unfold_monad.
  destruct (getPendingChallenges_view w) as (w1 & Hget & Hs1 & Hc1 & _). rewrite Hget.
  rewrite lookup_kept, Hentry, Hfresh, Hdeny. fold challenge. rewrite Hc1.
  match goal with
  | |- context [recordPayment ?r w1] =>
      destruct (recordPayment_view r w1) as (w2 & Hrec & Hh2 & Hp2 & Hq2 & _ & _ & Hc2 & _)
  end.
  rewrite Hrec.
  destruct (setExtensionStatus_view idle w2) as (w3 & Hidle & Hs3 & Hc3 & _). rewrite Hidle.
  destruct (clearChallenge_view challengeId w3) as (w4 & Hclear & Hs4 & _). rewrite Hclear.
  cbn [fst snd].
  destruct Hs1 as (_ & A2 & A3 & _ & A5 & A6). destruct Hs3 as (_ & C2 & C3 & _ & C5 & C6).
  destruct Hs4 as (_ & D2 & D3 & _ & D5 & D6). cbn in *.
  split; [reflexivity|]. split; [congruence|]. split; [|split; congruence].
  rewrite D5. apply lookup_delete_eq.
Qed.

Lemma denied_challenge_is_recorded_and_cleared_witness :
  fst (handlePromptDecision Sample.signing "ch-1" (PromptDecision.mk false None)
         (Sample.pending_world Sample.now (Sample.now + 1000)))
  = Returned
      (PromptDecisionResult.mk prompt_denied None,
       [TabMessage 3 "ch-1" (ChallengeResolution.mk deny_action None None None)]).
Proof.
  eapply (denied_challenge_is_recorded_and_cleared Sample.signing "ch-1"
            (PromptDecision.mk false None)
            (Sample.pending_world Sample.now (Sample.now + 1000))
            (Sample.pending_entry Sample.now)).
  - reflexivity.
  - reflexivity.
  - reflexivity.
Defined.

(** X17: approving while the wallet is locked pays nothing and keeps the
    challenge.  For a pending challenge that has not expired and a
    configured wallet without a valid transient secret, an approving
    decision returns the status "locked" with the message "Wallet
    locked", sends nothing, files no record, leaves the challenge in the
    pending store (so that the decision can be repeated after an unlock)
    and leaves the extension status "idle". *)
Theorem approval_while_locked_keeps_challenge
    (ethers : Ethers.t) (challengeId : string) (decision : PromptDecision.t) (w : World.t)
    (entry : PendingChallenge.t) :
  locked_with_wallet w ->
  ExtensionState.pendingChallenges (stored_state w) !! challengeId = Some entry ->
  expired (World.clock w) entry = false ->
  PromptDecision.approve decision = true ->
  let after := stored_state (snd (handlePromptDecision ethers challengeId decision w)) in
  fst (handlePromptDecision ethers challengeId decision w)
  = Returned (PromptDecisionResult.mk prompt_locked (Some "Wallet locked"), [])
  /\ ExtensionState.pendingChallenges after !! challengeId = Some entry
  /\ ExtensionState.history after = ExtensionState.history (stored_state w)
  /\ ExtensionState.policies after = ExtensionState.policies (stored_state w)
  /\ ExtensionState.extensionStatus after = idle.
Proof.
  intros Hlocked Hentry Hfresh Happrove after. subst after.
  unfold handlePromptDecision. unfold_monad.
  pose proof (returns_keeping_run _ _ w getPendingChallenges_keeps_locked Hlocked) as Hlocked1.
  destruct (getPendingChallenges_view w) as (w1 & Hget & Hs1 & Hc1). rewrite Hget in *.
  cbn [snd] in Hlocked1.
  rewrite lookup_kept, Hentry, Hfresh, Happrove. unfold try_catch. unfold_monad.
  destruct (withExtensionStatus_view paying
              (processPayment ethers (PendingChallenge.challenge entry) false) w1)
    as (w2 & Hset & Hs2 & Hc2 & w4 & Hwith & Hs4 & Hc4).
  pose proof (returns_keeping_run _ _ w1 (setExtensionStatus_keeps_locked paying) Hlocked1)
    as Hlocked2.
  rewrite Hset in Hlocked2. cbn [snd] in Hlocked2.
  destruct (processPayment_locked_view ethers (PendingChallenge.challenge entry) false w2
              Hlocked2) as (w3 & Hpay & Hs3 & _ & Hc3).
  rewrite Hpay in Hwith, Hs4. cbn [fst snd] in Hwith, Hs4. rewrite Hwith. cbn [fst snd].
  destruct Hs1 as (_ & A2 & A3 & _ & A5 & A6). destruct Hs2 as (_ & B2 & B3 & _ & B5 & B6).
  destruct Hs3 as (_ & C2 & C3 & _ & C5 & C6). cbn in *.
  rewrite C6, B6 in Hs4. cbn in Hs4. destruct Hs4 as (_ & D2 & D3 & _ & D5 & D6). cbn in *.
  split; [reflexivity|]. split; [|split; [congruence|split; [congruence|exact D6]]].
  rewrite D5, C5, B5, A5, lookup_kept, Hentry, Hfresh. reflexivity.
Qed.

Lemma approval_while_locked_keeps_challenge_witness :
  fst (handlePromptDecision Sample.signing "ch-1" (PromptDecision.mk true (Some true))
         (Sample.pending_world Sample.now (Sample.now + 1000)))
  = Returned (PromptDecisionResult.mk prompt_locked (Some "Wallet locked"), []).
Proof.
  eapply (approval_while_locked_keeps_challenge Sample.signing "ch-1"
            (PromptDecision.mk true (Some true))
            (Sample.pending_world Sample.now (Sample.now + 1000))
            (Sample.pending_entry Sample.now)).
  - split; [eexists _, _; split; reflexivity|left; reflexivity].
  - reflexivity.
  - reflexivity.
  - reflexivity.
Defined.

